(** * UCAN tokens and did:key identifiers

    A shallow embedding of [src/did/transformers.ts]: the did:key codec
    ([publicKeyToDid], [didToPublicKey]) and the UCAN functions that follow
    it in the same file ([build], [decode], [encode], [isExpired],
    [isValid], [rootIssuer], [sign], [jwtAlgorithm], [extractPayload]).

    Conventions of the model:
    - a JavaScript string is a byte string, its UTF-8 image, and a
      [Uint8Array] is the list of its bytes; text that is not valid UTF-8
      is not considered;
    - a number is a double that is an integer, printed in plain decimal:
      every number the code computes with is a count of seconds.  A sum
      is rounded as a sum of doubles is, and arithmetic on what is not a
      number gives [NaN]; a JSON text with a fraction or an exponent is
      not modelled;
    - an exception is a value of [result]; [await] is transparent, an
      asynchronous call being modelled by what it resolves to;
    - the two recursive functions take a recursion budget and return
      [None] when it runs out;
    - the modules and packages the file imports are parameters (type
      classes), with reference implementations to run the functions on
      concrete tokens. *)

From Stdlib Require Import String Ascii List NArith ZArith Bool Lia Arith.
Import ListNotations.

Local Open Scope list_scope.
Local Open Scope string_scope.
Set Warnings "-register-all".

(** ** JavaScript values *)

(** What [JSON.parse] returns. *)
Inductive json : Type :=
| JNull
| JBool (b : bool)
| JNum (n : Z)
| JStr (s : string)
| JArr (items : list json)
| JObj (fields : list (string * json)).

(** A value read from a property or an array index: [None] is
    [undefined]. *)
Definition jsval : Type := option json.

Inductive error : Type :=
| SyntaxError                 (* JSON.parse, base-N decoding *)
| TypeError                   (* member access on undefined or null *)
| Error (msg : string)        (* throw new Error(msg) *)
| Unmodelled.                 (* not an exception: a value for which the
                                 model has no representation (a payload
                                 that holds NaN, an infinity or a
                                 fraction, a character of a DID above
                                 U+00FF) *)

Inductive result (A : Type) : Type :=
| Ok (a : A)
| Throw (e : error).
Arguments Ok {A} a.
Arguments Throw {A} e.

Definition bind {A B} (c : result A) (k : A -> result B) : result B :=
  match c with Ok a => k a | Throw e => Throw e end.

(** The same for the continuation of a function with a recursion budget. *)
Definition bindF {A B} (c : result A) (k : A -> option (result B))
  : option (result B) :=
  match c with Ok a => k a | Throw e => Some (Throw e) end.

Declare Scope js_scope.
Delimit Scope js_scope with js.
Notation "x <- c ;; k" := (bind c (fun x => k))
  (at level 61, c at next level, right associativity) : js_scope.
Notation "'let*' x := c 'in' k" := (bindF c (fun x => k))
  (at level 61, x name, c at next level, right associativity) : js_scope.
Local Open Scope js_scope.

(** [try { c } catch (_) { throw e }] *)
Definition try_catch_throw {A} (c : result A) (e : error) : result A :=
  match c with Ok a => Ok a | Throw _ => Throw e end.

(** [s.split(sep)] for a one-character separator: never empty. *)
Fixpoint split (sep : ascii) (s : string) : list string :=
  match s with
  | EmptyString => [EmptyString]
  | String c rest =>
      if Ascii.eqb c sep then EmptyString :: split sep rest
      else match split sep rest with
           | seg :: segs => String c seg :: segs
           | [] => [String c EmptyString]
           end
  end.

(** The last binding of a key: an object holds one value per key and
    [JSON.parse] keeps the last one it reads. *)
Fixpoint lookup (k : string) (fields : list (string * json)) : jsval :=
  match fields with
  | [] => None
  | (k', v) :: rest =>
      match lookup k rest with
      | Some w => Some w
      | None => if String.eqb k k' then Some v else None
      end
  end.

(** [v.k] for the property names this file reads ([iss], [aud], [prf],
    [exp], [nbf], [rsc]), none of which is inherited from a prototype:
    [null] has no properties, a primitive or an array has none of these. *)
Definition get (k : string) (v : json) : result jsval :=
  match v with
  | JNull => Throw TypeError
  | JObj fields => Ok (lookup k fields)
  | _ => Ok None
  end.

(** ToBoolean *)
Definition truthy (v : jsval) : bool :=
  match v with
  | None => false
  | Some JNull => false
  | Some (JBool b) => b
  | Some (JNum n) => negb (Z.eqb n 0)
  | Some (JStr s) => negb (String.eqb s "")
  | Some (JArr _) => true
  | Some (JObj _) => true
  end.

(** [a === b] between two values that come from different parses:
    primitives compare by value, two objects are never the same object. *)
Definition strict_eq (a b : jsval) : bool :=
  match a, b with
  | None, None => true
  | Some JNull, Some JNull => true
  | Some (JBool x), Some (JBool y) => Bool.eqb x y
  | Some (JNum x), Some (JNum y) => Z.eqb x y
  | Some (JStr x), Some (JStr y) => String.eqb x y
  | _, _ => false
  end.

(** *** Positional notation

    The digits of a number in a base, most significant first and without
    a leading zero; shared by the decimal printer and the base-58 codec.
    The number of bits of [n] bounds the number of digits. *)
Fixpoint to_digits_from (fuel : nat) (base n : N) (acc : list N) : list N :=
  match fuel with
  | O => acc
  | S fuel =>
      if N.eqb n 0 then acc
      else to_digits_from fuel base (n / base)%N ((n mod base)%N :: acc)
  end.

Definition to_digits (base n : N) : list N :=
  to_digits_from (N.to_nat (N.size n)) base n [].

Definition of_digits (base : N) (digits : list N) : N :=
  fold_left (fun acc d => (acc * base + d)%N) digits 0%N.

Definition digit_char (d : N) : ascii := ascii_of_N (48 + d).

(** [String(n)] for an integer. *)
Definition string_of_N (n : N) : string :=
  if N.eqb n 0 then "0"
  else string_of_list_ascii (map digit_char (to_digits 10 n)).

Definition string_of_nat (n : nat) : string := string_of_N (N.of_nat n).

Definition string_of_Z (n : Z) : string :=
  if Z.ltb n 0 then "-" ++ string_of_N (Z.abs_N n)
  else string_of_N (Z.abs_N n).

(** [`${v}`]: ToString of a parsed value. *)
Fixpoint toString (v : json) : string :=
  match v with
  | JNull => "null"
  | JBool true => "true"
  | JBool false => "false"
  | JNum n => string_of_Z n
  | JStr s => s
  | JArr items =>
      String.concat ","
        (map (fun x => match x with JNull => "" | _ => toString x end) items)
  | JObj _ => "[object Object]"
  end.

(** [{...v}]: the own enumerable properties of [v]. *)
Definition spread (v : json) : json :=
  match v with
  | JObj fields => JObj fields
  | JArr items =>
      JObj (combine (map string_of_nat (seq 0 (length items))) items)
  | JStr s =>
      JObj (combine (map string_of_nat (seq 0 (String.length s)))
                    (map (fun c => JStr (String c EmptyString))
                         (list_ascii_of_string s)))
  | _ => JObj []
  end.

(** An object literal; a field whose value is [undefined] reads and
    serialises like an absent one, and is left out. *)
Fixpoint object (fields : list (string * jsval)) : list (string * json) :=
  match fields with
  | [] => []
  | (k, Some v) :: rest => (k, v) :: object rest
  | (_, None) :: rest => object rest
  end.

(** ** Numbers

    The numbers of this file are counts of seconds: integers, the
    result [NaN] of arithmetic on what is not a number, and the
    infinities that a sum overflows to.  A JSON value holds the
    integers only. *)
Inductive number : Type :=
| Int (z : Z)
| Fraction (n d : Z)          (* [n / d], a double that is not an integer:
                                 numeric text only gives one *)
| NaN
| Infinity (negative : bool).

(** The integer nearest to [z] among the doubles of any magnitude: [z]
    itself when it has 53 bits or less, and else [z] rounded to 53
    significant bits, to the even one on a tie. *)
Definition round53 (z : Z) : Z :=
  let a := Z.abs z in
  if (a <? 2 ^ 53)%Z then z
  else
    let shift := (Z.log2 a - 52)%Z in
    let q := (a / 2 ^ shift)%Z in
    let r := (a mod 2 ^ shift)%Z in
    let half := (2 ^ (shift - 1))%Z in
    let q := if (r <? half)%Z then q
             else if (half <? r)%Z then (q + 1)%Z
             else if Z.even q then q else (q + 1)%Z in
    (Z.sgn z * (q * 2 ^ shift))%Z.

(** The double that an exact sum [z] of two doubles gives: the nearest
    one, an infinity from [2 ^ 1024] on. *)
Definition to_double (z : Z) : number :=
  let r := round53 z in
  if (Z.abs r <? 2 ^ 1024)%Z then Int r else Infinity (z <? 0)%Z.

(** [a <= b] between numbers: [false] when one of them is [NaN]. *)
Definition ratio (a : number) : Z * Z :=
  match a with
  | Int z => (z, 1%Z)
  | Fraction n d => (n, d)
  | NaN | Infinity _ => (0%Z, 1%Z)
  end.

Definition number_le (a b : number) : bool :=
  match a, b with
  | NaN, _ | _, NaN => false
  | Infinity true, _ | _, Infinity false => true
  | Infinity false, _ | _, Infinity true => false
  | Int x, Int y => (x <=? y)%Z
  | _, _ =>
      let '(n1, d1) := ratio a in
      let '(n2, d2) := ratio b in
      (n1 * d2 <=? n2 * d1)%Z
  end.

(** [Math.min(a, b)] and [Math.max(a, b)] *)
Definition Math_min (a b : number) : number :=
  match a, b with
  | NaN, _ | _, NaN => NaN
  | Infinity true, _ | _, Infinity true => Infinity true
  | Infinity false, x | x, Infinity false => x
  | Int x, Int y => Int (Z.min x y)
  | _, _ => if number_le a b then a else b
  end.

Definition Math_max (a b : number) : number :=
  match a, b with
  | NaN, _ | _, NaN => NaN
  | Infinity false, _ | _, Infinity false => Infinity false
  | Infinity true, x | x, Infinity true => x
  | Int x, Int y => Int (Z.max x y)
  | _, _ => if number_le a b then b else a
  end.

(** The JSON value that holds a number.  A JSON value of this file holds
    an integer: an object that has [NaN], an infinity or a fraction for
    a property is not followed. *)
Definition json_of_number (n : number) : result json :=
  match n with
  | Int z => Ok (JNum z)
  | Fraction _ _ | NaN | Infinity _ => Throw Unmodelled
  end.

(** *** Numeric text

    [StringToNumber]: the number that a string stands for where a number
    is expected, [NaN] when it is not the text of a number. *)

Module NumericText.

(** The double nearest to [p / q], for [p] and [q] positive. *)
Definition round_ratio (p q : Z) : number :=
  let l0 := (Z.log2 p - Z.log2 q)%Z in
  let reaches (l : Z) : bool :=
    if (0 <=? l)%Z then (q * 2 ^ l <=? p)%Z else (q <=? p * 2 ^ (- l))%Z in
  (* the exponent of [p / q], and that of its last bit as a double *)
  let exponent := if reaches l0 then l0 else (l0 - 1)%Z in
  let e := Z.max (exponent - 52) (-1074) in
  let num := if (0 <=? e)%Z then p else (p * 2 ^ (- e))%Z in
  let den := if (0 <=? e)%Z then (q * 2 ^ e)%Z else q in
  let quo := (num / den)%Z in
  let rem := (num mod den)%Z in
  let m := if (2 * rem <? den)%Z then quo
           else if (den <? 2 * rem)%Z then (quo + 1)%Z
           else if Z.even quo then quo else (quo + 1)%Z in
  if (m =? 0)%Z then Int 0
  else if (0 <=? e)%Z then
    if (2 ^ 1024 <=? m * 2 ^ e)%Z then Infinity false else Int (m * 2 ^ e)
  else
    let g := Z.gcd m (2 ^ (- e)) in
    if (2 ^ (- e) / g =? 1)%Z then Int (m / g)
    else Fraction (m / g) (2 ^ (- e) / g).

Definition negate (a : number) : number :=
  match a with
  | Int z => Int (- z)
  | Fraction n d => Fraction (- n) d
  | NaN => NaN
  | Infinity negative => Infinity (negb negative)
  end.

(** [digits * 10 ^ exponent], read from [count] digits.  Beyond the
    range of the doubles the powers of ten are not computed. *)
Definition decimal (digits : Z) (count : nat) (exponent : Z) : number :=
  if (digits =? 0)%Z then Int 0
  else if (400 <? exponent)%Z then Infinity false
  else if (exponent + Z.of_nat count <? -400)%Z then Int 0
  else if (0 <=? exponent)%Z then round_ratio (digits * 10 ^ exponent) 1
  else round_ratio digits (10 ^ (- exponent)).

(** The white space and the line ends that may surround the number:
    TAB, LF, VT, FF, CR, SP, and U+00A0, U+1680, U+2000 to U+200A,
    U+2028, U+2029, U+202F, U+205F, U+3000, U+FEFF in UTF-8. *)
Definition white_space : list (list N) :=
  [ [9]; [10]; [11]; [12]; [13]; [32]; [194; 160]; [225; 154; 128];
    [226; 128; 128]; [226; 128; 129]; [226; 128; 130]; [226; 128; 131];
    [226; 128; 132]; [226; 128; 133]; [226; 128; 134]; [226; 128; 135];
    [226; 128; 136]; [226; 128; 137]; [226; 128; 138]; [226; 128; 168];
    [226; 128; 169]; [226; 128; 175]; [226; 129; 159]; [227; 128; 128];
    [239; 187; 191] ]%N.

Fixpoint after (prefix l : list N) : option (list N) :=
  match prefix, l with
  | [], _ => Some l
  | x :: prefix, y :: l => if (x =? y)%N then after prefix l else None
  | _ :: _, [] => None
  end.

Fixpoint after_one (prefixes : list (list N)) (l : list N)
  : option (list N) :=
  match prefixes with
  | [] => None
  | prefix :: prefixes =>
      match after prefix l with
      | Some rest => Some rest
      | None => after_one prefixes l
      end
  end.

Fixpoint strip (fuel : nat) (prefixes : list (list N)) (l : list N)
  : list N :=
  match fuel with
  | O => l
  | S fuel =>
      match after_one prefixes l with
      | Some rest => strip fuel prefixes rest
      | None => l
      end
  end.

Definition trim (l : list N) : list N :=
  let l := strip (length l) white_space l in
  rev (strip (length l) (map (@rev N) white_space) (rev l)).

(** The value of a digit in a base up to sixteen. *)
Definition digit (base c : N) : option N :=
  let v := if (48 <=? c)%N && (c <=? 57)%N then Some (c - 48)%N
           else if (97 <=? c)%N && (c <=? 102)%N then Some (c - 87)%N
           else if (65 <=? c)%N && (c <=? 70)%N then Some (c - 55)%N
           else None in
  match v with
  | Some d => if (d <? base)%N then Some d else None
  | None => None
  end.

(** The digits at the head of [l]: their value after [acc], their
    number, and what follows them. *)
Fixpoint digits (base : N) (l : list N) (acc : N) (count : nat)
  : N * nat * list N :=
  match l with
  | c :: rest =>
      match digit base c with
      | Some d => digits base rest (acc * base + d)%N (S count)
      | None => (acc, count, l)
      end
  | [] => (acc, count, [])
  end.

(** [0x], [0o] and [0b] literals. *)
Definition radix (l : list N) : option number :=
  match l with
  | 48%N :: x :: rest =>
      let base :=
        if (x =? 120)%N || (x =? 88)%N then Some 16%N
        else if (x =? 111)%N || (x =? 79)%N then Some 8%N
        else if (x =? 98)%N || (x =? 66)%N then Some 2%N
        else None in
      match base with
      | Some base =>
          match digits base rest 0 0 with
          | (value, S _, []) =>
              Some (if (value =? 0)%N then Int 0
                    else round_ratio (Z.of_N value) 1)
          | _ => None
          end
      | None => None
      end
  | _ => None
  end.

(** The exponent part, when there is one. *)
Definition exponent_part (l : list N) : option Z :=
  match l with
  | [] => Some 0%Z
  | c :: rest =>
      if (c =? 101)%N || (c =? 69)%N then
        let '(negative, rest) :=
          match rest with
          | 43%N :: rest => (false, rest)
          | 45%N :: rest => (true, rest)
          | _ => (false, rest)
          end in
        match digits 10 rest 0 0 with
        | (value, S _, []) =>
            Some (if negative then (- Z.of_N value)%Z else Z.of_N value)
        | _ => None
        end
      else None
  end.

(** A decimal literal without its sign: [Infinity], or digits with a
    point and an exponent that may be missing. *)
Definition unsigned_decimal (l : list N) : option number :=
  if list_eq_dec N.eq_dec l [73; 110; 102; 105; 110; 105; 116; 121]%N
  then Some (Infinity false)
  else
    let '(whole, count, rest) := digits 10 l 0 0 in
    let '(value, places, rest) :=
      match rest with
      | 46%N :: rest =>
          let '(value, total, rest) := digits 10 rest whole count in
          (value, total - count, rest)
      | _ => (whole, O, rest)
      end in
    match count + places with
    | O => None
    | S _ =>
        match exponent_part rest with
        | Some e =>
            Some (decimal (Z.of_N value) (count + places)
                    (e - Z.of_nat places))
        | None => None
        end
    end.

Definition StringToNumber (s : string) : number :=
  let l := trim (map N_of_ascii (list_ascii_of_string s)) in
  match l with
  | [] => Int 0
  | c :: rest =>
      match radix l with
      | Some n => n
      | None =>
          let literal :=
            if (c =? 43)%N then unsigned_decimal rest
            else if (c =? 45)%N then option_map negate (unsigned_decimal rest)
            else unsigned_decimal l in
          match literal with
          | Some n => n
          | None => NaN
          end
      end
  end.

End NumericText.

(** [String(v)] where a primitive is expected of an array or an object:
    an array joins its elements, [null] counting for nothing, and a
    plain object prints as [[object Object]] unless it has a property
    [toString], which is not a function. *)
Fixpoint ToString (v : json) : result string :=
  match v with
  | JArr items =>
      match
        (fix join (l : list json) : result (list string) :=
           match l with
           | [] => Ok []
           | x :: rest =>
               match (match x with JNull => Ok "" | _ => ToString x end),
                     join rest with
               | Ok s, Ok t => Ok (s :: t)
               | Throw e, _ => Throw e
               | _, Throw e => Throw e
               end
           end) items
      with
      | Ok texts => Ok (String.concat "," texts)
      | Throw e => Throw e
      end
  | JObj fields =>
      match lookup "toString" fields with
      | Some _ => Throw TypeError
      | None => Ok "[object Object]"
      end
  | _ => Ok (toString v)
  end.

(** ** Collaborators

    Modules the file imports and whose sources are elsewhere. *)

(** [../common/index.js], [base64]. *)
Class Base64 : Type := {
  urlEncode : string -> string;
  urlDecode : string -> result string;
  makeUrlSafe : string -> string;
  makeUrlUnsafe : string -> string
}.

(** The built-in [JSON] object. *)
Class JSON : Type := {
  JSON_parse : string -> result json;
  JSON_stringify : json -> string
}.

(** [verifySignedData] of [../did/validation.js], applied to
    [{ data, did, signature }]: it resolves the key of [did] and answers
    whether [signature] signs [data]. *)
Class Validation : Type := {
  verifySignedData : string -> jsval -> string -> bool
}.

(** The clock, the keystore and the identity of the running program:
    [Date.now()], [crypto.keystore.getAlg()], [crypto.keystore.sign(msg, 8)]
    and [did.ucan()]. *)
Class Platform : Type := {
  Date_now : Z;
  keystore_getAlg : string;
  keystore_sign : string -> string;
  did_ucan : string
}.

(** ** UCAN *)

Section UCAN.

Context {base64 : Base64} {JSON_ : JSON} {validation : Validation}
        {platform : Platform}.

(** [Ucan] of [./types.js]: the header and the payload are the objects
    that [JSON.parse] returned or that [build] assembled; the signature is
    a string or [null]. *)
Record Ucan : Type := {
  header : json;
  payload : json;
  signature : option string
}.

(** Modelled from the spec: [Resource] of [./types.js], "resource
    descriptor: wildcard string or a structured value". *)
Inductive Resource : Type :=
| Wildcard
| Structured (fields : list (string * json)).

Definition resource_value (r : Resource) : json :=
  match r with
  | Wildcard => JStr "*"
  | Structured fields => JObj fields
  end.

(** The argument object of [build]; [None] is an omitted field. *)
Record BuildParams : Type := {
  addSignature : option bool;
  audience : string;
  facts : option (list json);
  issuer : option string;
  lifetimeInSeconds : option Z;
  expiration : option Z;
  potency : option string;
  proof : option string;
  resource : option Resource
}.

(** A parameter default, [x = d] in the signature. *)
Definition default {A} (d : A) (x : option A) : A :=
  match x with Some a => a | None => d end.

(** [x || d] for a string. *)
Definition or_string (x : option string) (d : string) : string :=
  match x with
  | Some s => if String.eqb s "" then d else s
  | None => d
  end.

(** [x || null] for a string. *)
Definition or_null (x : option string) : option string :=
  match x with
  | Some s => if String.eqb s "" then None else Some s
  | None => None
  end.

(** [ToNumber], which [Math.min], [Math.max] and [<=] apply to their
    operands: an array and an object go through their text. *)
Definition ToNumber (v : jsval) : result number :=
  match v with
  | None => Ok NaN
  | Some JNull => Ok (Int 0)
  | Some (JBool b) => Ok (Int (if b then 1 else 0))
  | Some (JNum n) => Ok (Int n)
  | Some (JStr s) => Ok (NumericText.StringToNumber s)
  | Some (JArr _ as a) | Some (JObj _ as a) =>
      match ToString a with
      | Ok text => Ok (NumericText.StringToNumber text)
      | Throw e => Throw e
      end
  end.

(** [base64.urlDecode(split[i])].  A missing segment is [undefined], on
    which the function fails, as any function that calls a string method
    on its argument does. *)
Definition urlDecode_at (split : list string) (i : nat) : result string :=
  match nth_error split i with
  | Some segment => urlDecode segment
  | None => Throw TypeError
  end.

Definition jwtAlgorithm (cryptoSystem : string) : option string :=
  if String.eqb cryptoSystem "ed25519" then Some "EdDSA"
  else if String.eqb cryptoSystem "rsa" then Some "RS256"
  else None.

Definition encodeHeader (header : json) : string :=
  urlEncode (JSON_stringify header).

Definition encodePayload (payload : json) : string :=
  urlEncode (JSON_stringify (spread payload)).

Definition sign (header payload : json) : string :=
  let encodedHeader := encodeHeader header in
  let encodedPayload := encodePayload payload in
  makeUrlSafe (keystore_sign (encodedHeader ++ "." ++ encodedPayload)).

Definition decode (ucan : string) : result Ucan :=
  let split := split "." ucan in
  header <- (text <- urlDecode_at split 0 ;; JSON_parse text) ;;
  payload <- (text <- urlDecode_at split 1 ;; JSON_parse text) ;;
  Ok {| header := header;
        payload := payload;
        signature := or_null (nth_error split 2) |}.

(** [ucan.signature] appended to a string: [null] prints as ["null"]. *)
Definition encode (ucan : Ucan) : string :=
  let encodedHeader := encodeHeader (header ucan) in
  let encodedPayload := encodePayload (payload ucan) in
  encodedHeader ++ "." ++
  encodedPayload ++ "." ++
  match signature ucan with Some s => s | None => "null" end.

Definition currentTimeInSeconds : Z := (Date_now / 1000)%Z.

(** The timestamps of [build]: [exp] and [nbf] as they are when the
    payload is assembled. *)
Definition timestamps (params : BuildParams) (decodedProof : option Ucan)
  : result (number * number) :=
  let lifetimeInSeconds := default 30%Z (lifetimeInSeconds params) in
  (* expiration || (currentTimeInSeconds + lifetimeInSeconds) *)
  let exp := match expiration params with
             | Some e => if Z.eqb e 0
                         then to_double
                                (currentTimeInSeconds + lifetimeInSeconds)
                         else Int e
             | None => to_double (currentTimeInSeconds + lifetimeInSeconds)
             end in
  let nbf := to_double (currentTimeInSeconds - 60) in
  (* if (decodedProof) { exp = Math.min(prf.exp, exp); ... } *)
  match decodedProof with
  | Some d =>
      let prf := payload d in
      prf_exp <- (v <- get "exp" prf ;; ToNumber v) ;;
      prf_nbf <- (v <- get "nbf" prf ;; ToNumber v) ;;
      Ok (Math_min prf_exp exp, Math_max prf_nbf nbf)
  | None => Ok (exp, nbf)
  end.

Definition build (params : BuildParams) : result Ucan :=
  let addSignature := default true (addSignature params) in
  let facts := default [] (facts params) in
  let potency := default "APPEND" (potency params) in
  (* an empty proof string is falsy, like an omitted one *)
  let proof := or_null (proof params) in
  (* proof && decode(proof) *)
  decodedProof <- match proof with
                  | Some p => d <- decode p ;; Ok (Some d)
                  | None => Ok None
                  end ;;
  let ksAlg := keystore_getAlg in
  let header := JObj [
    ("alg", JStr (or_string (jwtAlgorithm ksAlg) "UnknownAlgorithm"));
    ("typ", JStr "JWT");
    ("uav", JStr "1.0.0") ] in
  window <- timestamps params decodedProof ;;
  let '(exp, nbf) := window in
  (* resource ? resource : (decodedProof ? decodedProof.payload.rsc : "*");
     a [Resource] is the string "*" or an object, never falsy *)
  rsc <- match resource params with
         | Some r => Ok (Some (resource_value r))
         | None =>
             match decodedProof with
             | Some d => get "rsc" (payload d)
             | None => Ok (Some (JStr "*"))
             end
         end ;;
  exp <- json_of_number exp ;;
  nbf <- json_of_number nbf ;;
  let payload := JObj (object [
    ("aud", Some (JStr (audience params)));
    ("exp", Some exp);
    ("fct", Some (JArr facts));
    (* issuer || await did.ucan() *)
    ("iss", Some (JStr (or_string (issuer params) did_ucan)));
    ("nbf", Some nbf);
    (* proof || null *)
    ("prf", Some (match proof with Some p => JStr p | None => JNull end));
    ("ptc", Some (JStr potency));
    ("rsc", rsc) ]) in
  let signature := if addSignature then Some (sign header payload) else None in
  Ok {| header := header; payload := payload; signature := signature |}.

Definition isExpired (ucan : Ucan) : result bool :=
  exp <- (v <- get "exp" (payload ucan) ;; ToNumber v) ;;
  Ok (number_le exp (Int currentTimeInSeconds)).

(** [decode(v)] for a value read from a payload: only a string has a
    [split] method. *)
Definition decode_value (v : json) : result Ucan :=
  match v with
  | JStr s => decode s
  | _ => Throw TypeError
  end.

Fixpoint isValid (fuel : nat) (ucan : Ucan) : option (result bool) :=
  match fuel with
  | O => None
  | S fuel =>
      let encodedHeader := encodeHeader (header ucan) in
      let encodedPayload := encodePayload (payload ucan) in
      let* iss := get "iss" (payload ucan) in
      let a := verifySignedData
                 (encodedHeader ++ "." ++ encodedPayload)
                 iss
                 (makeUrlUnsafe (or_string (signature ucan) "")) in
      if negb a then Some (Ok a) else
      let* prf_ := get "prf" (payload ucan) in
      match prf_ with
      | Some p =>
          if negb (truthy prf_) then Some (Ok true) else
          let* prf := decode_value p in
          let* aud := get "aud" (payload prf) in
          let b := strict_eq aud iss in
          if negb b then Some (Ok b) else
          isValid fuel prf
      | None => Some (Ok true)
      end
  end.

Definition invalid_ucan (level : nat) (ucan : json) : string :=
  "Invalid UCAN (" ++ string_of_nat level ++ " level"
  ++ (if Nat.eqb level 1 then "" else "s") ++ " deep): `"
  ++ toString ucan ++ "`".

Definition extractPayload (ucan : json) (level : nat) : result json :=
  try_catch_throw
    (match ucan with
     | JStr s => text <- urlDecode_at (split "." s) 1 ;; JSON_parse text
     | _ => Throw TypeError
     end)
    (Error (invalid_ucan level ucan)).

(** The argument is a string on the first call and whatever [p.prf]
    holds on the next ones. *)
Fixpoint rootIssuer (fuel : nat) (ucan : json) (level : nat)
  : option (result jsval) :=
  match fuel with
  | O => None
  | S fuel =>
      let* p := extractPayload ucan level in
      let* prf := get "prf" p in
      match prf with
      | Some next =>
          if truthy prf then rootIssuer fuel next (level + 1)
          else let* iss := get "iss" p in Some (Ok iss)
      | None => let* iss := get "iss" p in Some (Ok iss)
      end
  end.

End UCAN.

(** ** did:key *)

(** A [Uint8Array]. *)
Definition bytes : Type := list ascii.

(** [KeyType] of [./types.js] is a string enumeration. *)
Definition KeyType : Type := string.

(** The encodings of the [uint8arrays] package that the file uses:
    [fromString(s, "base64")], [toString(b, "base64pad")],
    [fromString(s, "base58btc")] and [toString(b, "base58btc")]. *)
Class Uint8arrays : Type := {
  fromString_base64 : string -> result bytes;
  toString_base64pad : bytes -> string;
  fromString_base58btc : string -> result bytes;
  toString_base58btc : bytes -> string
}.

(** [./util.js]: the method prefix and the registry of algorithm
    prefixes. *)
Class DidUtil : Type := {
  BASE58_DID_PREFIX : string;
  magicBytes : KeyType -> option bytes;
  parseMagicBytes : bytes -> result (bytes * KeyType)
}.

Section DID.

Context {uint8arrays : Uint8arrays} {util : DidUtil}.

(** [s.substr(n)] *)
Fixpoint substr (n : nat) (s : string) : string :=
  match n, s with
  | O, _ => s
  | S n, String _ rest => substr n rest
  | S _, EmptyString => EmptyString
  end.

(** [s.startsWith(p)] *)
Definition startsWith (s p : string) : bool := String.prefix p s.

Definition publicKeyToDid (publicKey : string) (type : KeyType)
  : result string :=
  pubKeyBuf <- fromString_base64 publicKey ;;
  match magicBytes type with
  | None => Throw (Error ("Key type '" ++ type ++ "' not supported"))
  | Some prefix =>
      let prefixedBuf := (prefix ++ pubKeyBuf)%list in
      Ok (BASE58_DID_PREFIX ++ toString_base58btc prefixedBuf)
  end.

Definition didToPublicKey (did : string) : result (string * KeyType) :=
  if negb (startsWith did BASE58_DID_PREFIX) then
    Throw (Error "Please use a base58-encoded DID formatted `did:key:z...`")
  else
    let didWithoutPrefix := substr (String.length BASE58_DID_PREFIX) did in
    magicalBuf <- fromString_base58btc didWithoutPrefix ;;
    parsed <- parseMagicBytes magicalBuf ;;
    let '(keyBuffer, type) := parsed in
    Ok (toString_base64pad keyBuffer, type).

End DID.

(** ** Reference implementations of the collaborators

    Executable models of the packages and modules the file imports, used
    to run the functions above on concrete tokens and identifiers. *)

(** *** RFC 4648 base64, as the [uint8arrays] codecs implement it *)

Module RFC4648.

(** Six bits, most significant first. *)
Inductive sextet : Type :=
| Sextet (b5 b4 b3 b2 b1 b0 : bool).

Definition alphabet : string :=
  "ABCDEFGHIJKLMNOPQRSTUVWXYZabcdefghijklmnopqrstuvwxyz0123456789+/".

Definition sextet_index (s : sextet) : nat :=
  let 'Sextet b5 b4 b3 b2 b1 b0 := s in
  nat_of_ascii (Ascii b0 b1 b2 b3 b4 b5 false false).

Definition char_of_sextet (s : sextet) : ascii :=
  match String.get (sextet_index s) alphabet with
  | Some c => c
  | None => "="%char
  end.

Fixpoint index_of (c : ascii) (s : string) : option nat :=
  match s with
  | EmptyString => None
  | String c' rest =>
      if Ascii.eqb c c' then Some O else option_map S (index_of c rest)
  end.

Definition sextet_of_char (c : ascii) : option sextet :=
  match index_of c alphabet with
  | Some i =>
      let 'Ascii b0 b1 b2 b3 b4 b5 _ _ := ascii_of_nat i in
      Some (Sextet b5 b4 b3 b2 b1 b0)
  | None => None
  end.

(** The encoder: three bytes give four characters; one or two trailing
    bytes give two or three, completed with [=] when [pad] is set. *)
Fixpoint encode (pad : bool) (data : bytes) : string :=
  match data with
  | [] => ""
  | [Ascii a0 a1 a2 a3 a4 a5 a6 a7] =>
      String (char_of_sextet (Sextet a7 a6 a5 a4 a3 a2))
     (String (char_of_sextet (Sextet a1 a0 false false false false))
             (if pad then "==" else ""))
  | [Ascii a0 a1 a2 a3 a4 a5 a6 a7; Ascii b0 b1 b2 b3 b4 b5 b6 b7] =>
      String (char_of_sextet (Sextet a7 a6 a5 a4 a3 a2))
     (String (char_of_sextet (Sextet a1 a0 b7 b6 b5 b4))
     (String (char_of_sextet (Sextet b3 b2 b1 b0 false false))
             (if pad then "=" else "")))
  | Ascii a0 a1 a2 a3 a4 a5 a6 a7 :: Ascii b0 b1 b2 b3 b4 b5 b6 b7
    :: Ascii c0 c1 c2 c3 c4 c5 c6 c7 :: rest =>
      String (char_of_sextet (Sextet a7 a6 a5 a4 a3 a2))
     (String (char_of_sextet (Sextet a1 a0 b7 b6 b5 b4))
     (String (char_of_sextet (Sextet b3 b2 b1 b0 c7 c6))
     (String (char_of_sextet (Sextet c5 c4 c3 c2 c1 c0))
             (encode pad rest))))
  end.

(** The decoder drops every trailing [=], refuses a character outside
    the alphabet, and refuses left-over bits that are not zero. *)
Fixpoint strip_padding (s : string) : string :=
  match s with
  | EmptyString => EmptyString
  | String c rest =>
      match strip_padding rest with
      | EmptyString => if Ascii.eqb c "=" then EmptyString
                       else String c EmptyString
      | kept => String c kept
      end
  end.

Fixpoint sextets (s : string) : option (list sextet) :=
  match s with
  | EmptyString => Some []
  | String c rest =>
      match sextet_of_char c, sextets rest with
      | Some x, Some xs => Some (x :: xs)
      | _, _ => None
      end
  end.

Fixpoint decode_sextets (l : list sextet) : option bytes :=
  match l with
  | [] => Some []
  | [_] => None
  | [Sextet a7 a6 a5 a4 a3 a2; Sextet a1 a0 z3 z2 z1 z0] =>
      if z3 || z2 || z1 || z0 then None
      else Some [Ascii a0 a1 a2 a3 a4 a5 a6 a7]
  | [Sextet a7 a6 a5 a4 a3 a2; Sextet a1 a0 b7 b6 b5 b4;
     Sextet b3 b2 b1 b0 z1 z0] =>
      if z1 || z0 then None
      else Some [Ascii a0 a1 a2 a3 a4 a5 a6 a7;
                 Ascii b0 b1 b2 b3 b4 b5 b6 b7]
  | Sextet a7 a6 a5 a4 a3 a2 :: Sextet a1 a0 b7 b6 b5 b4
    :: Sextet b3 b2 b1 b0 c7 c6 :: Sextet c5 c4 c3 c2 c1 c0 :: rest =>
      match decode_sextets rest with
      | Some out => Some (Ascii a0 a1 a2 a3 a4 a5 a6 a7
                          :: Ascii b0 b1 b2 b3 b4 b5 b6 b7
                          :: Ascii c0 c1 c2 c3 c4 c5 c6 c7 :: out)
      | None => None
      end
  end.

Definition decode (s : string) : result bytes :=
  match sextets (strip_padding s) with
  | Some l =>
      match decode_sextets l with
      | Some out => Ok out
      | None => Throw SyntaxError
      end
  | None => Throw SyntaxError
  end.

End RFC4648.

(** *** base58btc *)

Module Base58.

Definition alphabet : string :=
  "123456789ABCDEFGHJKLMNPQRSTUVWXYZabcdefghijkmnopqrstuvwxyz".

Definition char_of_digit (d : N) : ascii :=
  match String.get (N.to_nat d) alphabet with
  | Some c => c
  | None => "1"%char
  end.

Definition digit_of_char (c : ascii) : option N :=
  option_map N.of_nat (RFC4648.index_of c alphabet).

Fixpoint digits_of_string (s : string) : option (list N) :=
  match s with
  | EmptyString => Some []
  | String c rest =>
      match digit_of_char c, digits_of_string rest with
      | Some d, Some ds => Some (d :: ds)
      | _, _ => None
      end
  end.

(** The leading zeros of a list of digits, and what follows them. *)
Fixpoint leading_zeros (l : list N) : nat :=
  match l with
  | d :: rest => if N.eqb d 0 then S (leading_zeros rest) else O
  | [] => O
  end.

(** The leading zero bytes are kept one for one as leading [1]s; the
    rest is the number the bytes spell, written in base 58. *)
Definition encode (data : bytes) : string :=
  let ds := map N_of_ascii data in
  string_of_list_ascii
    (map char_of_digit
       (repeat 0%N (leading_zeros ds) ++ to_digits 58 (of_digits 256 ds))%list).

(** A byte of a character below U+0100: an ASCII character, or the
    first byte of a character of two bytes from U+0080 to U+00FF. *)
Definition below_U0100 (c : ascii) : bool :=
  let n := N_of_ascii c in
  (n <? 128)%N || ((192 <=? n)%N && (n <? 196)%N).

(** A character below U+0100 that is not in the alphabet is refused.  A
    text that has none of them but has a character above U+00FF is read
    in one way or another by the versions of the library, and is not
    followed. *)
Definition decode (s : string) : result bytes :=
  match digits_of_string s with
  | Some ds =>
      Ok (map ascii_of_N
            (repeat 0%N (leading_zeros ds)
             ++ to_digits 256 (of_digits 58 ds))%list)
  | None =>
      if existsb
           (fun c => match digit_of_char c with
                     | Some _ => false
                     | None => below_U0100 c
                     end)
           (list_ascii_of_string s)
      then Throw (Error "Non-base58btc character")
      else Throw Unmodelled
  end.

End Base58.

#[export] Instance uint8arrays_reference : Uint8arrays := {|
  fromString_base64 := RFC4648.decode;
  toString_base64pad := RFC4648.encode true;
  fromString_base58btc := Base58.decode;
  toString_base58btc := Base58.encode
|}.

(** *** The [base64] module of [../common/index.js]

    Modelled from the spec: "[signature] is the base64url encoding of raw
    signature bytes (unpadded, URL-safe alphabet; encode/decode of the
    [+/] to [-_] substitution and padding strip/restore must be exactly
    invertible)". *)

Module CommonBase64.

Fixpoint replace (from to : ascii) (s : string) : string :=
  match s with
  | EmptyString => EmptyString
  | String c rest =>
      String (if Ascii.eqb c from then to else c) (replace from to rest)
  end.

Definition makeUrlSafe (a : string) : string :=
  RFC4648.strip_padding (replace "+" "-" (replace "/" "_" a)).

Definition makeUrlUnsafe (a : string) : string :=
  replace "-" "+" (replace "_" "/" a).

Definition encode (str : string) : string :=
  RFC4648.encode true (list_ascii_of_string str).

Definition decode (b64 : string) : result string :=
  data <- RFC4648.decode b64 ;; Ok (string_of_list_ascii data).

Definition urlEncode (str : string) : string := makeUrlSafe (encode str).

Definition urlDecode (b64 : string) : result string :=
  decode (makeUrlUnsafe b64).

End CommonBase64.

#[export] Instance base64_reference : Base64 := {|
  urlEncode := CommonBase64.urlEncode;
  urlDecode := CommonBase64.urlDecode;
  makeUrlSafe := CommonBase64.makeUrlSafe;
  makeUrlUnsafe := CommonBase64.makeUrlUnsafe
|}.

(** *** JSON

    [JSON.stringify] without indentation and [JSON.parse] on the texts
    whose numbers are integer literals and whose [\u] escapes stay below
    U+0080; any other text is refused. *)

Module RefJSON.

(** The double quote, U+0022. *)
Definition dquote : ascii :=
  Ascii false true false false false true false false.

Definition hex_char (d : N) : ascii :=
  if N.ltb d 10 then ascii_of_N (48 + d) else ascii_of_N (87 + d).

Definition hex_value (c : ascii) : option N :=
  let n := N_of_ascii c in
  if N.leb 48 n && N.leb n 57 then Some (n - 48)%N
  else if N.leb 97 n && N.leb n 102 then Some (n - 87)%N
  else if N.leb 65 n && N.leb n 70 then Some (n - 55)%N
  else None.

(** One character of a string literal, as [JSON.stringify] writes it. *)
Definition escape (c : ascii) : string :=
  let n := N_of_ascii c in
  if Ascii.eqb c dquote then (String "\" (String dquote ""))
  else if Ascii.eqb c "\" then "\\"
  else if N.eqb n 8 then "\b"
  else if N.eqb n 12 then "\f"
  else if N.eqb n 10 then "\n"
  else if N.eqb n 13 then "\r"
  else if N.eqb n 9 then "\t"
  else if N.ltb n 32 then
    String "\" (String "u" (String "0" (String "0"
      (String (hex_char (n / 16)) (String (hex_char (n mod 16)) "")))))
  else String c "".

Fixpoint escape_all (s : string) : string :=
  match s with
  | EmptyString => EmptyString
  | String c rest => escape c ++ escape_all rest
  end.

Definition quote (s : string) : string :=
  String dquote (escape_all s ++ String dquote "").

Fixpoint stringify (v : json) : string :=
  match v with
  | JNull => "null"
  | JBool true => "true"
  | JBool false => "false"
  | JNum n => string_of_Z n
  | JStr s => quote s
  | JArr items => "[" ++ String.concat "," (map stringify items) ++ "]"
  | JObj fields =>
      "{" ++ String.concat ","
               (map (fun kv => quote (fst kv) ++ ":" ++ stringify (snd kv))
                    fields)
          ++ "}"
  end.

Definition is_ws (c : ascii) : bool :=
  let n := N_of_ascii c in
  N.eqb n 32 || N.eqb n 9 || N.eqb n 10 || N.eqb n 13.

Fixpoint skip_ws (s : string) : string :=
  match s with
  | EmptyString => EmptyString
  | String c rest => if is_ws c then skip_ws rest else s
  end.

Definition is_digit (c : ascii) : bool :=
  let n := N_of_ascii c in N.leb 48 n && N.leb n 57.

(** The character after a backslash, for the one-letter escapes. *)
Definition unescape (e : ascii) : option ascii :=
  if Ascii.eqb e dquote then Some dquote
  else if Ascii.eqb e "\" then Some "\"%char
  else if Ascii.eqb e "/" then Some "/"%char
  else if Ascii.eqb e "b" then Some (ascii_of_N 8)
  else if Ascii.eqb e "f" then Some (ascii_of_N 12)
  else if Ascii.eqb e "n" then Some (ascii_of_N 10)
  else if Ascii.eqb e "r" then Some (ascii_of_N 13)
  else if Ascii.eqb e "t" then Some (ascii_of_N 9)
  else None.

Definition hex4 (h1 h2 h3 h4 : ascii) : option N :=
  match hex_value h1, hex_value h2, hex_value h3, hex_value h4 with
  | Some a, Some b, Some c, Some d => Some (((a * 16 + b) * 16 + c) * 16 + d)%N
  | _, _, _, _ => None
  end.

(** A string literal after its opening quote: its value and what follows
    the closing quote. *)
Fixpoint parse_chars (s : string) : option (string * string) :=
  match s with
  | EmptyString => None
  | String c rest =>
      if Ascii.eqb c dquote then Some (EmptyString, rest)
      else if Ascii.eqb c "\" then
        match rest with
        | String e rest1 =>
            match unescape e with
            | Some ch =>
                match parse_chars rest1 with
                | Some (str, r) => Some (String ch str, r)
                | None => None
                end
            | None =>
                if Ascii.eqb e "u" then
                  match rest1 with
                  | String h1 (String h2 (String h3 (String h4 rest2))) =>
                      match hex4 h1 h2 h3 h4 with
                      | Some n =>
                          if N.ltb n 128 then
                            match parse_chars rest2 with
                            | Some (str, r) => Some (String (ascii_of_N n) str, r)
                            | None => None
                            end
                          else None
                      | None => None
                      end
                  | _ => None
                  end
                else None
            end
        | EmptyString => None
        end
      else if N.ltb (N_of_ascii c) 32 then None
      else
        match parse_chars rest with
        | Some (str, r) => Some (String c str, r)
        | None => None
        end
  end.

(** A run of decimal digits, accumulated from the left. *)
Fixpoint parse_digits (s : string) (acc : N) : N * string :=
  match s with
  | EmptyString => (acc, EmptyString)
  | String c rest =>
      if is_digit c then parse_digits rest (acc * 10 + (N_of_ascii c - 48))%N
      else (acc, s)
  end.

(** After the integer part no fraction and no exponent is accepted. *)
Definition integer_ends (s : string) : bool :=
  match s with
  | String c _ => negb (Ascii.eqb c "." || Ascii.eqb c "e" || Ascii.eqb c "E")
  | EmptyString => true
  end.

Definition parse_natural (s : string) : option (N * string) :=
  match s with
  | String c rest =>
      if Ascii.eqb c "0" then
        if integer_ends rest then Some (0%N, rest) else None
      else if is_digit c then
        let '(n, r) := parse_digits s 0%N in
        if integer_ends r then Some (n, r) else None
      else None
  | EmptyString => None
  end.

Definition parse_number (s : string) : option (Z * string) :=
  match s with
  | String c rest =>
      if Ascii.eqb c "-" then
        match parse_natural rest with
        | Some (n, r) => Some (Z.opp (Z.of_N n), r)
        | None => None
        end
      else
        match parse_natural s with
        | Some (n, r) => Some (Z.of_N n, r)
        | None => None
        end
  | EmptyString => None
  end.

(** [s] without the prefix [p], when it starts with it. *)
Fixpoint strip_prefix (p s : string) : option string :=
  match p, s with
  | EmptyString, _ => Some s
  | String a p', String b s' =>
      if Ascii.eqb a b then strip_prefix p' s' else None
  | String _ _, EmptyString => None
  end.

Definition literal (name : string) (v : json) (s : string)
  : option (json * string) :=
  match strip_prefix name s with
  | Some r => Some (v, r)
  | None => None
  end.

Fixpoint parse_value (fuel : nat) (s : string) : option (json * string) :=
  match fuel with
  | O => None
  | S fuel =>
      match skip_ws s with
      | EmptyString => None
      | String c r =>
          if Ascii.eqb c "n" then literal "ull" JNull r
          else if Ascii.eqb c "t" then literal "rue" (JBool true) r
          else if Ascii.eqb c "f" then literal "alse" (JBool false) r
          else if Ascii.eqb c dquote then
            match parse_chars r with
            | Some (str, r') => Some (JStr str, r')
            | None => None
            end
          else if Ascii.eqb c "[" then
            match strip_prefix "]" (skip_ws r) with
            | Some r' => Some (JArr [], r')
            | None =>
                match parse_items fuel r with
                | Some (items, r') => Some (JArr items, r')
                | None => None
                end
            end
          else if Ascii.eqb c "{" then
            match strip_prefix "}" (skip_ws r) with
            | Some r' => Some (JObj [], r')
            | None =>
                match parse_members fuel r with
                | Some (fields, r') => Some (JObj fields, r')
                | None => None
                end
            end
          else
            match parse_number (String c r) with
            | Some (n, r') => Some (JNum n, r')
            | None => None
            end
      end
  end

with parse_items (fuel : nat) (s : string) : option (list json * string) :=
  match fuel with
  | O => None
  | S fuel =>
      match parse_value fuel s with
      | Some (v, r) =>
          match skip_ws r with
          | EmptyString => None
          | String c r' =>
              if Ascii.eqb c "," then
                match parse_items fuel r' with
                | Some (vs, r'') => Some (v :: vs, r'')
                | None => None
                end
              else if Ascii.eqb c "]" then Some ([v], r')
              else None
          end
      | None => None
      end
  end

with parse_members (fuel : nat) (s : string)
  : option (list (string * json) * string) :=
  match fuel with
  | O => None
  | S fuel =>
      match strip_prefix (String dquote "") (skip_ws s) with
      | Some r =>
          match parse_chars r with
          | Some (k, r1) =>
              match strip_prefix ":" (skip_ws r1) with
              | Some r2 =>
                  match parse_value fuel r2 with
                  | Some (v, r3) =>
                      match skip_ws r3 with
                      | EmptyString => None
                      | String c r4 =>
                          if Ascii.eqb c "," then
                            match parse_members fuel r4 with
                            | Some (kvs, r5) => Some ((k, v) :: kvs, r5)
                            | None => None
                            end
                          else if Ascii.eqb c "}" then Some ([(k, v)], r4)
                          else None
                      end
                  | None => None
                  end
              | None => None
              end
          | None => None
          end
      | None => None
      end
  end.

(** A text nests no deeper than it is long, so this budget is never the
    reason for a refusal. *)
Definition parse (text : string) : result json :=
  match parse_value (2 * String.length text + 2) text with
  | Some (v, r) =>
      match skip_ws r with
      | EmptyString => Ok v
      | _ => Throw SyntaxError
      end
  | None => Throw SyntaxError
  end.

End RefJSON.

#[export] Instance JSON_reference : JSON := {|
  JSON_parse := RefJSON.parse;
  JSON_stringify := RefJSON.stringify
|}.

(** *** The did:key registry

    Modelled from the spec: "the prefix-byte table is a fixed registry
    keyed by algorithm tag, and decode must match the unique registered
    prefix present", with the multicodec prefixes of the did:key method
    for RSA, Ed25519 and BLS12-381 keys. *)

Module DidRegistry.

Definition RSA_DID_PREFIX : bytes := map ascii_of_N [0; 245; 2]%N.
Definition EDWARDS_DID_PREFIX : bytes := map ascii_of_N [237; 1]%N.
Definition BLS_DID_PREFIX : bytes := map ascii_of_N [234; 1]%N.

Definition magicBytes (keyType : KeyType) : option bytes :=
  if String.eqb keyType "ed25519" then Some EDWARDS_DID_PREFIX
  else if String.eqb keyType "rsa" then Some RSA_DID_PREFIX
  else if String.eqb keyType "bls12-381" then Some BLS_DID_PREFIX
  else None.

Fixpoint hasPrefix (prefixedKey prefix : bytes) {struct prefix} : bool :=
  match prefix, prefixedKey with
  | [], _ => true
  | p :: ps, k :: ks => Ascii.eqb p k && hasPrefix ks ps
  | _ :: _, [] => false
  end.

Definition parseMagicBytes (prefixedKey : bytes) : result (bytes * KeyType) :=
  if hasPrefix prefixedKey RSA_DID_PREFIX then
    Ok (skipn (length RSA_DID_PREFIX) prefixedKey, "rsa")
  else if hasPrefix prefixedKey EDWARDS_DID_PREFIX then
    Ok (skipn (length EDWARDS_DID_PREFIX) prefixedKey, "ed25519")
  else if hasPrefix prefixedKey BLS_DID_PREFIX then
    Ok (skipn (length BLS_DID_PREFIX) prefixedKey, "bls12-381")
  else Throw (Error "Unsupported key algorithm. Try using RSA.").

End DidRegistry.

#[export] Instance util_reference : DidUtil := {|
  BASE58_DID_PREFIX := "did:key:z";
  magicBytes := DidRegistry.magicBytes;
  parseMagicBytes := DidRegistry.parseMagicBytes
|}.

(** *** A keystore and a verifier to run the functions with

    Stand-ins without secrecy: the signature of a message is the unpadded
    base64 form of a checksum of its bytes, and a signature verifies when
    it is that of the data and the issuer is a string. *)

Module Example.

Definition checksum (msg : string) : N :=
  fold_left (fun acc c => (acc * 31 + N_of_ascii c) mod 4294967296)%N
            (list_ascii_of_string msg) 7%N.

Definition keystore_sign (msg : string) : string :=
  RFC4648.encode false (list_ascii_of_string (string_of_N (checksum msg))).

Definition verifySignedData (data : string) (did : jsval) (signature : string)
  : bool :=
  match did with
  | Some (JStr _) => String.eqb signature (keystore_sign data)
  | _ => false
  end.

Definition did_ucan : string :=
  "did:key:z6MkgYGF3thn8k1Fv4p4dWXKtsXCnLH7q9yw4QgNPULDmDKB".

End Example.

#[export] Instance validation_example : Validation := {|
  verifySignedData := Example.verifySignedData
|}.

#[export] Instance platform_example : Platform := {|
  Date_now := 1700000000123;
  keystore_getAlg := "ed25519";
  keystore_sign := Example.keystore_sign;
  did_ucan := Example.did_ucan
|}.

(** *** Example tokens: a delegation from a root authority to Alice, from
    Alice to Bob and from Bob to Carol, built and signed with the
    stand-in keystore. *)

Module Tokens.

Definition params (audience : string) (issuer : option string)
  (proof : option string) : BuildParams :=
  {| addSignature := None; audience := audience; facts := None;
     issuer := issuer; lifetimeInSeconds := None; expiration := None;
     potency := None; proof := proof; resource := None |}.

Definition built (r : result Ucan) : string :=
  match r with Ok u => encode u | Throw _ => "" end.

Definition root_params : BuildParams :=
  {| addSignature := None; audience := "did:key:zAlice"; facts := None;
     issuer := None; lifetimeInSeconds := Some 3600%Z; expiration := None;
     potency := None; proof := None; resource := None |}.

Definition root : string := Eval vm_compute in built (build root_params).

Definition alice_to_bob : string :=
  Eval vm_compute in
    built (build (params "did:key:zBob" (Some "did:key:zAlice") (Some root))).

Definition bob_to_carol : string :=
  Eval vm_compute in
    built (build (params "did:key:zCarol" (Some "did:key:zBob")
                         (Some alice_to_bob))).

(** The decoded form of a token. *)
Definition decoded (s : string) : Ucan :=
  match decode s with
  | Ok u => u
  | Throw _ => {| header := JNull; payload := JNull; signature := None |}
  end.

Definition carol : Ucan := Eval vm_compute in decoded bob_to_carol.

(** A delegation of the root token that asks for the expiry [0]. *)
Definition zero_expiration_params : BuildParams :=
  {| addSignature := None; audience := "did:key:zBob"; facts := None;
     issuer := Some "did:key:zAlice"; lifetimeInSeconds := None;
     expiration := Some 0%Z; potency := None; proof := Some root;
     resource := None |}.

Definition alice_zero : string :=
  Eval vm_compute in built (build zero_expiration_params).

(** A token that asks for the expiry [1], long before its not-before
    time. *)
Definition early_expiration_params : BuildParams :=
  {| addSignature := None; audience := "did:key:zAlice"; facts := None;
     issuer := None; lifetimeInSeconds := None; expiration := Some 1%Z;
     potency := None; proof := None; resource := None |}.

Definition alice_early : string :=
  Eval vm_compute in built (build early_expiration_params).

(** A token that is left unsigned. *)
Definition unsigned_params : BuildParams :=
  {| addSignature := Some false; audience := "did:key:zAlice"; facts := None;
     issuer := None; lifetimeInSeconds := None; expiration := None;
     potency := None; proof := None; resource := None |}.

Definition unsigned : Ucan :=
  Eval vm_compute in
    match build unsigned_params with
    | Ok u => u
    | Throw _ => {| header := JNull; payload := JNull; signature := None |}
    end.



(** The root token with one segment more, and with its signature segment
    cut off. *)
Definition four_segments : string := root ++ ".extra".

Definition two_segments : string :=
  Eval vm_compute in
    String.concat "."
      (firstn 2 (split "." root)).

(** An Ed25519 public key: 32 bytes, and their padded base64 form. *)
Definition key_base64pad : string :=
  "Hv+AVRD2WUjUFOsSNbsmrp9fokuwrUnjBcr92f0kxw4=".

Definition key_bytes : bytes :=
  Eval vm_compute in
    match RFC4648.decode key_base64pad with Ok b => b | Throw _ => [] end.

End Tokens.

(** ** Tokens for the time window *)

Module Windows.

(** A proof whose header and payload are the empty object: it has no
    window. *)
Definition no_window : string := "e30.e30.c2ln".

Definition on_no_window : BuildParams :=
  Tokens.params "did:key:zBob" (Some "did:key:zAlice") (Some no_window).

(** A token that expires at [2 ^ 54]. *)
Definition far_future_params : BuildParams :=
  {| addSignature := None; audience := "did:key:zAlice"; facts := None;
     issuer := None; lifetimeInSeconds := None;
     expiration := Some (2 ^ 54)%Z; potency := None; proof := None;
     resource := None |}.

Definition far_future : string :=
  Eval vm_compute in Tokens.built (build far_future_params).

(** A delegation of it for the longest lifetime that is a safe integer:
    the sum with the time is not one. *)
Definition longest_params : BuildParams :=
  {| addSignature := None; audience := "did:key:zBob"; facts := None;
     issuer := Some "did:key:zAlice";
     lifetimeInSeconds := Some (2 ^ 53 - 1)%Z; expiration := None;
     potency := None; proof := Some far_future; resource := None |}.

(** A proof that has its [exp] as a text and [null] for its [nbf]. *)
Definition text_window : string :=
  Eval vm_compute in
    encode {| header := JObj [("alg", JStr "EdDSA"); ("typ", JStr "JWT");
                              ("uav", JStr "1.0.0")];
              payload := JObj [("aud", JStr "did:key:zAlice");
                               ("exp", JStr "1700003600");
                               ("iss", JStr Example.did_ucan);
                               ("nbf", JNull); ("prf", JNull);
                               ("ptc", JStr "APPEND"); ("rsc", JStr "*")];
              signature := Some "c2ln" |}.

Definition on_text_window : BuildParams :=
  Tokens.params "did:key:zBob" (Some "did:key:zAlice") (Some text_window).

End Windows.

(** * Specification vocabulary *)

Fixpoint no_dot (s : string) : bool :=
  match s with
  | EmptyString => true
  | String c rest => negb (Ascii.eqb c ".") && no_dot rest
  end.

Section Vocabulary.

Context {base64 : Base64} {JSON_ : JSON} {validation : Validation}
        {platform : Platform}.

(** The expiry a call asks for, before the proof narrows it:
    [expiration || (currentTimeInSeconds + lifetimeInSeconds)], the sum
    being the double nearest to the exact one. *)
Definition requested_exp (params : BuildParams) : Z :=
  let fallback :=
    round53
      (currentTimeInSeconds + default 30%Z (lifetimeInSeconds params)) in
  match expiration params with
  | Some e => if Z.eqb e 0 then fallback else e
  | None => fallback
  end.

Definition requested_nbf : Z := round53 (currentTimeInSeconds - 60).

(** The integers of the magnitude of a double that is not infinite, and
    those that every double up to them is: the safe integers. *)
Definition finite_double (z : Z) : Prop := (Z.abs z < 2 ^ 1024)%Z.

Definition safe_integer (z : Z) : Prop := (Z.abs z < 2 ^ 53)%Z.

(** The string a token's signature signs. *)
Definition signing_input (u : Ucan) : string :=
  encodeHeader (header u) ++ "." ++ encodePayload (payload u).

(** The signature of [u] verifies against the key of its issuer. *)
Definition signature_verifies (u : Ucan) : Prop :=
  exists iss,
    get "iss" (payload u) = Ok iss /\
    verifySignedData (signing_input u) iss
      (makeUrlUnsafe (or_string (signature u) "")) = true.

Definition no_proof (u : Ucan) : Prop :=
  exists prf, get "prf" (payload u) = Ok prf /\ truthy prf = false.

(** [prf] is the decoded proof of [u]. *)
Definition proof_of (u prf : Ucan) : Prop :=
  exists p,
    get "prf" (payload u) = Ok (Some p) /\ truthy (Some p) = true /\
    decode_value p = Ok prf.

(** The audience of the proof is the issuer of the token it proves. *)
Definition continuous (child prf : Ucan) : Prop :=
  exists aud iss,
    get "aud" (payload prf) = Ok aud /\
    get "iss" (payload child) = Ok iss /\
    strict_eq aud iss = true.

(** The tokens met by following the proofs from [u] down to a token
    without proof. *)
Inductive proof_chain : Ucan -> list Ucan -> Prop :=
| chain_end u : no_proof u -> proof_chain u [u]
| chain_link u prf chain :
    proof_of u prf -> proof_chain prf chain -> proof_chain u (u :: chain).

Fixpoint links_continuous (chain : list Ucan) : Prop :=
  match chain with
  | child :: rest =>
      match rest with
      | prf :: _ => continuous child prf /\ links_continuous rest
      | [] => True
      end
  | [] => True
  end.

(** Following [d] proofs from the encoded token [ucan] leads to the
    encoded token [x]. *)
Inductive descends : json -> nat -> json -> Prop :=
| descends_here ucan : descends ucan 0 ucan
| descends_link ucan p next d x :
    extractPayload ucan 0 = Ok p ->
    get "prf" p = Ok (Some next) -> truthy (Some next) = true ->
    descends next d x ->
    descends ucan (S d) x.

(** The payload of [x] parses to [p], which carries no proof. *)
Definition deepest_payload (x p : json) : Prop :=
  extractPayload x 0 = Ok p /\
  exists prf, get "prf" p = Ok prf /\ truthy prf = false.


(** [JSON.parse(base64.urlDecode(segment))] *)
Definition parse_segment (segment : string) : result json :=
  text <- urlDecode segment ;; JSON_parse text.

(** The length of the proof string a payload carries. *)
Definition proof_length (u : Ucan) : nat :=
  match get "prf" (payload u) with
  | Ok (Some (JStr p)) => String.length p
  | _ => 0
  end.

End Vocabulary.

(** ** What the collaborators guarantee *)

(** Encoding then decoding gives the text back, and an encoded text has
    no dot. *)
Class Base64Laws {base64 : Base64} : Prop := {
  urlDecode_urlEncode : forall s, urlDecode (urlEncode s) = Ok s;
  urlEncode_no_dot : forall s, no_dot (urlEncode s) = true
}.

(** Parsing what was serialised gives the value back. *)
Class JSONLaws {JSON_ : JSON} : Prop := {
  parse_stringify : forall v, JSON_parse (JSON_stringify v) = Ok v
}.

(** Decoding does not lengthen, and a string inside a parsed object is
    shorter than the text it was parsed from. *)
Class LengthLaws {base64 : Base64} {JSON_ : JSON} : Prop := {
  urlDecode_length :
    forall s t, urlDecode s = Ok t -> String.length t <= String.length s;
  parse_field_length :
    forall t fields k p,
      JSON_parse t = Ok (JObj fields) -> lookup k fields = Some (JStr p) ->
      String.length p < String.length t
}.

(** ** Base64 by groups *)

(** The sextets of a byte sequence and the padding that completes them. *)
Fixpoint to_sextets (data : bytes) : list RFC4648.sextet :=
  match data with
  | [] => []
  | [Ascii a0 a1 a2 a3 a4 a5 a6 a7] =>
      [RFC4648.Sextet a7 a6 a5 a4 a3 a2;
       RFC4648.Sextet a1 a0 false false false false]
  | [Ascii a0 a1 a2 a3 a4 a5 a6 a7; Ascii b0 b1 b2 b3 b4 b5 b6 b7] =>
      [RFC4648.Sextet a7 a6 a5 a4 a3 a2;
       RFC4648.Sextet a1 a0 b7 b6 b5 b4;
       RFC4648.Sextet b3 b2 b1 b0 false false]
  | Ascii a0 a1 a2 a3 a4 a5 a6 a7 :: Ascii b0 b1 b2 b3 b4 b5 b6 b7
    :: Ascii c0 c1 c2 c3 c4 c5 c6 c7 :: rest =>
      RFC4648.Sextet a7 a6 a5 a4 a3 a2
      :: RFC4648.Sextet a1 a0 b7 b6 b5 b4
      :: RFC4648.Sextet b3 b2 b1 b0 c7 c6
      :: RFC4648.Sextet c5 c4 c3 c2 c1 c0
      :: to_sextets rest
  end.

Fixpoint padding (data : bytes) : string :=
  match data with
  | [] => ""
  | [_] => "=="
  | [_; _] => "="
  | _ :: _ :: _ :: rest => padding rest
  end.

Definition chars_of_sextets (l : list RFC4648.sextet) : string :=
  string_of_list_ascii (map RFC4648.char_of_sextet l).

(** A character of the URL-safe alphabet. *)
Definition url_char (x : RFC4648.sextet) : ascii :=
  let c := RFC4648.char_of_sextet x in
  if Ascii.eqb c "+" then "-"%char
  else if Ascii.eqb c "/" then "_"%char else c.

(** ** Measures on parsed values *)

(** A lower bound on the length of any text a value is parsed from:
    its strings, with their quotes. *)
Fixpoint weight (v : json) : nat :=
  match v with
  | JStr s => String.length s + 2
  | JArr items => list_sum (map weight items)
  | JObj fields => list_sum (map (fun kv => weight (snd kv)) fields)
  | _ => 0
  end.

(** A recursion budget that is enough to parse a value back. *)
Fixpoint budget (v : json) : nat :=
  match v with
  | JArr items => S (list_sum (map (fun x => S (budget x)) items))
  | JObj fields => S (list_sum (map (fun kv => S (budget (snd kv))) fields))
  | _ => 1
  end.

(** What may follow a value in a serialised text. *)
Definition delimited (rest : string) : bool :=
  match rest with
  | EmptyString => true
  | String c _ => Ascii.eqb c "," || Ascii.eqb c "]" || Ascii.eqb c "}"
  end.

(** The reference parser reads [v] back from its serialisation, whatever
    delimiter follows. *)
Definition parses_back (v : json) : Prop :=
  forall fuel rest,
    budget v <= fuel -> delimited rest = true ->
    RefJSON.parse_value fuel (RefJSON.stringify v ++ rest) = Some (v, rest).

(** One member of a serialised object. *)
Definition member_text (kv : string * json) : string :=
  RefJSON.quote (fst kv) ++ ":" ++ RefJSON.stringify (snd kv).

(** ** What the did:key collaborators guarantee *)

(** Each codec reads what it wrote; the base64 reader also accepts the
    padded form. *)
Class Uint8arraysLaws {uint8arrays : Uint8arrays} : Prop := {
  base64_fromString_toString :
    forall b, fromString_base64 (toString_base64pad b) = Ok b;
  base58btc_fromString_toString :
    forall b, fromString_base58btc (toString_base58btc b) = Ok b
}.

(** A registered prefix is recognised in front of any key. *)
Class DidUtilLaws {util : DidUtil} : Prop := {
  parseMagicBytes_magicBytes :
    forall type prefix key,
      magicBytes type = Some prefix ->
      parseMagicBytes (prefix ++ key)%list = Ok (key, type)
}.

(** ** A chain of any depth

    A self-delegation repeated [depth] times, each token signed with the
    stand-in keystore and carrying the previous one as its proof. *)

Module Deep.

Definition who : string := "did:key:zBob".

Definition link_header : json :=
  JObj [("alg", JStr "EdDSA"); ("typ", JStr "JWT"); ("uav", JStr "1.0.0")].

Definition link_payload (proof : option string) : json :=
  JObj [("aud", JStr who); ("exp", JNum 1700000030); ("fct", JArr []);
        ("iss", JStr who); ("nbf", JNum 1699999940);
        ("prf", match proof with Some p => JStr p | None => JNull end);
        ("ptc", JStr "APPEND"); ("rsc", JStr "*")].

Definition link (proof : option string) : Ucan :=
  {| header := link_header;
     payload := link_payload proof;
     signature := Some (sign link_header (link_payload proof)) |}.

Fixpoint chain (depth : nat) : Ucan :=
  match depth with
  | O => link None
  | S depth => link (Some (encode (chain depth)))
  end.

End Deep.

(** ** Vocabulary for the outcomes of validation *)

Section Outcomes.

Context {base64 : Base64} {JSON_ : JSON} {validation : Validation}
        {platform : Platform}.

(** The third segment [encode] writes. *)
Definition signature_text (u : Ucan) : string :=
  match signature u with Some s => s | None => "null" end.

(** [v] is reached from [u] through [k] links that are in order: every
    token before [v] has a signature that verifies and a proof that
    decodes and whose audience is the token's issuer. *)
Inductive reaches : Ucan -> nat -> Ucan -> Prop :=
| reaches_here u : reaches u 0 u
| reaches_link u prf k v :
    signature_verifies u -> proof_of u prf -> continuous u prf ->
    reaches prf k v ->
    reaches u (S k) v.

(** The signature of [v] does not verify. *)
Definition signature_fails (v : Ucan) : Prop :=
  exists iss,
    get "iss" (payload v) = Ok iss /\
    verifySignedData (signing_input v) iss
      (makeUrlUnsafe (or_string (signature v) "")) = false.

(** The signature of [v] verifies, its proof decodes, and the audience
    of the proof is not the issuer of [v]. *)
Definition link_broken (v : Ucan) : Prop :=
  signature_verifies v /\
  exists prf aud iss,
    proof_of v prf /\
    get "aud" (payload prf) = Ok aud /\
    get "iss" (payload v) = Ok iss /\
    strict_eq aud iss = false.

(** Validating [v] raises [e] before any verdict: its payload is [null],
    or its signature verifies and its proof does not decode, or decodes
    to a token whose payload is [null]. *)
Definition level_throws (v : Ucan) (e : error) : Prop :=
  get "iss" (payload v) = Throw e \/
  (signature_verifies v /\
   exists p,
     get "prf" (payload v) = Ok (Some p) /\ truthy (Some p) = true /\
     (decode_value p = Throw e \/
      exists prf, decode_value p = Ok prf /\
                  get "aud" (payload prf) = Throw e)).

(** The verifier accepts, for the issuer [iss], the signature that the
    keystore gives to [data], as [sign] writes it and [isValid] reads
    it. *)
Definition accepts_own_signature (iss data : string) : Prop :=
  verifySignedData data (Some (JStr iss))
    (makeUrlUnsafe (makeUrlSafe (keystore_sign data))) = true.

End Outcomes.

(** ** The codecs write one form only *)

(** A text written in the alphabet of base58btc. *)
Definition base58_text (s : string) : bool :=
  forallb
    (fun c => match Base58.digit_of_char c with
              | Some _ => true
              | None => false
              end)
    (list_ascii_of_string s).

(** A text in the alphabet that is read is the one the writer gives for
    the bytes read. *)
Class Base58Canonical {uint8arrays : Uint8arrays} : Prop := {
  base58btc_toString_fromString :
    forall s b,
      base58_text s = true ->
      fromString_base58btc s = Ok b -> toString_base58btc b = s
}.

(** What [parseMagicBytes] recognises is a registered prefix in front of
    the key it returns. *)
Class DidUtilSound {util : DidUtil} : Prop := {
  magicBytes_parseMagicBytes :
    forall buf key type,
      parseMagicBytes buf = Ok (key, type) ->
      exists prefix, magicBytes type = Some prefix /\
                     buf = (prefix ++ key)%list
}.

(** ** More tokens *)

Module Tokens2.

(** A token of Mallory that cites the root token, which was issued to
    Alice. *)
Definition mallory : Ucan :=
  Eval vm_compute in
    Tokens.decoded
      (Tokens.built
         (build (Tokens.params "did:key:zBob" (Some "did:key:zMallory")
                   (Some Tokens.root)))).

(** A signed token whose proof is not a token. *)
Definition bogus_payload : json :=
  JObj [("aud", JStr "did:key:zBob"); ("exp", JNum 1700003600);
        ("fct", JArr []); ("iss", JStr "did:key:zAlice");
        ("nbf", JNum 1699999940); ("prf", JStr "bogus");
        ("ptc", JStr "APPEND"); ("rsc", JStr "*")].

Definition bogus_proof : Ucan :=
  Eval vm_compute in
    {| header := Deep.link_header; payload := bogus_payload;
       signature := Some (sign Deep.link_header bogus_payload) |}.

(** A token of Bob that cites it. *)
Definition cites_bogus : Ucan :=
  Eval vm_compute in
    Tokens.decoded
      (Tokens.built
         (build (Tokens.params "did:key:zCarol" (Some "did:key:zBob")
                   (Some (encode bogus_proof))))).

End Tokens2.

(** The length of a value when it is a string, which the proof it
    carries must stay under. *)
Definition text_length (x : json) : nat :=
  match x with JStr s => String.length s | _ => 0 end.

(** * Sessions

    [src/session.ts]: what is known of the user between two visits is a
    record in the key-value store. *)

(** [./components/storage/implementation.js].  The store is an object
    that the calls change; here a call takes the contents and gives the
    new contents back, [setItem] together with the value its promise
    resolves to. *)
Class Storage : Type := {
  contents : Type;
  KEYS_ACCOUNT_UCAN : string;
  KEYS_CID_LOG : string;
  KEYS_SESSION : string;
  KEYS_UCANS : string;
  (* [null] for a key that is not there *)
  getItem : contents -> string -> json;
  setItem : contents -> string -> json -> contents * json;
  removeItem : contents -> string -> contents
}.

(** [./common/type-checks.js] *)
Class TypeChecks : Type := {
  isObject : json -> bool;
  hasProp : json -> string -> bool
}.

(** The keystore of [./components/crypto/implementation.js]. *)
Class Keystore : Type := {
  keys : Type;
  clearStore : keys -> keys
}.

(** [./fs/index.js] *)
Class FileSystem : Type := {
  filesystem : Type;
  deactivate : filesystem -> filesystem
}.

Section Session.

Context {JSON_ : JSON} {storage_ : Storage} {checks : TypeChecks}
        {keystore : Keystore} {fs_ : FileSystem}.

(** The objects a session holds, and its two own fields. *)
Record Session : Type := {
  session_crypto : keys;
  session_storage : contents;
  session_fs : option filesystem;
  session_type : string;
  session_username : string
}.

Definition destroy (this : Session) : Session :=
  let storage := session_storage this in
  let storage := removeItem storage KEYS_ACCOUNT_UCAN in
  let storage := removeItem storage KEYS_CID_LOG in
  let storage := removeItem storage KEYS_SESSION in
  let storage := removeItem storage KEYS_UCANS in
  let crypto := clearStore (session_crypto this) in
  (* if (this.fs) this.fs.deactivate() *)
  let fs := match session_fs this with
            | Some fs => Some (deactivate fs)
            | None => None
            end in
  {| session_crypto := crypto; session_storage := storage;
     session_fs := fs; session_type := session_type this;
     session_username := session_username this |}.

Record SessionInfo : Type := {
  info_type : string;
  info_username : string
}.

Definition isSessionInfo (a : json) : bool :=
  isObject a && hasProp a "username" && hasProp a "type".

(** The answer is the stored record, or [null]. *)
Definition restore (storage : contents) : result json :=
  let a := getItem storage KEYS_SESSION in
  (* a ? a as string : null *)
  let a := if truthy (Some a) then a else JNull in
  (* a ? JSON.parse(a) : null *)
  a <- (if truthy (Some a) then JSON_parse (toString a) else Ok JNull) ;;
  (* isSessionInfo(a) ? a : null *)
  Ok (if isSessionInfo a then a else JNull).

Definition provide (storage : contents) (info : SessionInfo)
  : contents * json :=
  setItem storage KEYS_SESSION
    (JStr (JSON_stringify
             (JObj [("type", JStr (info_type info));
                    ("username", JStr (info_username info))]))).

End Session.

(** ** What the session code expects of its collaborators *)

(** A key reads what was last written to it, [null] once it is removed,
    and is not touched by what happens to another key. *)
Class StorageLaws {storage_ : Storage} : Prop := {
  getItem_setItem :
    forall s k v k',
      getItem (fst (setItem s k v)) k'
      = if String.eqb k k' then v else getItem s k';
  getItem_removeItem :
    forall s k k',
      getItem (removeItem s k) k'
      = if String.eqb k k' then JNull else getItem s k'
}.

(** [typeof a === "object" && a !== null], and [prop in a] on such a
    value. *)
Class TypeChecksLaws {checks : TypeChecks} : Prop := {
  isObject_object : forall fields, isObject (JObj fields) = true;
  isObject_null : isObject JNull = false;
  hasProp_object :
    forall fields k v,
      lookup k fields = Some v -> hasProp (JObj fields) k = true
}.

(** The empty text is not JSON. *)
Class JSONText {JSON_ : JSON} : Prop := {
  parse_empty : exists e, JSON_parse "" = Throw e
}.

(** ** Stand-ins for the collaborators of a session *)

Module Memory.

(** A store kept as a list of bindings, the latest first. *)
Fixpoint getItem (s : list (string * json)) (k : string) : json :=
  match s with
  | [] => JNull
  | (k', v) :: rest => if String.eqb k' k then v else getItem rest k
  end.

Definition setItem (s : list (string * json)) (k : string) (v : json)
  : list (string * json) * json :=
  ((k, v) :: s, v).

Fixpoint removeItem (s : list (string * json)) (k : string)
  : list (string * json) :=
  match s with
  | [] => []
  | (k', v) :: rest =>
      if String.eqb k' k then removeItem rest k
      else (k', v) :: removeItem rest k
  end.

Definition isObject (a : json) : bool :=
  match a with JObj _ | JArr _ => true | _ => false end.

Definition hasProp (a : json) (prop : string) : bool :=
  match a with
  | JObj fields =>
      match lookup prop fields with Some _ => true | None => false end
  | JArr items =>
      String.eqb prop "length"
      || existsb (String.eqb prop)
           (map string_of_nat (seq 0 (length items)))
  | _ => false
  end.

End Memory.

#[export] Instance storage_memory : Storage := {|
  contents := list (string * json);
  KEYS_ACCOUNT_UCAN := "account-ucan";
  KEYS_CID_LOG := "cid-log";
  KEYS_SESSION := "session";
  KEYS_UCANS := "permissioned-ucans";
  getItem := Memory.getItem;
  setItem := Memory.setItem;
  removeItem := Memory.removeItem
|}.

#[export] Instance checks_memory : TypeChecks := {|
  isObject := Memory.isObject;
  hasProp := Memory.hasProp
|}.

(** A keystore that is a list of key names, and a file system that is
    active or not. *)
#[export] Instance keystore_memory : Keystore := {|
  keys := list string;
  clearStore := fun _ => []
|}.

#[export] Instance fs_memory : FileSystem := {|
  filesystem := bool;
  deactivate := fun _ => false
|}.

(** * Properties *)

(** ** Lists of segments *)

Lemma split_nonempty sep s : split sep s <> [].
Proof.
  destruct s as [|c rest]; simpl; [discriminate|].
  destruct (Ascii.eqb c sep); [discriminate|].
  destruct (split sep rest); discriminate.
Qed.

Lemma split_no_dot s : no_dot s = true -> split "." s = [s].
Proof.
  induction s as [|c rest IH]; simpl; [reflexivity|].
  intros H. apply andb_prop in H. destruct H as [Hc Hr].
  destruct (Ascii.eqb c "."); [discriminate|].
  rewrite (IH Hr). reflexivity.
Qed.

Lemma split_app_dot a b :
  no_dot a = true ->
  split "." (a ++ String "." b) = a :: split "." b.
Proof.
  induction a as [|c rest IH]; simpl; intros H; [reflexivity|].
  apply andb_prop in H. destruct H as [Hc Hr].
  destruct (Ascii.eqb c "."); [discriminate|].
  rewrite (IH Hr). reflexivity.
Qed.

Lemma split_concat segs :
  segs <> [] -> forallb no_dot segs = true ->
  split "." (String.concat "." segs) = segs.
Proof.
  induction segs as [|a rest IH]; [congruence|].
  intros _ H. simpl in H. apply andb_prop in H. destruct H as [Ha Hr].
  destruct rest as [|b rest'].
  - simpl. apply split_no_dot; assumption.
  - change (String.concat "." (a :: b :: rest'))
      with (a ++ String "." (String.concat "." (b :: rest'))).
    rewrite split_app_dot by assumption.
    rewrite IH; [reflexivity|discriminate|assumption].
Qed.

(** Every string is the join of its segments, which have no dot. *)
Lemma concat_split s :
  String.concat "." (split "." s) = s /\
  forallb no_dot (split "." s) = true.
Proof.
  induction s as [|c s [IHc IHn]]; [split; reflexivity|].
  cbn [split]. destruct (Ascii.eqb c ".") eqn:E.
  - apply Ascii.eqb_eq in E. subst c.
    pose proof (split_nonempty "." s) as Hne.
    destruct (split "." s) as [|seg segs]; [congruence|].
    split; [|exact IHn].
    change (String.concat "." ("" :: seg :: segs))
      with (String "." (String.concat "." (seg :: segs))).
    rewrite IHc. reflexivity.
  - pose proof (split_nonempty "." s) as Hne.
    destruct (split "." s) as [|seg segs]; [congruence|].
    cbn [forallb] in *. apply andb_prop in IHn. destruct IHn as [Hs Hr].
    split.
    + rewrite <- IHc. destruct segs; reflexivity.
    + cbn [no_dot]. rewrite E, Hs, Hr. reflexivity.
Qed.

(** ** The fields of a built payload *)

Section UCAN_properties.

Context {base64 : Base64} {JSON_ : JSON} {validation : Validation}
        {platform : Platform}.

Lemma get_of_exp k v e : get k v = Ok (Some e) -> exists fields, v = JObj fields.
Proof.
  destruct v; simpl; try discriminate; intros H; try (inversion H; fail).
  eexists; reflexivity.
Qed.

(** The doubles among the integers. *)
Lemma round53_safe z : safe_integer z -> round53 z = z.
Proof.
  unfold safe_integer, round53. intros H.
  apply Z.ltb_lt in H. cbv zeta. rewrite H. reflexivity.
Qed.

Lemma to_double_finite z :
  finite_double (round53 z) -> to_double z = Int (round53 z).
Proof.
  unfold finite_double, to_double. intros H.
  apply Z.ltb_lt in H. cbv zeta. rewrite H. reflexivity.
Qed.

(** The timestamps before a proof narrows them. *)
Lemma timestamps_requested params :
  finite_double (requested_exp params) -> finite_double requested_nbf ->
  timestamps params None
  = Ok (Int (requested_exp params), Int requested_nbf).
Proof.
  unfold requested_exp, requested_nbf, timestamps. cbv zeta.
  intros He Hn. rewrite (to_double_finite _ Hn).
  destruct (expiration params) as [e|].
  - destruct (Z.eqb e 0); [rewrite (to_double_finite _ He)|]; reflexivity.
  - rewrite (to_double_finite _ He). reflexivity.
Qed.

(** The timestamps that a proof narrows. *)
Lemma timestamps_narrowed params d ve vn pe pn :
  finite_double (requested_exp params) -> finite_double requested_nbf ->
  get "exp" (payload d) = Ok ve -> get "nbf" (payload d) = Ok vn ->
  ToNumber ve = Ok pe -> ToNumber vn = Ok pn ->
  timestamps params (Some d)
  = Ok (Math_min pe (Int (requested_exp params)),
        Math_max pn (Int requested_nbf)).
Proof.
  intros He Hn Hve Hvn Hpe Hpn.
  pose proof (timestamps_requested params He Hn) as Hr.
  unfold timestamps in Hr |- *. cbv zeta in Hr |- *.
  inversion Hr as [[Hexp Hnbf]]. rewrite Hexp, Hnbf, Hve, Hvn.
  cbn [bind]. rewrite Hpe, Hpn. reflexivity.
Qed.

(** [build] without a usable proof: the window is the requested one. *)
Lemma build_without_proof params :
  finite_double (requested_exp params) -> finite_double requested_nbf ->
  or_null (proof params) = None ->
  exists t rsc,
    build params = Ok t /\
    get "exp" (payload t) = Ok (Some (JNum (requested_exp params))) /\
    get "nbf" (payload t) = Ok (Some (JNum requested_nbf)) /\
    get "prf" (payload t) = Ok (Some JNull) /\
    get "rsc" (payload t) = Ok (Some rsc) /\
    rsc = match resource params with
          | Some r => resource_value r
          | None => JStr "*"
          end.
Proof.
  intros He Hn Hp. unfold build. rewrite Hp. cbn [bind].
  rewrite (timestamps_requested params He Hn). cbn [bind].
  destruct (resource params) as [r|]; cbn [bind json_of_number];
    eexists; eexists; (split; [reflexivity|]);
    cbn; repeat split; reflexivity.
Qed.

(** [build] on a proof, when the timestamps are integers. *)
Lemma build_of_timestamps params p d e n :
  or_null (proof params) = Some p ->
  decode p = Ok d ->
  timestamps params (Some d) = Ok (Int e, Int n) ->
  exists t,
    build params = Ok t /\
    get "exp" (payload t) = Ok (Some (JNum e)) /\
    get "nbf" (payload t) = Ok (Some (JNum n)) /\
    get "prf" (payload t) = Ok (Some (JStr p)) /\
    get "rsc" (payload t)
      = match resource params with
        | Some r => Ok (Some (resource_value r))
        | None => get "rsc" (payload d)
        end.
Proof.
  intros Hp Hd Ht. unfold build. rewrite Hp, Hd. cbn [bind].
  rewrite Ht. cbn [bind].
  assert (Hrsc : exists rsc, get "rsc" (payload d) = Ok rsc).
  { unfold timestamps in Ht. cbv zeta in Ht.
    destruct (payload d); try (eexists; reflexivity). discriminate. }
  destruct Hrsc as [rsc Hrsc].
  destruct (resource params) as [r|]; cbn [bind json_of_number].
  - eexists; split; [reflexivity|]. cbn. repeat split; reflexivity.
  - rewrite Hrsc. cbn [bind].
    destruct rsc as [v|];
      (eexists; split; [reflexivity|]); cbn; repeat split; reflexivity.
Qed.

(** [build] with a proof that decodes and carries an integer window. *)
Lemma build_with_proof params p d pe pn :
  finite_double (requested_exp params) -> finite_double requested_nbf ->
  or_null (proof params) = Some p ->
  decode p = Ok d ->
  get "exp" (payload d) = Ok (Some (JNum pe)) ->
  get "nbf" (payload d) = Ok (Some (JNum pn)) ->
  exists t,
    build params = Ok t /\
    get "exp" (payload t)
      = Ok (Some (JNum (Z.min pe (requested_exp params)))) /\
    get "nbf" (payload t) = Ok (Some (JNum (Z.max pn requested_nbf))) /\
    get "prf" (payload t) = Ok (Some (JStr p)) /\
    get "rsc" (payload t)
      = match resource params with
        | Some r => Ok (Some (resource_value r))
        | None => get "rsc" (payload d)
        end.
Proof.
  intros Hfe Hfn Hp Hd He Hn.
  apply (build_of_timestamps params p d _ _ Hp Hd).
  exact (timestamps_narrowed params d _ _ (Int pe) (Int pn) Hfe Hfn He Hn
           eq_refl eq_refl).
Qed.

(** What a call of [build] that returns went through. *)
Lemma build_inversion params t :
  build params = Ok t ->
  exists decodedProof e n rsc,
    ((or_null (proof params) = None /\ decodedProof = None) \/
     (exists p d, or_null (proof params) = Some p /\ decode p = Ok d /\
                  decodedProof = Some d)) /\
    timestamps params decodedProof = Ok (Int e, Int n) /\
    match resource params with
    | Some r => Ok (Some (resource_value r))
    | None =>
        match decodedProof with
        | Some d => get "rsc" (payload d)
        | None => Ok (Some (JStr "*"))
        end
    end = Ok rsc /\
    payload t
    = JObj (object [
        ("aud", Some (JStr (audience params)));
        ("exp", Some (JNum e));
        ("fct", Some (JArr (default [] (facts params))));
        ("iss", Some (JStr (or_string (issuer params) did_ucan)));
        ("nbf", Some (JNum n));
        ("prf", Some (match or_null (proof params) with
                      | Some p => JStr p
                      | None => JNull
                      end));
        ("ptc", Some (JStr (default "APPEND" (potency params))));
        ("rsc", rsc) ]) /\
    signature t
    = (if default true (addSignature params)
       then Some (sign (header t) (payload t)) else None).
Proof.
  unfold build. intros H.
  set (dp := match or_null (proof params) with
             | Some p => d <- decode p ;; Ok (Some d)
             | None => Ok None
             end) in H.
  destruct dp as [decodedProof|] eqn:Hdp; [|discriminate].
  cbn [bind] in H.
  destruct (timestamps params decodedProof) as [[exp nbf]|] eqn:Hw;
    [|discriminate].
  cbn [bind] in H.
  set (r := match resource params with
            | Some r => Ok (Some (resource_value r))
            | None => _
            end) in H |- *.
  destruct r as [rsc|] eqn:Hr; [|discriminate]. cbn [bind] in H.
  destruct exp as [e| | |]; try discriminate.
  destruct nbf as [n| | |]; try discriminate.
  cbn [bind json_of_number] in H. inversion H; subst t. clear H.
  exists decodedProof, e, n, rsc.
  split; [|split; [exact Hw|split; [exact Hr|split; reflexivity]]].
  subst dp. destruct (or_null (proof params)) as [p|].
  - right. destruct (decode p) as [d|] eqn:Hd; [|discriminate].
    inversion Hdp. exists p, d. split; [reflexivity|split; [exact Hd|reflexivity]].
  - left. inversion Hdp. split; reflexivity.
Qed.

(** A property of the payload that [build] assembled. *)
Lemma get_object_lookup k fields : get k (JObj fields) = Ok (lookup k fields).
Proof. reflexivity. Qed.

(** ** Validation of a proof chain *)

Lemma isValid_step n u :
  isValid (S n) u =
  (let* iss := get "iss" (payload u) in
   let a := verifySignedData (signing_input u) iss
              (makeUrlUnsafe (or_string (signature u) "")) in
   if negb a then Some (Ok a) else
   let* prf_ := get "prf" (payload u) in
   match prf_ with
   | Some p =>
       if negb (truthy prf_) then Some (Ok true) else
       let* prf := decode_value p in
       let* aud := get "aud" (payload prf) in
       let b := strict_eq aud iss in
       if negb b then Some (Ok b) else isValid n prf
   | None => Some (Ok true)
   end).
Proof. reflexivity. Qed.

Lemma isValid_more_fuel n u r :
  isValid n u = Some r -> forall m, n <= m -> isValid m u = Some r.
Proof.
  revert u r. induction n as [|n IH]; intros u r H m Hm; [discriminate|].
  destruct m as [|m]; [lia|].
  simpl in H |- *.
  destruct (get "iss" (payload u)) as [iss|e]; cbn [bindF] in *; [|exact H].
  destruct (negb _); [exact H|].
  destruct (get "prf" (payload u)) as [[p|]|e]; cbn [bindF] in *;
    try exact H.
  destruct (negb (truthy (Some p))); [exact H|].
  destruct (decode_value p) as [prf|e]; cbn [bindF] in *; [|exact H].
  destruct (get "aud" (payload prf)) as [aud|e]; cbn [bindF] in *; [|exact H].
  destruct (negb _); [exact H|].
  apply IH; [exact H|lia].
Qed.

Lemma isValid_true_chain n u :
  isValid n u = Some (Ok true) ->
  exists chain,
    proof_chain u chain /\ Forall signature_verifies chain /\
    links_continuous chain.
Proof.
  revert u. induction n as [|n IH]; intros u H; [discriminate|].
  simpl in H.
  destruct (get "iss" (payload u)) as [iss|e] eqn:Hiss; cbn [bindF] in H;
    [|discriminate].
  destruct (verifySignedData _ iss _) eqn:Ha; cbn [negb] in H;
    [|discriminate].
  assert (Hsig : signature_verifies u) by (exists iss; split; assumption).
  destruct (get "prf" (payload u)) as [[p|]|e] eqn:Hprf; cbn [bindF] in H;
    [| |discriminate].
  - destruct (truthy (Some p)) eqn:Ht; cbn [negb] in H.
    + destruct (decode_value p) as [prf|e] eqn:Hd; cbn [bindF] in H;
        [|discriminate].
      destruct (get "aud" (payload prf)) as [aud|e] eqn:Haud;
        cbn [bindF] in H; [|discriminate].
      destruct (strict_eq aud iss) eqn:Hb; cbn [negb] in H; [|discriminate].
      destruct (IH prf H) as (chain & Hc & Hs & Hl).
      exists (u :: chain). split; [|split].
      * apply chain_link with prf; [|exact Hc].
        exists p. repeat split; assumption.
      * constructor; assumption.
      * inversion Hc; subst; cbn [links_continuous]; (split; [|exact Hl]);
          exists aud, iss; repeat split; assumption.
    + exists [u]. split; [|split].
      * apply chain_end. exists (Some p). split; assumption.
      * constructor; [assumption|constructor].
      * exact I.
  - exists [u]. split; [|split].
    + apply chain_end. exists None. split; [assumption|reflexivity].
    + constructor; [assumption|constructor].
    + exact I.
Qed.

Lemma chain_isValid_true u chain :
  proof_chain u chain ->
  Forall signature_verifies chain -> links_continuous chain ->
  isValid (length chain) u = Some (Ok true).
Proof.
  induction 1 as [u Hno|u prf chain Hp Hc IH]; intros Hs Hl.
  - inversion Hs as [|? ? (iss & Hiss & Ha) _]; subst.
    destruct Hno as (v & Hv & Ht).
    cbn [length]. rewrite isValid_step, Hiss. cbn [bindF]. cbv zeta.
    rewrite Ha. cbn [negb].
    rewrite Hv. cbn [bindF].
    destruct v as [p|]; [|reflexivity]. rewrite Ht. reflexivity.
  - inversion Hs as [|? ? (iss & Hiss & Ha) Hs']; subst.
    destruct Hp as (p & Hprf & Ht & Hd).
    assert (Hlink : continuous u prf /\ links_continuous chain)
      by (inversion Hc; subst; exact Hl).
    destruct Hlink as [(aud & iss' & Haud & Hiss' & Hb) Hl'].
    rewrite Hiss in Hiss'. inversion Hiss'; subst iss'.
    change (length (u :: chain)) with (S (length chain)).
    rewrite isValid_step, Hiss. cbn [bindF]. cbv zeta.
    rewrite Ha. cbn [negb].
    rewrite Hprf. cbn [bindF]. rewrite Ht. cbn [negb].
    rewrite Hd. cbn [bindF]. rewrite Haud. cbn [bindF]. rewrite Hb.
    cbn [negb]. apply IH; assumption.
Qed.

(** A chain whose signatures and links are in order is walked to its
    end: a budget below its length runs out. *)
Lemma chain_needs_fuel u chain :
  proof_chain u chain ->
  Forall signature_verifies chain -> links_continuous chain ->
  forall fuel, fuel < length chain -> isValid fuel u = None.
Proof.
  induction 1 as [u Hno|u prf chain Hp Hc IH]; intros Hs Hl fuel Hf.
  - destruct fuel; [reflexivity|simpl in Hf; lia].
  - destruct fuel as [|fuel]; [reflexivity|].
    inversion Hs as [|? ? (iss & Hiss & Ha) Hs']; subst.
    destruct Hp as (p & Hprf & Ht & Hd).
    assert (Hlink : continuous u prf /\ links_continuous chain)
      by (inversion Hc; subst; exact Hl).
    destruct Hlink as [(aud & iss' & Haud & Hiss' & Hb) Hl'].
    rewrite Hiss in Hiss'. inversion Hiss'; subst iss'.
    rewrite isValid_step, Hiss. cbn [bindF]. cbv zeta.
    rewrite Ha. cbn [negb].
    rewrite Hprf. cbn [bindF]. rewrite Ht. cbn [negb].
    rewrite Hd. cbn [bindF]. rewrite Haud. cbn [bindF]. rewrite Hb.
    cbn [negb]. apply IH; [assumption..|]. simpl in Hf. lia.
Qed.

(** ** The root issuer *)

Lemma extractPayload_level ucan level p :
  extractPayload ucan 0 = Ok p -> extractPayload ucan level = Ok p.
Proof.
  unfold extractPayload, try_catch_throw.
  destruct ucan; try discriminate.
  destruct (bind _ _); [trivial|discriminate].
Qed.


Lemma rootIssuer_step n ucan level :
  rootIssuer (S n) ucan level =
  (let* p := extractPayload ucan level in
   let* prf := get "prf" p in
   match prf with
   | Some next =>
       if truthy prf then rootIssuer n next (level + 1)
       else let* iss := get "iss" p in Some (Ok iss)
   | None => let* iss := get "iss" p in Some (Ok iss)
   end).
Proof. reflexivity. Qed.

Lemma rootIssuer_more_fuel n ucan level r :
  rootIssuer n ucan level = Some r ->
  forall m, n <= m -> rootIssuer m ucan level = Some r.
Proof.
  revert ucan level r.
  induction n as [|n IH]; intros ucan level r H m Hm; [discriminate|].
  destruct m as [|m]; [lia|].
  rewrite rootIssuer_step in *.
  destruct (extractPayload ucan level) as [p|e]; cbn [bindF] in *;
    [|exact H].
  destruct (get "prf" p) as [[next|]|e]; cbn [bindF] in *; try exact H.
  destruct (truthy (Some next)); [|exact H].
  apply IH; [exact H|lia].
Qed.

Lemma rootIssuer_deepest ucan d x p :
  descends ucan d x -> deepest_payload x p ->
  forall level,
    exists iss, get "iss" p = Ok iss /\
                rootIssuer (S d) ucan level = Some (Ok iss).
Proof.
  intros Hd [Hx (prf & Hprf & Ht)].
  induction Hd as [ucan|ucan q next d x Hq Hnext Htn _ IH]; intros level.
  - assert (Hiss : exists iss, get "iss" p = Ok iss).
    { destruct p; try discriminate; eexists; reflexivity. }
    destruct Hiss as [iss Hiss]. exists iss. split; [exact Hiss|].
    rewrite rootIssuer_step, (extractPayload_level _ level _ Hx).
    cbn [bindF]. rewrite Hprf. cbn [bindF].
    destruct prf as [v|]; [rewrite Ht|]; rewrite Hiss; reflexivity.
  - destruct (IH Hx (level + 1)) as (iss & Hiss & Hr).
    exists iss. split; [exact Hiss|].
    rewrite rootIssuer_step, (extractPayload_level _ level _ Hq).
    cbn [bindF]. rewrite Hnext. cbn [bindF]. rewrite Htn. exact Hr.
Qed.


(** ** Decoding *)

Lemma decode_of_segments segs :
  segs <> [] -> forallb no_dot segs = true ->
  decode (String.concat "." segs) =
  (header <- match nth_error segs 0 with
             | Some h => parse_segment h
             | None => Throw TypeError
             end ;;
   payload <- match nth_error segs 1 with
              | Some p => parse_segment p
              | None => Throw TypeError
              end ;;
   Ok {| header := header; payload := payload;
         signature := or_null (nth_error segs 2) |}).
Proof.
  intros Hne Hnd. unfold decode. rewrite (split_concat _ Hne Hnd).
  unfold urlDecode_at, parse_segment.
  destruct segs as [|h [|p more]]; reflexivity.
Qed.

Lemma no_dot_app a b :
  no_dot a = true -> no_dot b = true -> no_dot (a ++ b) = true.
Proof.
  induction a as [|c a IH]; simpl; intros Ha Hb; [exact Hb|].
  apply andb_prop in Ha. destruct Ha as [Hc Ha].
  rewrite Hc. simpl. apply IH; assumption.
Qed.

Lemma encode_segments u :
  encode u =
  String.concat "."
    [encodeHeader (header u); encodePayload (payload u);
     match signature u with Some s => s | None => "null" end].
Proof. reflexivity. Qed.

(** Decoding an encoded token gives back its header and the properties
    of its payload; the signature comes back as the string it was
    printed as. *)
Lemma decode_encode `{!Base64Laws} `{!JSONLaws} u :
  no_dot (match signature u with Some s => s | None => "null" end) = true ->
  decode (encode u)
  = Ok {| header := header u;
          payload := spread (payload u);
          signature :=
            or_null (Some (match signature u with
                           | Some s => s
                           | None => "null"
                           end)) |}.
Proof.
  intros Hs. rewrite encode_segments, decode_of_segments.
  - cbn [nth_error]. unfold parse_segment, encodeHeader, encodePayload.
    rewrite !urlDecode_urlEncode. cbn [bind].
    rewrite !parse_stringify. reflexivity.
  - discriminate.
  - cbn [forallb]. unfold encodeHeader, encodePayload.
    rewrite !urlEncode_no_dot, Hs. reflexivity.
Qed.

End UCAN_properties.

(** ** Positional notation *)

Section Radix.

Variable base : N.
Hypothesis base_ge_2 : (2 <= base)%N.

Lemma div_base_lt_pow n k :
  (n < 2 ^ N.of_nat (S k))%N -> (n / base < 2 ^ N.of_nat k)%N.
Proof.
  intros H. apply N.Div0.div_lt_upper_bound.
  rewrite Nat2N.inj_succ, N.pow_succ_r' in H.
  nia.
Qed.

Lemma to_digits_from_fuel f1 : forall f2 n acc,
  (n < 2 ^ N.of_nat f1)%N -> (n < 2 ^ N.of_nat f2)%N ->
  to_digits_from f1 base n acc = to_digits_from f2 base n acc.
Proof.
  induction f1 as [|f1 IH]; intros f2 n acc H1 H2.
  - assert (n = 0%N) by (simpl in H1; lia). subst n.
    destruct f2; reflexivity.
  - destruct f2 as [|f2].
    + assert (n = 0%N) by (simpl in H2; lia). subst n. reflexivity.
    + simpl. destruct (N.eqb n 0); [reflexivity|].
      apply IH; apply div_base_lt_pow; assumption.
Qed.

Lemma to_digits_from_acc f : forall n acc,
  to_digits_from f base n acc = (to_digits_from f base n [] ++ acc)%list.
Proof.
  induction f as [|f IH]; intros n acc; [reflexivity|].
  simpl. destruct (N.eqb n 0); [reflexivity|].
  rewrite IH, (IH _ [_]), <- app_assoc. reflexivity.
Qed.

Lemma to_digits_0 : to_digits base 0 = [].
Proof. reflexivity. Qed.

Lemma size_bound n : (n < 2 ^ N.of_nat (N.to_nat (N.size n)))%N.
Proof. rewrite N2Nat.id. apply N.size_gt. Qed.

Lemma to_digits_step n :
  n <> 0%N ->
  to_digits base n
  = (to_digits base (n / base)%N ++ [(n mod base)%N])%list.
Proof.
  intros Hn. unfold to_digits.
  pose proof (size_bound n) as Hs.
  destruct (N.to_nat (N.size n)) as [|k] eqn:Hk.
  - simpl in Hs. lia.
  - simpl. apply N.eqb_neq in Hn. rewrite Hn.
    rewrite to_digits_from_acc. f_equal.
    apply to_digits_from_fuel;
      [apply div_base_lt_pow; assumption|apply size_bound].
Qed.

Lemma of_digits_app ds d :
  of_digits base (ds ++ [d]) = (of_digits base ds * base + d)%N.
Proof. unfold of_digits. rewrite fold_left_app. reflexivity. Qed.

Lemma of_to_digits n : of_digits base (to_digits base n) = n.
Proof.
  induction n as [n IH] using (well_founded_induction N.lt_wf_0).
  destruct (N.eq_dec n 0) as [->|Hn]; [reflexivity|].
  rewrite (to_digits_step n Hn), of_digits_app.
  rewrite IH by (apply N.div_lt; lia).
  rewrite (N.div_mod n base) at 3 by lia. lia.
Qed.

Lemma to_digits_bounded n : Forall (fun d => (d < base)%N) (to_digits base n).
Proof.
  induction n as [n IH] using (well_founded_induction N.lt_wf_0).
  destruct (N.eq_dec n 0) as [->|Hn]; [constructor|].
  rewrite (to_digits_step n Hn). apply Forall_app. split.
  - apply IH. apply N.div_lt; lia.
  - constructor; [|constructor]. apply N.mod_lt. lia.
Qed.

(** No leading zero. *)
Lemma to_digits_head n d ds : to_digits base n = d :: ds -> d <> 0%N.
Proof.
  revert d ds.
  induction n as [n IH] using (well_founded_induction N.lt_wf_0).
  intros d ds. destruct (N.eq_dec n 0) as [->|Hn]; [discriminate|].
  rewrite (to_digits_step n Hn).
  destruct (to_digits base (n / base)%N) as [|d' ds'] eqn:Hq.
  - simpl. intros H. inversion H; subst. intros Hz.
    assert (Hq0 : (n / base = 0)%N).
    { rewrite <- (of_to_digits (n / base)%N), Hq. reflexivity. }
    pose proof (N.div_mod n base ltac:(lia)). lia.
  - simpl. intros H. inversion H; subst.
    apply (IH (n / base)%N) with ds'; [apply N.div_lt; lia|exact Hq].
Qed.

Lemma to_digits_snoc m d :
  (d < base)%N -> (m <> 0 \/ d <> 0)%N ->
  to_digits base (m * base + d) = (to_digits base m ++ [d])%list.
Proof.
  intros Hd Hnz.
  assert (Hn : (m * base + d <> 0)%N) by nia.
  rewrite (to_digits_step _ Hn).
  assert (Hq : ((m * base + d) / base = m)%N).
  { rewrite N.div_add_l by lia. rewrite (N.div_small d base) by lia. lia. }
  assert (Hr : ((m * base + d) mod base = d)%N).
  { rewrite N.add_comm, N.Div0.mod_add. apply N.mod_small; lia. }
  rewrite Hq, Hr. reflexivity.
Qed.

(** Digits without a leading zero are the digits of their value. *)
Lemma to_of_digits ds :
  Forall (fun d => (d < base)%N) ds ->
  (forall d rest, ds = d :: rest -> d <> 0%N) ->
  to_digits base (of_digits base ds) = ds.
Proof.
  induction ds as [|d ds IH] using rev_ind; intros Hb Hh; [reflexivity|].
  apply Forall_app in Hb. destruct Hb as [Hb Hd].
  inversion Hd as [|? ? Hd' _]; subst.
  rewrite of_digits_app.
  destruct ds as [|d0 ds'].
  - change (of_digits base []) with 0%N.
    rewrite to_digits_snoc; [reflexivity|assumption|].
    right. apply (Hh d []). reflexivity.
  - assert (Hh' : forall d1 rest, d0 :: ds' = d1 :: rest -> d1 <> 0%N).
    { intros d1 rest E. inversion E; subst.
      apply (Hh d1 (rest ++ [d])%list). reflexivity. }
    rewrite to_digits_snoc; [|assumption|].
    + rewrite (IH Hb Hh'). reflexivity.
    + left. intros Hz.
      assert (E : to_digits base (of_digits base (d0 :: ds')) = d0 :: ds')
        by (apply IH; assumption).
      rewrite Hz in E. discriminate.
Qed.

End Radix.

(** ** base58btc *)

Lemma of_digits_zeros base k l :
  of_digits base (repeat 0%N k ++ l) = of_digits base l.
Proof.
  induction k as [|k IH]; [reflexivity|].
  simpl. exact IH.
Qed.

Lemma leading_zeros_split l :
  l = (repeat 0%N (Base58.leading_zeros l)
       ++ skipn (Base58.leading_zeros l) l)%list.
Proof.
  induction l as [|d l IH]; [reflexivity|].
  simpl. destruct (N.eqb d 0) eqn:E; [|reflexivity].
  apply N.eqb_eq in E. subst d. simpl. f_equal. exact IH.
Qed.

Lemma leading_zeros_head l d rest :
  skipn (Base58.leading_zeros l) l = d :: rest -> d <> 0%N.
Proof.
  induction l as [|x l IH]; simpl; [discriminate|].
  destruct (N.eqb x 0) eqn:E.
  - simpl. exact IH.
  - simpl. intros H. inversion H; subst. apply N.eqb_neq. exact E.
Qed.

Lemma leading_zeros_app k l :
  (forall d rest, l = d :: rest -> d <> 0%N) ->
  Base58.leading_zeros (repeat 0%N k ++ l) = k.
Proof.
  intros Hl. induction k as [|k IH]; simpl.
  - destruct l as [|d rest]; [reflexivity|].
    simpl. specialize (Hl d rest eq_refl). apply N.eqb_neq in Hl.
    rewrite Hl. reflexivity.
  - f_equal. exact IH.
Qed.

Lemma digit_of_char_of_digit d :
  (d < 58)%N -> Base58.digit_of_char (Base58.char_of_digit d) = Some d.
Proof.
  intros H. rewrite <- (N2Nat.id d).
  assert (Hn : N.to_nat d < 58) by lia.
  revert Hn. generalize (N.to_nat d). clear H. intros n Hn.
  do 58 (destruct n as [|n]; [reflexivity|]). lia.
Qed.

Lemma digits_of_string_chars ds :
  Forall (fun d => (d < 58)%N) ds ->
  Base58.digits_of_string
    (string_of_list_ascii (map Base58.char_of_digit ds)) = Some ds.
Proof.
  induction 1 as [|d ds Hd _ IH]; [reflexivity|].
  simpl. rewrite (digit_of_char_of_digit d Hd), IH. reflexivity.
Qed.

Lemma N_of_ascii_bounded data :
  Forall (fun d => (d < 256)%N) (map N_of_ascii data).
Proof.
  induction data as [|a data IH]; constructor; [|exact IH].
  apply N_ascii_bounded.
Qed.

Lemma ascii_of_N_of_ascii data : map ascii_of_N (map N_of_ascii data) = data.
Proof.
  induction data as [|a data IH]; [reflexivity|].
  simpl. rewrite ascii_N_embedding, IH. reflexivity.
Qed.

Lemma base58_decode_encode data :
  Base58.decode (Base58.encode data) = Ok data.
Proof.
  unfold Base58.decode, Base58.encode.
  set (ds := map N_of_ascii data).
  set (z := Base58.leading_zeros ds).
  set (n := of_digits 256 ds).
  assert (H58 : (2 <= 58)%N) by lia.
  assert (H256 : (2 <= 256)%N) by lia.
  rewrite digits_of_string_chars.
  2:{ apply Forall_app. split.
      - clear. induction z; constructor; [lia|assumption].
      - apply to_digits_bounded; assumption. }
  rewrite leading_zeros_app by (apply to_digits_head; assumption).
  rewrite of_digits_zeros, of_to_digits by assumption.
  assert (Hn : n = of_digits 256 (skipn z ds)).
  { unfold n. rewrite (leading_zeros_split ds) at 1.
    apply of_digits_zeros. }
  rewrite Hn, to_of_digits.
  - unfold z. rewrite <- (leading_zeros_split ds).
    unfold ds. rewrite ascii_of_N_of_ascii. reflexivity.
  - assumption.
  - pose proof (N_of_ascii_bounded data) as Hb. fold ds in Hb.
    rewrite (leading_zeros_split ds) in Hb. apply Forall_app in Hb.
    unfold z. apply Hb.
  - apply leading_zeros_head.
Qed.

(** ** Base64 *)

Lemma list_ind3 {A} (P : list A -> Prop) :
  P [] -> (forall a, P [a]) -> (forall a b, P [a; b]) ->
  (forall a b c rest, P rest -> P (a :: b :: c :: rest)) ->
  forall l, P l.
Proof.
  intros H0 H1 H2 H3.
  fix IH 1. intros [|a [|b [|c rest]]].
  - exact H0.
  - apply H1.
  - apply H2.
  - apply H3. apply IH.
Qed.

Lemma list_ind4 {A} (P : list A -> Prop) :
  P [] -> (forall a, P [a]) -> (forall a b, P [a; b]) ->
  (forall a b c, P [a; b; c]) ->
  (forall a b c d rest, P rest -> P (a :: b :: c :: d :: rest)) ->
  forall l, P l.
Proof.
  intros H0 H1 H2 H3 H4.
  fix IH 1. intros [|a [|b [|c [|d rest]]]].
  - exact H0.
  - apply H1.
  - apply H2.
  - apply H3.
  - apply H4. apply IH.
Qed.

Lemma sextet_of_char_of_sextet x :
  RFC4648.sextet_of_char (RFC4648.char_of_sextet x) = Some x.
Proof.
  destruct x as [[] [] [] [] [] []]; reflexivity.
Qed.

Lemma char_of_sextet_not_pad x :
  Ascii.eqb (RFC4648.char_of_sextet x) "=" = false.
Proof.
  destruct x as [[] [] [] [] [] []]; reflexivity.
Qed.

Lemma url_char_plain x :
  Ascii.eqb (url_char x) "=" = false /\
  Ascii.eqb (url_char x) "." = false /\
  (let c := url_char x in
   let c1 := if Ascii.eqb c "_" then "/"%char else c in
   if Ascii.eqb c1 "-" then "+"%char else c1) = RFC4648.char_of_sextet x.
Proof.
  destruct x as [[] [] [] [] [] []]; repeat split; reflexivity.
Qed.

Lemma encode_by_groups pad data :
  RFC4648.encode pad data
  = chars_of_sextets (to_sextets data) ++ (if pad then padding data else "").
Proof.
  induction data as [|a|a b|a b c rest IH] using list_ind3.
  - destruct pad; reflexivity.
  - destruct a, pad; reflexivity.
  - destruct a, b, pad; reflexivity.
  - destruct a, b, c. cbn [RFC4648.encode to_sextets padding].
    rewrite IH. reflexivity.
Qed.

Lemma sextets_of_chars l :
  RFC4648.sextets (chars_of_sextets l) = Some l.
Proof.
  induction l as [|x l IH]; [reflexivity|].
  unfold chars_of_sextets in *. simpl.
  rewrite sextet_of_char_of_sextet, IH. reflexivity.
Qed.

Lemma decode_to_sextets data :
  RFC4648.decode_sextets (to_sextets data) = Some data.
Proof.
  induction data as [|a|a b|a b c rest IH] using list_ind3.
  - reflexivity.
  - destruct a; reflexivity.
  - destruct a, b; reflexivity.
  - destruct a, b, c. cbn [to_sextets RFC4648.decode_sextets].
    rewrite IH. reflexivity.
Qed.

(** Padding after characters that are not [=] is all that is dropped. *)
Lemma strip_padding_app (chars : list ascii) k :
  Forall (fun c => Ascii.eqb c "=" = false) chars ->
  RFC4648.strip_padding
    (string_of_list_ascii chars
     ++ string_of_list_ascii (repeat "="%char k))
  = string_of_list_ascii chars.
Proof.
  induction 1 as [|c chars Hc _ IH].
  - simpl. induction k as [|k IHk]; [reflexivity|].
    simpl. rewrite IHk. reflexivity.
  - simpl. rewrite IH.
    destruct (string_of_list_ascii chars); [rewrite Hc|]; reflexivity.
Qed.

Lemma padding_repeat data :
  exists k, padding data = string_of_list_ascii (repeat "="%char k).
Proof.
  induction data as [|a|a b|a b c rest IH] using list_ind3.
  - exists 0; reflexivity.
  - exists 2; reflexivity.
  - exists 1; reflexivity.
  - exact IH.
Qed.

Lemma rfc4648_decode_chars l k :
  RFC4648.decode
    (chars_of_sextets l ++ string_of_list_ascii (repeat "="%char k))
  = match RFC4648.decode_sextets l with
    | Some out => Ok out
    | None => Throw SyntaxError
    end.
Proof.
  unfold RFC4648.decode, chars_of_sextets.
  rewrite strip_padding_app.
  - fold (chars_of_sextets l). rewrite sextets_of_chars. reflexivity.
  - apply Forall_forall. intros c Hc. apply in_map_iff in Hc.
    destruct Hc as (x & <- & _). apply char_of_sextet_not_pad.
Qed.

(** Both codecs of the package read what [base64pad] writes, and also
    what [base64] writes. *)
Lemma rfc4648_decode_encode pad data :
  RFC4648.decode (RFC4648.encode pad data) = Ok data.
Proof.
  rewrite encode_by_groups.
  destruct (padding_repeat data) as [k Hk].
  assert (E : exists k', (if pad then padding data else "")
                         = string_of_list_ascii (repeat "="%char k')).
  { destruct pad; [exists k; exact Hk|exists 0; reflexivity]. }
  destruct E as [k' ->].
  rewrite rfc4648_decode_chars, decode_to_sextets. reflexivity.
Qed.

Lemma append_empty_r s : s ++ "" = s.
Proof. induction s as [|c s IH]; simpl; [|rewrite IH]; reflexivity. Qed.

Lemma append_assoc (a b c : string) : (a ++ b) ++ c = a ++ (b ++ c).
Proof. induction a as [|x a IH]; simpl; [|rewrite IH]; reflexivity. Qed.

Lemma length_append (a b : string) :
  String.length (a ++ b) = String.length a + String.length b.
Proof. induction a as [|x a IH]; simpl; [|rewrite IH]; reflexivity. Qed.

Lemma string_of_list_ascii_app l1 l2 :
  string_of_list_ascii (l1 ++ l2)
  = string_of_list_ascii l1 ++ string_of_list_ascii l2.
Proof. induction l1 as [|c l1 IH]; simpl; [|rewrite IH]; reflexivity. Qed.

Lemma replace_chars from to l :
  CommonBase64.replace from to (string_of_list_ascii l)
  = string_of_list_ascii
      (map (fun c => if Ascii.eqb c from then to else c) l).
Proof. induction l as [|c l IH]; simpl; [|rewrite IH]; reflexivity. Qed.

Lemma replace_app from to a b :
  CommonBase64.replace from to (a ++ b)
  = CommonBase64.replace from to a ++ CommonBase64.replace from to b.
Proof. induction a as [|c a IH]; simpl; [|rewrite IH]; reflexivity. Qed.

Lemma replace_padding from to k :
  Ascii.eqb "=" from = false ->
  CommonBase64.replace from to (string_of_list_ascii (repeat "="%char k))
  = string_of_list_ascii (repeat "="%char k).
Proof.
  intros H. induction k as [|k IH]; [reflexivity|].
  cbn [repeat string_of_list_ascii CommonBase64.replace].
  rewrite H, IH. reflexivity.
Qed.

Lemma url_char_spec x :
  (let c := RFC4648.char_of_sextet x in
   let c1 := if Ascii.eqb c "/" then "_"%char else c in
   if Ascii.eqb c1 "+" then "-"%char else c1) = url_char x.
Proof. destruct x as [[] [] [] [] [] []]; reflexivity. Qed.

Lemma urlEncode_chars str :
  CommonBase64.urlEncode str
  = string_of_list_ascii
      (map url_char (to_sextets (list_ascii_of_string str))).
Proof.
  unfold CommonBase64.urlEncode, CommonBase64.makeUrlSafe,
    CommonBase64.encode.
  rewrite encode_by_groups.
  destruct (padding_repeat (list_ascii_of_string str)) as [k ->].
  unfold chars_of_sextets.
  rewrite !replace_app, !replace_padding by reflexivity.
  rewrite !replace_chars, !map_map.
  rewrite strip_padding_app.
  - f_equal. apply map_ext. intros x. apply url_char_spec.
  - apply Forall_forall. intros c Hc. apply in_map_iff in Hc.
    destruct Hc as (x & <- & _).
    pose proof (url_char_spec x) as E. cbv zeta in E. rewrite E.
    apply url_char_plain.
Qed.

Lemma makeUrlUnsafe_url_chars l :
  CommonBase64.makeUrlUnsafe (string_of_list_ascii (map url_char l))
  = chars_of_sextets l.
Proof.
  unfold CommonBase64.makeUrlUnsafe, chars_of_sextets.
  rewrite !replace_chars, !map_map. f_equal.
  apply map_ext. intros x. apply url_char_plain.
Qed.

Lemma reference_urlDecode_urlEncode s :
  CommonBase64.urlDecode (CommonBase64.urlEncode s) = Ok s.
Proof.
  rewrite urlEncode_chars. unfold CommonBase64.urlDecode.
  rewrite makeUrlUnsafe_url_chars. unfold CommonBase64.decode.
  rewrite <- (append_empty_r (chars_of_sextets _)).
  change "" with (string_of_list_ascii (repeat "="%char 0)).
  rewrite rfc4648_decode_chars, decode_to_sextets. cbn [bind].
  rewrite string_of_list_ascii_of_string. reflexivity.
Qed.

Lemma reference_urlEncode_no_dot s :
  no_dot (CommonBase64.urlEncode s) = true.
Proof.
  rewrite urlEncode_chars.
  induction (to_sextets (list_ascii_of_string s)) as [|x l IH];
    [reflexivity|].
  simpl. rewrite IH.
  destruct (url_char_plain x) as (_ & -> & _). reflexivity.
Qed.

#[export] Instance base64_reference_laws : Base64Laws (base64 := base64_reference).
Proof.
  constructor.
  - exact reference_urlDecode_urlEncode.
  - exact reference_urlEncode_no_dot.
Qed.

(** Decoding does not lengthen. *)
Lemma strip_padding_length s :
  String.length (RFC4648.strip_padding s) <= String.length s.
Proof.
  induction s as [|c s IH]; simpl; [lia|].
  destruct (RFC4648.strip_padding s).
  - destruct (Ascii.eqb c "="); simpl; lia.
  - simpl in *. lia.
Qed.

Lemma sextets_length s l :
  RFC4648.sextets s = Some l -> length l = String.length s.
Proof.
  revert l. induction s as [|c s IH]; simpl; intros l H.
  - inversion H. reflexivity.
  - destruct (RFC4648.sextet_of_char c); [|discriminate].
    destruct (RFC4648.sextets s); [|discriminate].
    inversion H. simpl. f_equal. apply IH. reflexivity.
Qed.

Lemma decode_sextets_length l :
  forall out, RFC4648.decode_sextets l = Some out -> length out <= length l.
Proof.
  induction l as [|a|a b|a b c|a b c d rest IH] using list_ind4; intros out.
  - simpl. intros H. inversion H. simpl. lia.
  - destruct a. simpl. discriminate.
  - destruct a, b. simpl. destruct (_ || _); [discriminate|].
    intros H. inversion H. simpl. lia.
  - destruct a, b, c. simpl. destruct (_ || _); [discriminate|].
    intros H. inversion H. simpl. lia.
  - destruct a, b, c, d. cbn [RFC4648.decode_sextets].
    destruct (RFC4648.decode_sextets rest) as [out'|]; [|discriminate].
    intros H. inversion H. specialize (IH out' eq_refl). simpl. lia.
Qed.

Lemma replace_length from to s :
  String.length (CommonBase64.replace from to s) = String.length s.
Proof. induction s as [|c s IH]; simpl; [|rewrite IH]; reflexivity. Qed.

Lemma string_of_list_ascii_length l :
  String.length (string_of_list_ascii l) = length l.
Proof. induction l as [|c l IH]; simpl; [|rewrite IH]; reflexivity. Qed.

Lemma reference_urlDecode_length s t :
  CommonBase64.urlDecode s = Ok t -> String.length t <= String.length s.
Proof.
  unfold CommonBase64.urlDecode, CommonBase64.decode, RFC4648.decode,
    CommonBase64.makeUrlUnsafe.
  destruct (RFC4648.sextets _) as [l|] eqn:Hl; [|discriminate].
  destruct (RFC4648.decode_sextets l) as [out|] eqn:Ho; [|discriminate].
  cbn [bind]. intros H. inversion H; subst.
  rewrite string_of_list_ascii_length.
  apply decode_sextets_length in Ho. apply sextets_length in Hl.
  pose proof (strip_padding_length
                (CommonBase64.replace "-" "+"
                   (CommonBase64.replace "_" "/" s))) as Hs.
  rewrite !replace_length in Hs. lia.
Qed.

(** ** JSON: a parsed value is no longer than its text *)

Lemma skip_ws_length s :
  String.length (RefJSON.skip_ws s) <= String.length s.
Proof.
  induction s as [|c s IH]; simpl; [lia|].
  destruct (RefJSON.is_ws c); simpl; lia.
Qed.

Lemma strip_prefix_length p : forall s r,
  RefJSON.strip_prefix p s = Some r ->
  String.length r + String.length p = String.length s.
Proof.
  induction p as [|a p IH]; intros s r; simpl.
  - intros H. inversion H. lia.
  - destruct s as [|b s]; [discriminate|].
    destruct (Ascii.eqb a b); [|discriminate].
    intros H. apply IH in H. simpl. lia.
Qed.

Lemma parse_chars_length n : forall s str r,
  String.length s <= n ->
  RefJSON.parse_chars s = Some (str, r) ->
  String.length str + 1 + String.length r <= String.length s.
Proof.
  induction n as [|n IH]; intros s str r Hn.
  - destruct s; [discriminate|simpl in Hn; lia].
  - destruct s as [|c s]; [discriminate|]. simpl in Hn.
    cbn [RefJSON.parse_chars].
    destruct (Ascii.eqb c RefJSON.dquote).
    { intros H. inversion H. simpl. lia. }
    destruct (Ascii.eqb c "\").
    + destruct s as [|e s1]; [discriminate|]. simpl in Hn.
      destruct (RefJSON.unescape e).
      * destruct (RefJSON.parse_chars s1) as [[str' r']|] eqn:E;
          [|discriminate].
        intros H. inversion H; subst.
        apply IH in E; [|lia]. simpl. lia.
      * destruct (Ascii.eqb e "u"); [|discriminate].
        destruct s1 as [|h1 [|h2 [|h3 [|h4 s2]]]]; try discriminate.
        simpl in Hn.
        destruct (RefJSON.hex4 h1 h2 h3 h4) as [code|]; [|discriminate].
        destruct (N.ltb code 128); [|discriminate].
        destruct (RefJSON.parse_chars s2) as [[str' r']|] eqn:E;
          [|discriminate].
        intros H. inversion H; subst.
        apply IH in E; [|lia]. simpl. lia.
    + destruct (N.ltb (N_of_ascii c) 32); [discriminate|].
      destruct (RefJSON.parse_chars s) as [[str' r']|] eqn:E;
        [|discriminate].
      intros H. inversion H; subst.
      apply IH in E; [|lia]. simpl. lia.
Qed.

Lemma parse_digits_length s : forall acc n r,
  RefJSON.parse_digits s acc = (n, r) -> String.length r <= String.length s.
Proof.
  induction s as [|c s IH]; intros acc n r; simpl.
  - intros H. inversion H. simpl. lia.
  - destruct (RefJSON.is_digit c).
    + intros H. apply IH in H. lia.
    + intros H. inversion H. simpl. lia.
Qed.

Lemma parse_natural_length s n r :
  RefJSON.parse_natural s = Some (n, r) ->
  String.length r <= String.length s.
Proof.
  unfold RefJSON.parse_natural. destruct s as [|c s]; [discriminate|].
  destruct (Ascii.eqb c "0").
  - destruct (RefJSON.integer_ends s); [|discriminate].
    intros H. inversion H. simpl. lia.
  - destruct (RefJSON.is_digit c); [|discriminate].
    destruct (RefJSON.parse_digits (String c s) 0) as [n' r'] eqn:E.
    destruct (RefJSON.integer_ends r'); [|discriminate].
    intros H. inversion H; subst. apply parse_digits_length in E. exact E.
Qed.

Lemma parse_number_length s n r :
  RefJSON.parse_number s = Some (n, r) ->
  String.length r <= String.length s.
Proof.
  unfold RefJSON.parse_number. destruct s as [|c s]; [discriminate|].
  destruct (Ascii.eqb c "-").
  - destruct (RefJSON.parse_natural s) as [[n' r']|] eqn:E; [|discriminate].
    intros H. inversion H; subst. apply parse_natural_length in E.
    simpl. lia.
  - destruct (RefJSON.parse_natural (String c s)) as [[n' r']|] eqn:E;
      [|discriminate].
    intros H. inversion H; subst. apply parse_natural_length in E. exact E.
Qed.

Lemma literal_length name v s w r :
  RefJSON.literal name v s = Some (w, r) ->
  weight v = 0 -> weight w + String.length r <= String.length s.
Proof.
  unfold RefJSON.literal.
  destruct (RefJSON.strip_prefix name s) as [r'|] eqn:E; [|discriminate].
  intros H Hv. inversion H; subst. apply strip_prefix_length in E. lia.
Qed.

Lemma parse_length fuel :
  (forall s v r,
      RefJSON.parse_value fuel s = Some (v, r) ->
      weight v + String.length r <= String.length s) /\
  (forall s vs r,
      RefJSON.parse_items fuel s = Some (vs, r) ->
      list_sum (map weight vs) + String.length r <= String.length s) /\
  (forall s kvs r,
      RefJSON.parse_members fuel s = Some (kvs, r) ->
      list_sum (map (fun kv => weight (snd kv)) kvs) + String.length r
      <= String.length s).
Proof.
  induction fuel as [|fuel (IHv & IHi & IHm)];
    [repeat split; discriminate|].
  split; [|split].
  - intros s v r. cbn [RefJSON.parse_value].
    pose proof (skip_ws_length s) as Hws.
    destruct (RefJSON.skip_ws s) as [|c t]; [discriminate|].
    simpl in Hws.
    destruct (Ascii.eqb c "n").
    { intros H. apply literal_length in H; [lia|reflexivity]. }
    destruct (Ascii.eqb c "t").
    { intros H. apply literal_length in H; [lia|reflexivity]. }
    destruct (Ascii.eqb c "f").
    { intros H. apply literal_length in H; [lia|reflexivity]. }
    destruct (Ascii.eqb c RefJSON.dquote).
    { destruct (RefJSON.parse_chars t) as [[str r']|] eqn:E; [|discriminate].
      intros H. inversion H; subst.
      apply (parse_chars_length _ _ _ _ (le_n _)) in E. simpl. lia. }
    destruct (Ascii.eqb c "[").
    { destruct (RefJSON.strip_prefix "]" (RefJSON.skip_ws t)) as [r'|] eqn:E.
      - intros H. inversion H; subst. apply strip_prefix_length in E.
        pose proof (skip_ws_length t). simpl in *. lia.
      - destruct (RefJSON.parse_items fuel t) as [[items r']|] eqn:Ei;
          [|discriminate].
        intros H. inversion H; subst. apply IHi in Ei.
        cbn [weight]. lia. }
    destruct (Ascii.eqb c "{").
    { destruct (RefJSON.strip_prefix "}" (RefJSON.skip_ws t)) as [r'|] eqn:E.
      - intros H. inversion H; subst. apply strip_prefix_length in E.
        pose proof (skip_ws_length t). simpl in *. lia.
      - destruct (RefJSON.parse_members fuel t) as [[fields r']|] eqn:Em;
          [|discriminate].
        intros H. inversion H; subst. apply IHm in Em.
        cbn [weight]. lia. }
    destruct (RefJSON.parse_number (String c t)) as [[n r']|] eqn:E;
      [|discriminate].
    intros H. inversion H; subst. apply parse_number_length in E.
    simpl in *. lia.
  - intros s vs r. cbn [RefJSON.parse_items].
    destruct (RefJSON.parse_value fuel s) as [[v r1]|] eqn:Ev; [|discriminate].
    apply IHv in Ev.
    pose proof (skip_ws_length r1) as Hws.
    destruct (RefJSON.skip_ws r1) as [|c t]; [discriminate|].
    simpl in Hws.
    destruct (Ascii.eqb c ",").
    + destruct (RefJSON.parse_items fuel t) as [[vs' r']|] eqn:Ei;
        [|discriminate].
      intros H. inversion H; subst. apply IHi in Ei. simpl. lia.
    + destruct (Ascii.eqb c "]"); [|discriminate].
      intros H. inversion H; subst. simpl. lia.
  - intros s kvs r. cbn [RefJSON.parse_members].
    pose proof (skip_ws_length s) as Hws.
    destruct (RefJSON.strip_prefix (String RefJSON.dquote "") (RefJSON.skip_ws s)) as [r0|] eqn:E0;
      [|discriminate].
    apply strip_prefix_length in E0.
    destruct (RefJSON.parse_chars r0) as [[k r1]|] eqn:Ek; [|discriminate].
    apply (parse_chars_length _ _ _ _ (le_n _)) in Ek.
    pose proof (skip_ws_length r1) as Hws1.
    destruct (RefJSON.strip_prefix ":" (RefJSON.skip_ws r1)) as [r2|] eqn:E2;
      [|discriminate].
    apply strip_prefix_length in E2.
    destruct (RefJSON.parse_value fuel r2) as [[v r3]|] eqn:Ev;
      [|discriminate].
    apply IHv in Ev.
    pose proof (skip_ws_length r3) as Hws3.
    destruct (RefJSON.skip_ws r3) as [|c t]; [discriminate|].
    simpl in Hws3.
    destruct (Ascii.eqb c ",").
    + destruct (RefJSON.parse_members fuel t) as [[kvs' r']|] eqn:Em;
        [|discriminate].
      intros H. inversion H; subst. apply IHm in Em. simpl in *. lia.
    + destruct (Ascii.eqb c "}"); [|discriminate].
      intros H. inversion H; subst. simpl in *. lia.
Qed.

Lemma lookup_weight k fields v :
  lookup k fields = Some v ->
  weight v <= list_sum (map (fun kv => weight (snd kv)) fields).
Proof.
  induction fields as [|[k' w] fields IH]; simpl; [discriminate|].
  destruct (lookup k fields) as [x|].
  - intros H. inversion H; subst. specialize (IH eq_refl). lia.
  - destruct (String.eqb k k'); [|discriminate].
    intros H. inversion H; subst. lia.
Qed.

Lemma reference_parse_field_length t fields k p :
  RefJSON.parse t = Ok (JObj fields) -> lookup k fields = Some (JStr p) ->
  String.length p < String.length t.
Proof.
  unfold RefJSON.parse.
  destruct (RefJSON.parse_value _ t) as [[v r]|] eqn:E; [|discriminate].
  destruct (RefJSON.skip_ws r); [|discriminate].
  intros H Hl. inversion H; subst.
  apply (proj1 (parse_length _)) in E. apply lookup_weight in Hl.
  cbn [weight] in *. lia.
Qed.

#[export] Instance reference_length_laws :
  LengthLaws (base64 := base64_reference) (JSON_ := JSON_reference).
Proof.
  constructor.
  - exact reference_urlDecode_length.
  - exact reference_parse_field_length.
Qed.

(** ** JSON: parsing what was serialised *)

Lemma json_induction (P : json -> Prop) :
  P JNull -> (forall b, P (JBool b)) -> (forall n, P (JNum n)) ->
  (forall s, P (JStr s)) ->
  (forall items, Forall P items -> P (JArr items)) ->
  (forall fields, Forall (fun kv => P (snd kv)) fields -> P (JObj fields)) ->
  forall v, P v.
Proof.
  intros Hnull Hbool Hnum Hstr Harr Hobj.
  fix IH 1. intros [|b|n|s|items|fields].
  - exact Hnull.
  - apply Hbool.
  - apply Hnum.
  - apply Hstr.
  - apply Harr. induction items as [|x items IHitems]; constructor.
    + apply IH.
    + exact IHitems.
  - apply Hobj. induction fields as [|[k x] fields IHfields]; constructor.
    + apply IH.
    + exact IHfields.
Qed.

(** *** Strings *)

Lemma parse_chars_escape c tail :
  RefJSON.parse_chars (RefJSON.escape c ++ tail)
  = match RefJSON.parse_chars tail with
    | Some (str, r) => Some (String c str, r)
    | None => None
    end.
Proof.
  destruct c as [[] [] [] [] [] [] [] []]; reflexivity.
Qed.

Lemma parse_chars_escape_all s rest :
  RefJSON.parse_chars (RefJSON.escape_all s ++ String RefJSON.dquote rest)
  = Some (s, rest).
Proof.
  induction s as [|c s IH]; [reflexivity|].
  cbn [RefJSON.escape_all]. rewrite append_assoc, parse_chars_escape, IH.
  reflexivity.
Qed.

Lemma quote_app s rest :
  RefJSON.quote s ++ rest
  = String RefJSON.dquote (RefJSON.escape_all s ++ String RefJSON.dquote rest).
Proof.
  unfold RefJSON.quote. cbn [append]. rewrite append_assoc. reflexivity.
Qed.

(** *** Numbers *)

Lemma digit_char_spec d :
  (d < 10)%N ->
  RefJSON.is_digit (digit_char d) = true /\
  (N_of_ascii (digit_char d) - 48 = d)%N /\
  (d <> 0%N -> Ascii.eqb (digit_char d) "0" = false).
Proof.
  intros H. rewrite <- (N2Nat.id d).
  assert (Hn : N.to_nat d < 10) by lia.
  revert Hn. generalize (N.to_nat d). clear H. intros n Hn.
  do 10 (destruct n as [|n];
         [repeat split; try reflexivity; intros E; exfalso; apply E;
          reflexivity|]).
  lia.
Qed.

Lemma digit_class c :
  RefJSON.is_digit c = true ->
  RefJSON.is_ws c = false /\ Ascii.eqb c "n" = false /\
  Ascii.eqb c "t" = false /\ Ascii.eqb c "f" = false /\
  Ascii.eqb c RefJSON.dquote = false /\ Ascii.eqb c "[" = false /\
  Ascii.eqb c "{" = false /\ Ascii.eqb c "-" = false /\
  Ascii.eqb c "]" = false.
Proof.
  destruct c as [[] [] [] [] [] [] [] []];
    try discriminate; intros _; repeat split; reflexivity.
Qed.

Lemma delimited_spec rest :
  delimited rest = true ->
  RefJSON.integer_ends rest = true /\
  RefJSON.skip_ws rest = rest /\
  match rest with
  | EmptyString => True
  | String c _ => RefJSON.is_digit c = false
  end.
Proof.
  destruct rest as [|c rest]; [repeat split|].
  unfold delimited. intros H.
  apply orb_prop in H. destruct H as [H|H];
    [apply orb_prop in H; destruct H as [H|H]|];
    apply Ascii.eqb_eq in H; subst c; repeat split.
Qed.

Lemma parse_digits_chars ds : forall rest acc,
  Forall (fun d => (d < 10)%N) ds ->
  match rest with
  | EmptyString => True
  | String c _ => RefJSON.is_digit c = false
  end ->
  RefJSON.parse_digits
    (string_of_list_ascii (map digit_char ds) ++ rest) acc
  = (fold_left (fun a d => (a * 10 + d)%N) ds acc, rest).
Proof.
  induction ds as [|d ds IH]; intros rest acc Hb Hr.
  - simpl. destruct rest as [|c rest]; [reflexivity|].
    simpl. rewrite Hr. reflexivity.
  - inversion Hb as [|? ? Hd Hb']; subst.
    destruct (digit_char_spec d Hd) as (Hdig & Hval & _).
    cbn [map string_of_list_ascii append RefJSON.parse_digits fold_left].
    rewrite Hdig, Hval. apply IH; assumption.
Qed.

Lemma string_of_N_start n :
  exists c t, string_of_N n = String c t /\ RefJSON.is_digit c = true.
Proof.
  unfold string_of_N. destruct (N.eqb n 0) eqn:E.
  - exists "0"%char, "". split; reflexivity.
  - apply N.eqb_neq in E.
    destruct (to_digits 10 n) as [|d ds] eqn:Hd.
    + exfalso. apply E. rewrite <- (of_to_digits 10 ltac:(lia) n), Hd.
      reflexivity.
    + pose proof (to_digits_bounded 10 ltac:(lia) n) as Hb.
      rewrite Hd in Hb. inversion Hb as [|? ? Hd10 _]; subst.
      eexists _, _. split; [reflexivity|].
      apply (digit_char_spec d Hd10).
Qed.

Lemma parse_natural_string_of_N n rest :
  delimited rest = true ->
  RefJSON.parse_natural (string_of_N n ++ rest) = Some (n, rest).
Proof.
  intros Hrest. destruct (delimited_spec rest Hrest) as (Hend & _ & Hnd).
  unfold string_of_N. destruct (N.eqb n 0) eqn:E.
  - apply N.eqb_eq in E. subst n. cbn. rewrite Hend. reflexivity.
  - apply N.eqb_neq in E.
    pose proof (to_digits_bounded 10 ltac:(lia) n) as Hb.
    pose proof (of_to_digits 10 ltac:(lia) n) as Hv.
    pose proof (to_digits_head 10 ltac:(lia) n) as Hh.
    destruct (to_digits 10 n) as [|d ds] eqn:Hd.
    + exfalso. apply E. rewrite <- Hv. reflexivity.
    + inversion Hb as [|? ? Hd10 _]; subst.
      destruct (digit_char_spec d Hd10) as (Hdig & _ & Hnz).
      specialize (Hnz (Hh d ds eq_refl)).
      unfold RefJSON.parse_natural.
      change (string_of_list_ascii (map digit_char (d :: ds)) ++ rest)
        with (String (digit_char d)
                (string_of_list_ascii (map digit_char ds) ++ rest)).
      cbv beta iota. rewrite Hnz, Hdig.
      change (String (digit_char d)
                (string_of_list_ascii (map digit_char ds) ++ rest))
        with (string_of_list_ascii (map digit_char (d :: ds)) ++ rest).
      rewrite (parse_digits_chars (d :: ds) rest 0%N Hb Hnd).
      rewrite Hend. reflexivity.
Qed.

Lemma parse_number_string_of_Z n rest :
  delimited rest = true ->
  RefJSON.parse_number (string_of_Z n ++ rest) = Some (n, rest).
Proof.
  intros Hrest. unfold string_of_Z. destruct (Z.ltb n 0) eqn:E.
  - apply Z.ltb_lt in E. cbn [append RefJSON.parse_number].
    change (Ascii.eqb "-" "-") with true. cbv iota.
    rewrite parse_natural_string_of_N by assumption.
    f_equal. f_equal. lia.
  - apply Z.ltb_ge in E.
    destruct (string_of_N_start (Z.abs_N n)) as (c & t & Hs & Hc).
    unfold RefJSON.parse_number. rewrite Hs. cbn [append].
    destruct (digit_class c Hc) as (_ & _ & _ & _ & _ & _ & _ & -> & _).
    change (String c (t ++ rest)) with (String c t ++ rest).
    rewrite <- Hs, parse_natural_string_of_N by assumption.
    f_equal. f_equal. lia.
Qed.

Lemma string_of_Z_start n :
  exists c t,
    string_of_Z n = String c t /\
    (RefJSON.is_digit c = true \/ c = "-"%char).
Proof.
  unfold string_of_Z. destruct (Z.ltb n 0).
  - eexists _, _. split; [reflexivity|]. right. reflexivity.
  - destruct (string_of_N_start (Z.abs_N n)) as (c & t & Hs & Hc).
    exists c, t. split; [exact Hs|]. left. exact Hc.
Qed.

(** *** Values *)

Lemma number_start_class c :
  RefJSON.is_digit c = true \/ c = "-"%char ->
  RefJSON.is_ws c = false /\ Ascii.eqb c "n" = false /\
  Ascii.eqb c "t" = false /\ Ascii.eqb c "f" = false /\
  Ascii.eqb c RefJSON.dquote = false /\ Ascii.eqb c "[" = false /\
  Ascii.eqb c "{" = false /\ Ascii.eqb c "]" = false.
Proof.
  intros [H| ->]; [|repeat split].
  destruct (digit_class c H) as (? & ? & ? & ? & ? & ? & ? & ? & ?).
  repeat split; assumption.
Qed.

(** A serialised value starts with a character that is neither white
    space nor a closing bracket. *)
Lemma stringify_start v :
  exists c t,
    RefJSON.stringify v = String c t /\
    RefJSON.is_ws c = false /\ Ascii.eqb c "]" = false.
Proof.
  destruct v as [|[]|n|s|items|fields];
    try (eexists _, _; repeat split; reflexivity).
  destruct (string_of_Z_start n) as (c & t & Hs & Hc).
  exists c, t. split; [exact Hs|].
  destruct (number_start_class c Hc) as (? & _ & _ & _ & _ & _ & _ & ?).
  split; assumption.
Qed.

Lemma concat_cons2 sep a b l :
  String.concat sep (a :: b :: l) = a ++ sep ++ String.concat sep (b :: l).
Proof. reflexivity. Qed.

Lemma parse_items_stringify items :
  Forall parses_back items -> items <> [] ->
  forall fuel rest,
    list_sum (map (fun x => S (budget x)) items) <= fuel ->
    RefJSON.parse_items fuel
      (String.concat "," (map RefJSON.stringify items) ++ String "]" rest)
    = Some (items, rest).
Proof.
  induction 1 as [|x items Hx Hitems IH]; [congruence|].
  intros _ fuel rest Hfuel.
  destruct fuel as [|fuel]; [simpl in Hfuel; lia|].
  destruct items as [|y items]; cbn [map list_sum fold_right] in Hfuel.
  - cbn [map String.concat RefJSON.parse_items].
    rewrite (Hx fuel (String "]" rest)) by (try reflexivity; lia).
    reflexivity.
  - cbn [map]. rewrite concat_cons2, append_assoc.
    cbn [RefJSON.parse_items].
    change ("," ++ String.concat "," (RefJSON.stringify y
                                       :: map RefJSON.stringify items))
      with (String "," (String.concat "," (map RefJSON.stringify
                                               (y :: items)))).
    cbn [append].
    rewrite (Hx fuel) by (try reflexivity; lia).
    cbn [RefJSON.skip_ws].
    change (RefJSON.is_ws ",") with false. cbv iota.
    change (Ascii.eqb "," ",") with true. cbv iota.
    rewrite IH by (try discriminate; cbn [map list_sum fold_right]; lia).
    reflexivity.
Qed.

Lemma member_text_app k v tail :
  member_text (k, v) ++ tail
  = String RefJSON.dquote
      (RefJSON.escape_all k
       ++ String RefJSON.dquote (String ":" (RefJSON.stringify v ++ tail))).
Proof.
  unfold member_text, RefJSON.quote. cbn [fst snd append].
  rewrite !append_assoc. reflexivity.
Qed.

Lemma parse_members_stringify fields :
  Forall (fun kv => parses_back (snd kv)) fields -> fields <> [] ->
  forall fuel rest,
    list_sum (map (fun kv => S (budget (snd kv))) fields) <= fuel ->
    RefJSON.parse_members fuel
      (String.concat "," (map member_text fields) ++ String "}" rest)
    = Some (fields, rest).
Proof.
  induction 1 as [|[k x] fields Hx Hfields IH]; [congruence|].
  intros _ fuel rest Hfuel.
  destruct fuel as [|fuel]; [simpl in Hfuel; lia|].
  cbn [snd] in Hx.
  destruct fields as [|kv fields];
    cbn [map list_sum fold_right snd] in Hfuel.
  - cbn [map String.concat]. rewrite member_text_app.
    cbn [RefJSON.parse_members RefJSON.skip_ws].
    change (RefJSON.is_ws RefJSON.dquote) with false. cbv iota.
    cbn [RefJSON.strip_prefix].
    change (Ascii.eqb RefJSON.dquote RefJSON.dquote) with true. cbv iota.
    rewrite parse_chars_escape_all.
    cbn [RefJSON.skip_ws]. change (RefJSON.is_ws ":") with false. cbv iota.
    cbn [RefJSON.strip_prefix].
    change (Ascii.eqb ":" ":") with true. cbv iota.
    rewrite (Hx fuel (String "}" rest)) by (try reflexivity; lia).
    reflexivity.
  - cbn [map]. rewrite concat_cons2, append_assoc, member_text_app.
    cbn [RefJSON.parse_members RefJSON.skip_ws].
    change (RefJSON.is_ws RefJSON.dquote) with false. cbv iota.
    cbn [RefJSON.strip_prefix].
    change (Ascii.eqb RefJSON.dquote RefJSON.dquote) with true. cbv iota.
    rewrite parse_chars_escape_all.
    cbn [RefJSON.skip_ws]. change (RefJSON.is_ws ":") with false. cbv iota.
    cbn [RefJSON.strip_prefix].
    change (Ascii.eqb ":" ":") with true. cbv iota.
    change ("," ++ String.concat "," (member_text kv
                                       :: map member_text fields))
      with (String "," (String.concat "," (map member_text (kv :: fields)))).
    cbn [append].
    rewrite (Hx fuel) by (try reflexivity; lia).
    cbn [RefJSON.skip_ws].
    change (RefJSON.is_ws ",") with false. cbv iota.
    change (Ascii.eqb "," ",") with true. cbv iota.
    rewrite IH by (try discriminate; cbn [map list_sum fold_right]; lia).
    reflexivity.
Qed.

Lemma stringify_array items rest :
  RefJSON.stringify (JArr items) ++ rest
  = String "["
      (String.concat "," (map RefJSON.stringify items) ++ String "]" rest).
Proof.
  cbn [RefJSON.stringify append]. rewrite append_assoc. reflexivity.
Qed.

Lemma stringify_object fields rest :
  RefJSON.stringify (JObj fields) ++ rest
  = String "{"
      (String.concat "," (map member_text fields) ++ String "}" rest).
Proof.
  cbn [RefJSON.stringify append]. rewrite append_assoc. reflexivity.
Qed.

Lemma parse_value_stringify v : parses_back v.
Proof.
  induction v as [|b|n|s|items IH|fields IH] using json_induction;
    intros fuel rest Hfuel Hrest;
    (destruct fuel as [|fuel]; [simpl in Hfuel; lia|]).
  - reflexivity.
  - destruct b; reflexivity.
  - destruct (string_of_Z_start n) as (c & t & Hs & Hc).
    destruct (number_start_class c Hc)
      as (Hws & Hn & Ht & Hf & Hq & Ha & Ho & _).
    cbn [RefJSON.stringify RefJSON.parse_value]. rewrite Hs.
    cbn [append RefJSON.skip_ws]. rewrite Hws, Hn, Ht, Hf, Hq, Ha, Ho.
    change (String c (t ++ rest)) with (String c t ++ rest).
    rewrite <- Hs, parse_number_string_of_Z by assumption. reflexivity.
  - cbn [RefJSON.stringify]. rewrite quote_app.
    cbn [RefJSON.parse_value RefJSON.skip_ws].
    change (RefJSON.is_ws RefJSON.dquote) with false. cbv iota.
    change (Ascii.eqb RefJSON.dquote "n") with false.
    change (Ascii.eqb RefJSON.dquote "t") with false.
    change (Ascii.eqb RefJSON.dquote "f") with false.
    change (Ascii.eqb RefJSON.dquote RefJSON.dquote) with true. cbv iota.
    rewrite parse_chars_escape_all. reflexivity.
  - rewrite stringify_array.
    cbn [RefJSON.parse_value RefJSON.skip_ws].
    change (RefJSON.is_ws "[") with false. cbv iota.
    change (Ascii.eqb "[" "n") with false.
    change (Ascii.eqb "[" "t") with false.
    change (Ascii.eqb "[" "f") with false.
    change (Ascii.eqb "[" RefJSON.dquote) with false.
    change (Ascii.eqb "[" "[") with true. cbv iota.
    destruct items as [|x items]; [reflexivity|].
    destruct (stringify_start x) as (c & t & Hs & Hws & Hc).
    assert (E : RefJSON.strip_prefix "]"
                  (RefJSON.skip_ws
                     (String.concat "," (map RefJSON.stringify (x :: items))
                      ++ String "]" rest)) = None).
    { cbn [map]. destruct items as [|y items].
      - cbn [String.concat map]. rewrite Hs.
        cbn [append RefJSON.skip_ws]. rewrite Hws.
        cbn [RefJSON.strip_prefix]. rewrite Ascii.eqb_sym, Hc. reflexivity.
      - cbn [map]. rewrite concat_cons2, Hs.
        cbn [append RefJSON.skip_ws]. rewrite Hws.
        cbn [RefJSON.strip_prefix]. rewrite Ascii.eqb_sym, Hc. reflexivity. }
    rewrite E.
    rewrite parse_items_stringify;
      [reflexivity|exact IH|discriminate|
       cbn [budget] in Hfuel; cbn [map list_sum fold_right] in *; lia].
  - rewrite stringify_object.
    cbn [RefJSON.parse_value RefJSON.skip_ws].
    change (RefJSON.is_ws "{") with false. cbv iota.
    change (Ascii.eqb "{" "n") with false.
    change (Ascii.eqb "{" "t") with false.
    change (Ascii.eqb "{" "f") with false.
    change (Ascii.eqb "{" RefJSON.dquote) with false.
    change (Ascii.eqb "{" "[") with false.
    change (Ascii.eqb "{" "{") with true. cbv iota.
    destruct fields as [|[k x] fields]; [reflexivity|].
    assert (E : RefJSON.strip_prefix "}"
                  (RefJSON.skip_ws
                     (String.concat "," (map member_text ((k, x) :: fields))
                      ++ String "}" rest)) = None).
    { cbn [map]. destruct fields as [|kv fields].
      - cbn [String.concat map]. rewrite member_text_app. reflexivity.
      - cbn [map]. rewrite concat_cons2, append_assoc, member_text_app.
        reflexivity. }
    rewrite E.
    rewrite parse_members_stringify;
      [reflexivity|exact IH|discriminate|
       cbn [budget] in Hfuel; cbn [map list_sum fold_right] in *; lia].
Qed.

(** *** The budget of [parse] is enough *)

Lemma concat_length (f : json -> string) items :
  list_sum (map (fun x => S (String.length (f x))) items)
  <= S (String.length (String.concat "," (map f items))).
Proof.
  induction items as [|x items IH]; [simpl; lia|].
  destruct items as [|y items].
  - simpl. lia.
  - cbn [map] in *. rewrite concat_cons2, !length_append.
    remember (String.concat "," (f y :: map f items)) as tail.
    cbn [list_sum fold_right] in *.
    change (String.length ",") with 1. lia.
Qed.

Lemma concat_members_length fields :
  list_sum (map (fun kv => S (String.length (member_text kv))) fields)
  <= S (String.length (String.concat "," (map member_text fields))).
Proof.
  induction fields as [|x fields IH]; [simpl; lia|].
  destruct fields as [|y fields].
  - simpl. lia.
  - cbn [map] in *. rewrite concat_cons2, !length_append.
    remember (String.concat "," (member_text y :: map member_text fields))
      as tail.
    cbn [list_sum fold_right] in *.
    change (String.length ",") with 1. lia.
Qed.

Lemma stringify_nonempty v : 1 <= String.length (RefJSON.stringify v).
Proof.
  destruct (stringify_start v) as (c & t & -> & _). simpl. lia.
Qed.

Lemma budget_bound v : budget v <= 2 * String.length (RefJSON.stringify v).
Proof.
  induction v as [|b|n|s|items IH|fields IH] using json_induction.
  - pose proof (stringify_nonempty JNull). cbn [budget]. lia.
  - pose proof (stringify_nonempty (JBool b)). cbn [budget]. lia.
  - pose proof (stringify_nonempty (JNum n)). cbn [budget]. lia.
  - pose proof (stringify_nonempty (JStr s)). cbn [budget]. lia.
  - cbn [budget RefJSON.stringify]. rewrite !length_append.
    assert (Hs : list_sum (map (fun x => S (budget x)) items)
                 <= 2 * list_sum (map (fun x =>
                                         S (String.length
                                              (RefJSON.stringify x))) items)).
    { unfold list_sum. induction IH as [|x items Hx _ IHl];
        cbn [map fold_right] in *; lia. }
    pose proof (concat_length RefJSON.stringify items) as Hc.
    remember (String.concat "," (map RefJSON.stringify items)) as body.
    change (String.length "[") with 1. change (String.length "]") with 1.
    lia.
  - cbn [budget RefJSON.stringify]. rewrite !length_append.
    assert (Hs : list_sum (map (fun kv => S (budget (snd kv))) fields)
                 <= 2 * list_sum (map (fun kv =>
                                         S (String.length (member_text kv)))
                                      fields)).
    { unfold list_sum. induction IH as [|[k x] fields Hx _ IHl];
        cbn [map fold_right snd] in *; [lia|].
      unfold member_text at 1. cbn [fst snd].
      rewrite !length_append. lia. }
    change (map (fun kv => RefJSON.quote (fst kv) ++ ":"
                           ++ RefJSON.stringify (snd kv)) fields)
      with (map member_text fields).
    pose proof (concat_members_length fields) as Hc.
    remember (String.concat "," (map member_text fields)) as body.
    change (String.length "{") with 1. change (String.length "}") with 1.
    lia.
Qed.

Lemma reference_parse_stringify v :
  RefJSON.parse (RefJSON.stringify v) = Ok v.
Proof.
  unfold RefJSON.parse.
  rewrite <- (append_empty_r (RefJSON.stringify v)) at 2.
  rewrite parse_value_stringify; [reflexivity| |reflexivity].
  pose proof (budget_bound v). lia.
Qed.

#[export] Instance JSON_reference_laws : JSONLaws (JSON_ := JSON_reference).
Proof. constructor. exact reference_parse_stringify. Qed.

(** ** Each proof is shorter than the token that carries it *)

Lemma split_nth_length sep s : forall i seg,
  nth_error (split sep s) i = Some seg ->
  String.length seg <= String.length s.
Proof.
  induction s as [|c s IH]; intros i seg.
  - destruct i as [|[|i]]; simpl; intros H; inversion H; simpl; lia.
  - simpl. destruct (Ascii.eqb c sep).
    + destruct i as [|i]; simpl.
      * intros H. inversion H. simpl. lia.
      * intros H. apply IH in H. lia.
    + destruct (split sep s) as [|seg0 segs] eqn:E.
      * destruct i as [|[|i]]; simpl; intros H; inversion H; simpl; lia.
      * destruct i as [|i]; simpl.
        -- intros H. inversion H; subst.
           specialize (IH 0 seg0 eq_refl). simpl. lia.
        -- intros H. specialize (IH (S i) seg H). lia.
Qed.

Section Termination.

Context {base64 : Base64} {JSON_ : JSON} {validation : Validation}
        {platform : Platform} {lengths : LengthLaws}.

Lemma decode_proof_shorter s d p :
  decode s = Ok d -> get "prf" (payload d) = Ok (Some (JStr p)) ->
  String.length p < String.length s.
Proof.
  unfold decode, urlDecode_at.
  destruct (nth_error (split "." s) 0) as [seg0|]; [|discriminate].
  destruct (urlDecode seg0) as [t0|]; [|discriminate]. cbn [bind].
  destruct (JSON_parse t0) as [h|]; [|discriminate]. cbn [bind].
  destruct (nth_error (split "." s) 1) as [seg1|] eqn:E1; [|discriminate].
  destruct (urlDecode seg1) as [t1|] eqn:Eu; [|discriminate]. cbn [bind].
  destruct (JSON_parse t1) as [pl|] eqn:Ep; [|discriminate]. cbn [bind].
  intros H Hprf. inversion H; subst. cbn [payload] in Hprf.
  destruct pl; try discriminate. cbn [get] in Hprf. inversion Hprf.
  pose proof (parse_field_length _ _ _ _ Ep H1).
  pose proof (urlDecode_length _ _ Eu).
  pose proof (split_nth_length _ _ _ _ E1). lia.
Qed.

Lemma isValid_within n : forall u,
  proof_length u <= n -> exists r, isValid (S n) u = Some r.
Proof.
  induction n as [|n IH]; intros u Hn; rewrite isValid_step.
  - destruct (get "iss" (payload u)) as [iss|e]; cbn [bindF];
      [|eexists; reflexivity].
    cbv zeta. destruct (negb _); [eexists; reflexivity|].
    unfold proof_length in Hn.
    destruct (get "prf" (payload u)) as [[p|]|e]; cbn [bindF];
      try (eexists; reflexivity).
    destruct (truthy (Some p)) eqn:Ht; cbn [negb];
      [|eexists; reflexivity].
    destruct p; cbn [decode_value bindF]; try (eexists; reflexivity).
    destruct s; [discriminate|simpl in Hn; lia].
  - destruct (get "iss" (payload u)) as [iss|e]; cbn [bindF];
      [|eexists; reflexivity].
    cbv zeta. destruct (negb _); [eexists; reflexivity|].
    unfold proof_length in Hn.
    destruct (get "prf" (payload u)) as [[p|]|e]; cbn [bindF];
      try (eexists; reflexivity).
    destruct (truthy (Some p)) eqn:Ht; cbn [negb];
      [|eexists; reflexivity].
    destruct p; cbn [decode_value bindF]; try (eexists; reflexivity).
    destruct (decode s) as [prf|e] eqn:Hd; cbn [bindF];
      [|eexists; reflexivity].
    destruct (get "aud" (payload prf)) as [aud|e]; cbn [bindF];
      [|eexists; reflexivity].
    destruct (negb _); [eexists; reflexivity|].
    apply IH. unfold proof_length.
    destruct (get "prf" (payload prf)) as [[[]|]|] eqn:Hp; try lia.
    pose proof (decode_proof_shorter _ _ _ Hd Hp). lia.
Qed.

End Termination.

(** ** Chains of any depth validate *)

Lemma makeUrlSafe_chars l :
  CommonBase64.makeUrlSafe (chars_of_sextets l)
  = string_of_list_ascii (map url_char l).
Proof.
  unfold CommonBase64.makeUrlSafe, chars_of_sextets.
  rewrite !replace_chars, !map_map.
  rewrite <- (append_empty_r (string_of_list_ascii _)).
  change "" with (string_of_list_ascii (repeat "="%char 0)).
  rewrite strip_padding_app.
  - f_equal. apply map_ext. intros x. apply url_char_spec.
  - apply Forall_forall. intros c Hc. apply in_map_iff in Hc.
    destruct Hc as (x & <- & _).
    pose proof (url_char_spec x) as E. cbv zeta in E. rewrite E.
    apply url_char_plain.
Qed.

Lemma no_dot_url_chars l :
  no_dot (string_of_list_ascii (map url_char l)) = true.
Proof.
  induction l as [|x l IH]; [reflexivity|].
  simpl. rewrite IH.
  destruct (url_char_plain x) as (_ & -> & _). reflexivity.
Qed.

Lemma to_sextets_nonempty data : data <> [] -> to_sextets data <> [].
Proof.
  destruct data as [|[] [|[] [|[] rest]]]; [congruence| | |]; discriminate.
Qed.

Lemma string_of_N_nonempty n : list_ascii_of_string (string_of_N n) <> [].
Proof.
  destruct (string_of_N_start n) as (c & t & -> & _). discriminate.
Qed.

(** The stand-in signature of a message: not empty, without a dot, and
    accepted by the stand-in verifier. *)
Lemma example_signature msg :
  let sig := CommonBase64.makeUrlSafe (Example.keystore_sign msg) in
  String.eqb sig "" = false /\ no_dot sig = true /\
  CommonBase64.makeUrlUnsafe sig = Example.keystore_sign msg.
Proof.
  unfold Example.keystore_sign. cbv zeta.
  rewrite encode_by_groups, append_empty_r, makeUrlSafe_chars.
  split; [|split].
  - pose proof (to_sextets_nonempty _ (string_of_N_nonempty
                                         (Example.checksum msg))) as Hne.
    destruct (to_sextets _); [congruence|reflexivity].
  - apply no_dot_url_chars.
  - apply makeUrlUnsafe_url_chars.
Qed.

Lemma encode_not_empty u : String.eqb (encode u) "" = false.
Proof.
  unfold encode. destruct (encodeHeader (header u)); reflexivity.
Qed.

Lemma decode_encode_link p :
  decode (encode (Deep.link p)) = Ok (Deep.link p).
Proof.
  destruct (example_signature
              (encodeHeader Deep.link_header ++ "."
               ++ encodePayload (Deep.link_payload p)))
    as (Hne & Hnd & _).
  rewrite decode_encode.
  - unfold Deep.link at 2 3 4. cbn [header payload signature spread].
    unfold or_null. unfold sign. cbv zeta.
    change makeUrlSafe with CommonBase64.makeUrlSafe.
    change keystore_sign with Example.keystore_sign.
    rewrite Hne. reflexivity.
  - exact Hnd.
Qed.

Lemma isValid_link_root fuel :
  isValid (S fuel) (Deep.link None) = Some (Ok true).
Proof.
  destruct (example_signature (signing_input (Deep.link None)))
    as (Hne & _ & Hv).
  rewrite isValid_step.
  change (get "iss" (payload (Deep.link None)))
    with (Ok (Some (JStr Deep.who))).
  cbn [bindF]. cbv zeta.
  change (or_string (signature (Deep.link None)) "")
    with (or_string (Some (CommonBase64.makeUrlSafe
                             (Example.keystore_sign
                                (signing_input (Deep.link None))))) "").
  unfold or_string. rewrite Hne.
  change makeUrlUnsafe with CommonBase64.makeUrlUnsafe. rewrite Hv.
  change (verifySignedData ?d (Some (JStr Deep.who)) ?s)
    with (String.eqb s (Example.keystore_sign d)).
  rewrite String.eqb_refl. reflexivity.
Qed.

Lemma isValid_link_step fuel s prf :
  String.eqb s "" = false -> decode s = Ok prf ->
  get "aud" (payload prf) = Ok (Some (JStr Deep.who)) ->
  isValid (S fuel) (Deep.link (Some s)) = isValid fuel prf.
Proof.
  intros Hs Hd Haud.
  destruct (example_signature (signing_input (Deep.link (Some s))))
    as (Hne & _ & Hv).
  rewrite isValid_step.
  change (get "iss" (payload (Deep.link (Some s))))
    with (Ok (Some (JStr Deep.who))).
  cbn [bindF]. cbv zeta.
  change (or_string (signature (Deep.link (Some s))) "")
    with (or_string (Some (CommonBase64.makeUrlSafe
                             (Example.keystore_sign
                                (signing_input (Deep.link (Some s)))))) "").
  unfold or_string. rewrite Hne.
  change makeUrlUnsafe with CommonBase64.makeUrlUnsafe. rewrite Hv.
  change (verifySignedData ?d (Some (JStr Deep.who)) ?x)
    with (String.eqb x (Example.keystore_sign d)).
  rewrite String.eqb_refl. cbn [negb].
  change (get "prf" (payload (Deep.link (Some s))))
    with (Ok (Some (JStr s))).
  cbn [bindF truthy]. rewrite Hs. cbn [negb decode_value].
  rewrite Hd. cbn [bindF]. rewrite Haud. cbn [bindF]. reflexivity.
Qed.

(** A chain of [depth] links needs [depth + 1] levels of recursion, and
    then validates. *)
Lemma isValid_chain depth : forall fuel,
  isValid fuel (Deep.chain depth)
  = if Nat.leb fuel depth then None else Some (Ok true).
Proof.
  induction depth as [|depth IH]; intros [|fuel].
  - reflexivity.
  - apply isValid_link_root.
  - reflexivity.
  - cbn [Deep.chain].
    rewrite (isValid_link_step fuel _ (Deep.chain depth)).
    + rewrite IH. reflexivity.
    + apply encode_not_empty.
    + destruct depth; apply decode_encode_link.
    + destruct depth; reflexivity.
Qed.

(** ** did:key *)

#[export] Instance uint8arrays_reference_laws :
  Uint8arraysLaws (uint8arrays := uint8arrays_reference).
Proof.
  constructor.
  - intros b. apply (rfc4648_decode_encode true).
  - exact base58_decode_encode.
Qed.

#[export] Instance util_reference_laws :
  DidUtilLaws (util := util_reference).
Proof.
  constructor. intros type prefix key.
  cbn [magicBytes parseMagicBytes util_reference].
  unfold DidRegistry.magicBytes.
  destruct (String.eqb type "ed25519") eqn:E1;
    [apply String.eqb_eq in E1; subst;
     intros H; inversion H; subst; reflexivity|].
  destruct (String.eqb type "rsa") eqn:E2;
    [apply String.eqb_eq in E2; subst;
     intros H; inversion H; subst; reflexivity|].
  destruct (String.eqb type "bls12-381") eqn:E3;
    [apply String.eqb_eq in E3; subst;
     intros H; inversion H; subst; reflexivity|].
  discriminate.
Qed.

Lemma startsWith_append p s : startsWith (p ++ s) p = true.
Proof.
  unfold startsWith. induction p as [|c p IH]; simpl.
  - destruct s; reflexivity.
  - rewrite IH. destruct (ascii_dec c c); [reflexivity|congruence].
Qed.

Lemma substr_append p s : substr (String.length p) (p ++ s) = s.
Proof. induction p as [|c p IH]; simpl; [destruct s|]; auto. Qed.

Section DID_properties.

Context {uint8arrays : Uint8arrays} {util : DidUtil}
        {codecs : Uint8arraysLaws} {registry : DidUtilLaws}.

Lemma didToPublicKey_publicKeyToDid key b type prefix :
  magicBytes type = Some prefix ->
  fromString_base64 key = Ok b ->
  exists did,
    publicKeyToDid key type = Ok did /\
    didToPublicKey did = Ok (toString_base64pad b, type).
Proof.
  intros Hm Hk. unfold publicKeyToDid.
  rewrite Hk. cbn [bind]. rewrite Hm.
  eexists. split; [reflexivity|].
  unfold didToPublicKey. rewrite startsWith_append. cbn [negb].
  rewrite substr_append, base58btc_fromString_toString. cbn [bind].
  rewrite (parseMagicBytes_magicBytes _ _ _ Hm). reflexivity.
Qed.

End DID_properties.

(** ** Test vectors for the reference implementations *)

Example base64pad_vector :
  RFC4648.encode true (list_ascii_of_string "hello") = "aGVsbG8=" /\
  RFC4648.decode "aGVsbG8=" = Ok (list_ascii_of_string "hello") /\
  RFC4648.decode "aGVsbG8" = Ok (list_ascii_of_string "hello") /\
  RFC4648.decode "aGVsbG9" = Throw SyntaxError.
Proof. repeat split; reflexivity. Qed.

Example base58btc_vector :
  Base58.encode (list_ascii_of_string "Hello World!") = "2NEpo7TZRRrLZSi2U" /\
  Base58.encode (map ascii_of_N [0; 0; 40; 127; 180; 205]%N) = "11233QC4" /\
  Base58.decode "11233QC4" = Ok (map ascii_of_N [0; 0; 40; 127; 180; 205]%N) /\
  Base58.decode "0OIl" = Throw (Error "Non-base58btc character") /\
  Base58.decode (String (ascii_of_N 195) (String (ascii_of_N 169) "2"))
  = Throw (Error "Non-base58btc character") /\
  Base58.decode (String (ascii_of_N 196) (String (ascii_of_N 128) "2"))
  = Throw Unmodelled.
Proof. repeat split; reflexivity. Qed.

(** Sums of doubles: exact up to [2 ^ 53], then rounded to the nearest
    double, to the even one on a tie, and infinite from [2 ^ 1024] on. *)
Example double_vector :
  to_double (1700000000 + 30) = Int 1700000030 /\
  to_double (2 ^ 53) = Int 9007199254740992 /\
  to_double (2 ^ 53 + 1) = Int 9007199254740992 /\
  to_double (2 ^ 53 + 3) = Int 9007199254740996 /\
  to_double (- (2 ^ 53 + 1)) = Int (-9007199254740992) /\
  to_double (1700000000 + (2 ^ 53 - 1)) = Int 9007200954740992 /\
  to_double (2 ^ 62 + 2 ^ 9) = Int (2 ^ 62) /\
  to_double (2 ^ 62 + 2 ^ 9 + 1) = Int (2 ^ 62 + 2 ^ 10) /\
  to_double (2 ^ 1024 - 2 ^ 971) = Int (2 ^ 1024 - 2 ^ 971) /\
  to_double (2 ^ 1024 - 2 ^ 970) = Infinity false /\
  to_double (- 2 ^ 1024) = Infinity true.
Proof. repeat split; vm_compute; reflexivity. Qed.

(** What [Math.min], [Math.max] and [<=] make of values that are not
    numbers. *)
Example ToNumber_vector :
  ToNumber None = Ok NaN /\
  ToNumber (Some JNull) = Ok (Int 0) /\
  ToNumber (Some (JBool true)) = Ok (Int 1) /\
  ToNumber (Some (JStr "1700003600")) = Ok (Int 1700003600) /\
  ToNumber (Some (JStr "")) = Ok (Int 0) /\
  ToNumber (Some (JStr "soon")) = Ok NaN /\
  ToNumber (Some (JArr [])) = Ok (Int 0) /\
  ToNumber (Some (JArr [JNum 5])) = Ok (Int 5) /\
  ToNumber (Some (JArr [JNum 1; JNum 2])) = Ok NaN /\
  ToNumber (Some (JObj [])) = Ok NaN /\
  ToNumber (Some (JObj [("toString", JNum 1)])) = Throw TypeError /\
  Math_min NaN (Int 5) = NaN /\
  Math_max (Int 5) NaN = NaN /\
  Math_min (Int 5) (Infinity false) = Int 5 /\
  Math_min (Fraction 3 2) (Int 5) = Fraction 3 2 /\
  Math_max (Fraction 3 2) (Int 5) = Int 5 /\
  number_le NaN (Int 5) = false /\
  number_le (Fraction 3 2) (Int 1) = false /\
  number_le (Int 0) (Int 5) = true.
Proof. repeat split; vm_compute; reflexivity. Qed.

(** Numeric text. *)
Example StringToNumber_vector :
  map NumericText.StringToNumber
    [" 12 "; "0x1F"; "0b101"; "0o17"; "1e3"; "1.5"; ".5"; "5."; "-5";
     "+5"; "Infinity"; "-Infinity"; "9007199254740993"; "1e400";
     "1e-400"; "4.9999999999999999999999"; "-0"; "12px"; "1 2"; ".";
     "1e"; "0x"; "-0x10"; "1_0"; "infinity"]
  = [Int 12; Int 31; Int 5; Int 15; Int 1000; Fraction 3 2; Fraction 1 2;
     Int 5; Int (-5); Int 5; Infinity false; Infinity true;
     Int 9007199254740992; Infinity false; Int 0; Int 5; Int 0; NaN; NaN;
     NaN; NaN; NaN; NaN; NaN; NaN].
Proof. vm_compute. reflexivity. Qed.

(** The header every built token carries, as text and as a segment. *)
Example header_vector :
  let header := JObj [("alg", JStr "EdDSA"); ("typ", JStr "JWT");
                      ("uav", JStr "1.0.0")] in
  let segment := "eyJhbGciOiJFZERTQSIsInR5cCI6IkpXVCIsInVhdiI6IjEuMC4wIn0" in
  encodeHeader header = segment /\
  (text <- urlDecode segment ;; JSON_parse text) = Ok header /\
  String.length (JSON_stringify header) = 41.
Proof. repeat split; reflexivity. Qed.

Example json_vector :
  RefJSON.parse " [1, -20, true, null, [], {} ] "
  = Ok (JArr [JNum 1; JNum (-20); JBool true; JNull; JArr []; JObj []]) /\
  RefJSON.stringify (JArr [JNum 1; JNum (-20); JBool false; JNull; JObj []])
  = "[1,-20,false,null,{}]" /\
  RefJSON.parse "[1,]" = Throw SyntaxError /\
  RefJSON.parse "01" = Throw SyntaxError.
Proof. repeat split; reflexivity. Qed.

(** The scenario of the spec: a token built with the default lifetime is
    valid for 90 seconds, and comes back from the wire with the same
    audience, issuer and potency. *)
Example build_encode_decode_scenario :
  exists u t,
    build (Tokens.params "did:key:zBob" (Some "did:key:zAlice") None) = Ok u /\
    decode (encode u) = Ok t /\
    get "aud" (payload t) = Ok (Some (JStr "did:key:zBob")) /\
    get "iss" (payload t) = Ok (Some (JStr "did:key:zAlice")) /\
    get "ptc" (payload t) = Ok (Some (JStr "APPEND")) /\
    get "exp" (payload t) = Ok (Some (JNum 1700000030)) /\
    get "nbf" (payload t) = Ok (Some (JNum 1699999940)) /\
    (1700000030 - 1699999940 = 90)%Z.
Proof.
  exists (Tokens.decoded
            (Tokens.built
               (build (Tokens.params "did:key:zBob"
                                     (Some "did:key:zAlice") None)))).
  eexists. split; [vm_compute; reflexivity|].
  split; [vm_compute; reflexivity|].
  repeat split; reflexivity.
Qed.

(** ** The depth in the message of [extractPayload] *)





(** * The claims *)

Section Claims.

Context {base64 : Base64} {JSON_ : JSON} {validation : Validation}
        {platform : Platform}.

Lemma decode_empty : exists e, decode "" = Throw e.
Proof.
  unfold decode, urlDecode_at. cbn [split nth_error].
  destruct (urlDecode ""); cbn [bind]; [|eexists; reflexivity].
  destruct (JSON_parse a); cbn [bind]; eexists; reflexivity.
Qed.

Lemma decoded_proof_supplied p d :
  decode p = Ok d -> or_null (Some p) = Some p.
Proof.
  intros Hd. destruct p; [|reflexivity].
  destruct decode_empty as [e He]. congruence.
Qed.

(** C1: [isValid] returns [true] exactly when the token heads a proof
    chain in which every signature verifies against the key of that
    token's issuer and the audience of every proof equals the issuer of
    the token that cites it; a token whose signature verifies and that
    has no proof yields [true]. *)
Theorem isValid_true_iff (u : Ucan) :
  ((exists fuel, isValid fuel u = Some (Ok true)) <->
   (exists chain,
       proof_chain u chain /\ Forall signature_verifies chain /\
       links_continuous chain))
  /\ (signature_verifies u -> no_proof u -> isValid 1 u = Some (Ok true)).
Proof.
  split; [split|].
  - intros [fuel H]. exact (isValid_true_chain fuel u H).
  - intros (chain & Hc & Hs & Hl). exists (length chain).
    apply chain_isValid_true; assumption.
  - intros Hs Hn.
    apply (chain_isValid_true u [u]);
      [apply chain_end; exact Hn|constructor; [exact Hs|constructor]|exact I].
Qed.

(** C2 (amended): with a proof that decodes, the timestamps of the
    call are [Math.min] of the proof's [exp] and the requested expiry,
    and [Math.max] of the proof's [nbf] and [now - 60], the fields of
    the proof being taken as numbers the way these functions take their
    arguments.  When the fields are integers these are the minimum and
    the maximum, which the built token carries; a field that the proof
    does not have is [NaN], and so is the timestamp then.  The requested
    expiry is the explicit expiration when it is given and not zero, and
    [now + lifetimeInSeconds] otherwise, the lifetime defaulting to 30.
    The two sums are sums of doubles: exact when they are safe integers,
    rounded to 53 significant bits beyond, and supposed finite. *)
Theorem build_narrows_window (params : BuildParams) (p : string) (d : Ucan) :
  proof params = Some p -> decode p = Ok d ->
  finite_double (requested_exp params) -> finite_double requested_nbf ->
  (forall pe pn,
      get "exp" (payload d) = Ok (Some (JNum pe)) ->
      get "nbf" (payload d) = Ok (Some (JNum pn)) ->
      exists t,
        build params = Ok t /\
        get "exp" (payload t)
          = Ok (Some (JNum (Z.min pe (requested_exp params)))) /\
        get "nbf" (payload t)
          = Ok (Some (JNum (Z.max pn requested_nbf)))) /\
  (forall ve vn pe pn,
      get "exp" (payload d) = Ok ve -> get "nbf" (payload d) = Ok vn ->
      ToNumber ve = Ok pe -> ToNumber vn = Ok pn ->
      let exp := Math_min pe (Int (requested_exp params)) in
      let nbf := Math_max pn (Int requested_nbf) in
      timestamps params (Some d) = Ok (exp, nbf) /\
      (ve = None -> exp = NaN) /\
      (vn = None -> nbf = NaN) /\
      (forall e n,
          exp = Int e -> nbf = Int n ->
          exists t,
            build params = Ok t /\
            get "exp" (payload t) = Ok (Some (JNum e)) /\
            get "nbf" (payload t) = Ok (Some (JNum n)))) /\
  requested_exp params
    = match expiration params with
      | Some e =>
          if Z.eqb e 0
          then round53 (currentTimeInSeconds
                        + default 30 (lifetimeInSeconds params))%Z
          else e
      | None =>
          round53 (currentTimeInSeconds
                   + default 30 (lifetimeInSeconds params))%Z
      end /\
  requested_nbf = round53 (currentTimeInSeconds - 60)%Z /\
  (forall z, safe_integer z -> round53 z = z).
Proof.
  intros Hp Hd Hfe Hfn.
  assert (Hp' : or_null (proof params) = Some p).
  { rewrite Hp. exact (decoded_proof_supplied p d Hd). }
  split; [|split; [|split; [reflexivity|split; [reflexivity|]]]].
  - intros pe pn He Hn.
    destruct (build_with_proof params p d pe pn Hfe Hfn Hp' Hd He Hn)
      as (t & Hb & Hexp & Hnbf & _).
    exists t. repeat split; assumption.
  - intros ve vn pe pn He Hn Hpe Hpn exp nbf.
    pose proof (timestamps_narrowed params d ve vn pe pn Hfe Hfn He Hn
                  Hpe Hpn) as Ht.
    fold exp nbf in Ht.
    split; [exact Ht|].
    split; [intros ->; injection Hpe as <-; reflexivity|].
    split; [intros ->; injection Hpn as <-; reflexivity|].
    intros e n Hexp Hnbf. rewrite Hexp, Hnbf in Ht.
    destruct (build_of_timestamps params p d e n Hp' Hd Ht)
      as (t & Hb & He' & Hn' & _).
    exists t. repeat split; assumption.
  - exact round53_safe.
Qed.

(** C3 (amended): [decode] does not count the segments.  A string with a
    single segment fails; a string with two segments or more decodes
    whenever its first two segments are base64url JSON, whatever follows:
    the signature is the third segment, or [null] when it is missing or
    empty, and further segments are ignored.  Any list of segments
    without dots is the list of segments of a string. *)
Theorem decode_ignores_segment_count (ucan : string) :
  let segs := split "." ucan in
  (length segs = 1 -> exists e, decode ucan = Throw e) /\
  (forall h p more,
      segs = h :: p :: more ->
      decode ucan =
      (header <- parse_segment h ;;
       payload <- parse_segment p ;;
       Ok {| header := header; payload := payload;
             signature := or_null (hd_error more) |})) /\
  (forall segs',
      segs' <> [] -> forallb no_dot segs' = true ->
      split "." (String.concat "." segs') = segs').
Proof.
  intros segs. split; [|split].
  - intros Hl. unfold decode, urlDecode_at. fold segs.
    destruct segs as [|h [|p more]]; try discriminate.
    cbn [nth_error]. destruct (urlDecode h); cbn [bind];
      [|eexists; reflexivity].
    destruct (JSON_parse a); cbn [bind]; eexists; reflexivity.
  - intros h p more Hs. unfold decode, urlDecode_at, parse_segment.
    fold segs. rewrite Hs. cbn [nth_error]. destruct more; reflexivity.
  - exact split_concat.
Qed.

(** C4: [isExpired] is [true] exactly when [exp <= now]: at [exp = now]
    and [exp = now - 1] it is [true], at [exp = now + 1] it is [false]. *)
Theorem isExpired_boundary (u : Ucan) (exp : Z) :
  get "exp" (payload u) = Ok (Some (JNum exp)) ->
  let now := currentTimeInSeconds in
  (isExpired u = Ok true <-> (exp <= now)%Z) /\
  (isExpired u = Ok false <-> (now < exp)%Z) /\
  (exp = now -> isExpired u = Ok true) /\
  (exp = (now - 1)%Z -> isExpired u = Ok true) /\
  (exp = (now + 1)%Z -> isExpired u = Ok false).
Proof.
  intros He now. unfold isExpired. rewrite He.
  cbn [bind ToNumber number_le]. fold now.
  destruct (Z.leb_spec exp now) as [H|H]; repeat split;
    try (intros; subst; reflexivity); try discriminate; intros; lia.
Qed.

(** C5 (amended): [build] does not order the window.  A token built
    without proof has [nbf <= exp] exactly when the requested expiry is
    at least [now - 60], as it is in particular when no expiration is
    given and the lifetime is at least -60 seconds; a token built on a
    proof whose [exp] and [nbf] are integers has it exactly when,
    besides, the window of the proof is ordered and overlaps the
    requested one.  The sums are sums of doubles, supposed finite, and
    exact in the particular case. *)
Theorem build_window_order (params : BuildParams) :
  finite_double (requested_exp params) -> finite_double requested_nbf ->
  (or_null (proof params) = None ->
   exists t e n,
     build params = Ok t /\
     get "exp" (payload t) = Ok (Some (JNum e)) /\
     get "nbf" (payload t) = Ok (Some (JNum n)) /\
     ((n <= e)%Z <-> (requested_nbf <= requested_exp params)%Z) /\
     (expiration params = None ->
      (-60 <= default 30 (lifetimeInSeconds params))%Z ->
      safe_integer (currentTimeInSeconds - 60)%Z ->
      safe_integer (currentTimeInSeconds
                    + default 30 (lifetimeInSeconds params))%Z ->
      (n <= e)%Z)) /\
  (forall p d pe pn,
      proof params = Some p -> decode p = Ok d ->
      get "exp" (payload d) = Ok (Some (JNum pe)) ->
      get "nbf" (payload d) = Ok (Some (JNum pn)) ->
      exists t e n,
        build params = Ok t /\
        get "exp" (payload t) = Ok (Some (JNum e)) /\
        get "nbf" (payload t) = Ok (Some (JNum n)) /\
        ((n <= e)%Z <->
         (requested_nbf <= requested_exp params /\ pn <= pe /\
          requested_nbf <= pe /\ pn <= requested_exp params)%Z)).
Proof.
  intros Hfe Hfn. split.
  - intros Hp.
    destruct (build_without_proof params Hfe Hfn Hp)
      as (t & rsc & Hb & Hexp & Hnbf & _).
    exists t, (requested_exp params), requested_nbf.
    split; [exact Hb|]. split; [exact Hexp|]. split; [exact Hnbf|].
    split; [reflexivity|].
    intros Hnone Hl Hsn Hse. unfold requested_exp, requested_nbf.
    rewrite Hnone. cbv zeta.
    rewrite (round53_safe _ Hsn), (round53_safe _ Hse). lia.
  - intros p d pe pn Hp Hd He Hn.
    assert (Hp' : or_null (proof params) = Some p).
    { rewrite Hp. exact (decoded_proof_supplied p d Hd). }
    destruct (build_with_proof params p d pe pn Hfe Hfn Hp' Hd He Hn)
      as (t & Hb & Hexp & Hnbf & _).
    exists t, (Z.min pe (requested_exp params)), (Z.max pn requested_nbf).
    split; [exact Hb|]. split; [exact Hexp|]. split; [exact Hnbf|]. lia.
Qed.


(** C9: the [rsc] of a built payload is the resource when one is given;
    otherwise the [rsc] of the decoded proof when a proof is given;
    otherwise, no proof being given (an empty proof string counts as
    none), the wildcard ["*"]. *)
Theorem build_resource (params : BuildParams) (t : Ucan) :
  build params = Ok t ->
  (forall r,
      resource params = Some r ->
      get "rsc" (payload t) = Ok (Some (resource_value r))) /\
  (forall p d,
      resource params = None -> proof params = Some p -> decode p = Ok d ->
      get "rsc" (payload t) = get "rsc" (payload d)) /\
  (resource params = None ->
   proof params = None \/ proof params = Some "" ->
   get "rsc" (payload t) = Ok (Some (JStr "*"))).
Proof.
  intros Hb.
  destruct (build_inversion _ _ Hb)
    as (dp & e & n & rsc & Hdp & _ & Hrsc & Hpay & _).
  assert (Hget : get "rsc" (payload t) = Ok rsc).
  { rewrite Hpay. destruct rsc; reflexivity. }
  rewrite Hget.
  destruct Hdp as [[Hp ->]|(p & d & Hp & Hd & ->)].
  - split; [|split].
    + intros r Hr. rewrite Hr in Hrsc. congruence.
    + intros p d _ Hp' Hd. exfalso.
      rewrite Hp' in Hp. rewrite (decoded_proof_supplied p d Hd) in Hp.
      discriminate.
    + intros Hr _. rewrite Hr in Hrsc. congruence.
  - assert (Hsome : proof params = Some p).
    { destruct (proof params) as [q|]; [|discriminate]. simpl in Hp.
      destruct (String.eqb q ""); [discriminate|congruence]. }
    split; [|split].
    + intros r Hr. rewrite Hr in Hrsc. congruence.
    + intros p' d' Hr Hp' Hd'. rewrite Hr in Hrsc.
      rewrite Hsome in Hp'. inversion Hp'; subst p'.
      rewrite Hd in Hd'. inversion Hd'; subst d'. congruence.
    + intros _ [Hnone|Hempty]; [congruence|].
      rewrite Hempty in Hsome. inversion Hsome; subst p.
      destruct decode_empty as [err Herr]. congruence.
Qed.

End Claims.

Section Claims_under_laws.

Context {base64 : Base64} {JSON_ : JSON} {validation : Validation}
        {platform : Platform}.

(** C8 (amended): [isValid] has no maximum recursion depth; it descends
    once for each proof of the chain, so that a chain whose signatures
    and links are in order takes as many levels as it has tokens.  It
    returns on every token all the same, because a proof is carried by
    value inside the token that cites it and is strictly shorter than it:
    no more levels are entered than the proof string of the token has
    characters, plus one. *)
Theorem isValid_terminates {lengths : LengthLaws} (u : Ucan) :
  (exists r,
      isValid (S (proof_length u)) u = Some r /\
      forall fuel, S (proof_length u) <= fuel -> isValid fuel u = Some r) /\
  (forall chain,
      proof_chain u chain ->
      Forall signature_verifies chain -> links_continuous chain ->
      isValid (length chain) u = Some (Ok true) /\
      forall fuel, fuel < length chain -> isValid fuel u = None).
Proof.
  split.
  - destruct (isValid_within (proof_length u) u (le_n _)) as [r Hr].
    exists r. split; [exact Hr|].
    intros fuel Hf. exact (isValid_more_fuel _ _ _ Hr fuel Hf).
  - intros chain Hc Hs Hl. split.
    + exact (chain_isValid_true u chain Hc Hs Hl).
    + exact (chain_needs_fuel u chain Hc Hs Hl).
Qed.

(** C10: a token whose signature is [null] is encoded with the third
    segment ["null"], and decoding that text gives a token whose signature
    is the string ["null"], not [null]. *)
Theorem encode_null_signature {codec : Base64Laws} {printer : JSONLaws}
  (u : Ucan) :
  signature u = None ->
  split "." (encode u)
    = [encodeHeader (header u); encodePayload (payload u); "null"] /\
  exists t,
    decode (encode u) = Ok t /\
    signature t = Some "null" /\ signature t <> signature u /\
    header t = header u /\ payload t = spread (payload u).
Proof.
  intros Hs. split.
  - rewrite encode_segments, Hs. apply split_concat; [discriminate|].
    cbn [forallb]. unfold encodeHeader, encodePayload.
    rewrite !urlEncode_no_dot. reflexivity.
  - eexists. split; [apply decode_encode; rewrite Hs; reflexivity|].
    rewrite Hs. cbn. repeat split. discriminate.
Qed.

End Claims_under_laws.

(** C7 (amended): for every supported algorithm tag and every key that
    is base64 text, decoding the encoded identifier returns the tag and
    the bytes of the key written in padded base64; that is the key itself,
    string for string, when the key is given in padded base64, as
    [uint8arrays] writes bytes in [base64pad]. *)
Theorem did_roundtrip_padded {uint8arrays : Uint8arrays} {util : DidUtil}
  {codecs : Uint8arraysLaws} {registry : DidUtilLaws}
  (type : KeyType) (prefix : bytes) :
  magicBytes type = Some prefix ->
  (forall key b,
      fromString_base64 key = Ok b ->
      exists did,
        publicKeyToDid key type = Ok did /\
        didToPublicKey did = Ok (toString_base64pad b, type)) /\
  (forall b,
      let key := toString_base64pad b in
      exists did,
        publicKeyToDid key type = Ok did /\
        didToPublicKey did = Ok (key, type)).
Proof.
  intros Hm. split.
  - intros key b Hk.
    exact (didToPublicKey_publicKeyToDid key b type prefix Hm Hk).
  - intros b key.
    exact (didToPublicKey_publicKeyToDid key b type prefix Hm
             (base64_fromString_toString b)).
Qed.

(** ** The claims at concrete inputs *)

Lemma isValid_true_iff_witness :
  (exists fuel, isValid fuel Tokens.carol = Some (Ok true)) /\
  (exists chain,
      proof_chain Tokens.carol chain /\ Forall signature_verifies chain /\
      links_continuous chain).
Proof.
  assert (H : exists fuel, isValid fuel Tokens.carol = Some (Ok true))
    by (exists 3; vm_compute; reflexivity).
  split; [exact H|].
  exact (proj1 (proj1 (isValid_true_iff Tokens.carol)) H).
Defined.

Lemma build_narrows_window_witness :
  (exists t,
      build Tokens.zero_expiration_params = Ok t /\
      get "exp" (payload t) = Ok (Some (JNum 1700000030)) /\
      get "nbf" (payload t) = Ok (Some (JNum 1699999940))) /\
  (exists t,
      build Windows.longest_params = Ok t /\
      get "exp" (payload t) = Ok (Some (JNum 9007200954740992))) /\
  timestamps Windows.on_no_window
    (Some (Tokens.decoded Windows.no_window))
  = Ok (NaN, NaN) /\
  (exists t,
      build Windows.on_text_window = Ok t /\
      get "exp" (payload t) = Ok (Some (JNum 1700000030)) /\
      get "nbf" (payload t) = Ok (Some (JNum 1699999940))).
Proof.
  split; [|split; [|split]].
  - assert (Hd : decode Tokens.root = Ok (Tokens.decoded Tokens.root))
      by (vm_compute; reflexivity).
    destruct (build_narrows_window Tokens.zero_expiration_params
                Tokens.root (Tokens.decoded Tokens.root) eq_refl Hd)
      as (H & _); [vm_compute; reflexivity..|].
    destruct (H 1700003600 1699999940)%Z as (t & Hb & He & Hn);
      [vm_compute; reflexivity..|].
    exists t. split; [exact Hb|]. split; [exact He|exact Hn].
  - assert (Hd : decode Windows.far_future
                 = Ok (Tokens.decoded Windows.far_future))
      by (vm_compute; reflexivity).
    destruct (build_narrows_window Windows.longest_params
                Windows.far_future (Tokens.decoded Windows.far_future)
                eq_refl Hd)
      as (H & _); [vm_compute; reflexivity..|].
    destruct (H 18014398509481984 1699999940)%Z as (t & Hb & He & _);
      [vm_compute; reflexivity..|].
    exists t. split; [exact Hb|exact He].
  - assert (Hd : decode Windows.no_window
                 = Ok (Tokens.decoded Windows.no_window))
      by (vm_compute; reflexivity).
    destruct (build_narrows_window Windows.on_no_window
                Windows.no_window (Tokens.decoded Windows.no_window)
                eq_refl Hd)
      as (_ & H & _); [vm_compute; reflexivity..|].
    destruct (H None None NaN NaN eq_refl eq_refl eq_refl eq_refl)
      as (Ht & Hexp & Hnbf & _).
    rewrite Ht, (Hexp eq_refl), (Hnbf eq_refl). reflexivity.
  - assert (Hd : decode Windows.text_window
                 = Ok (Tokens.decoded Windows.text_window))
      by (vm_compute; reflexivity).
    destruct (build_narrows_window Windows.on_text_window
                Windows.text_window (Tokens.decoded Windows.text_window)
                eq_refl Hd)
      as (_ & H & _); [vm_compute; reflexivity..|].
    destruct (H (Some (JStr "1700003600")) (Some JNull)
                (Int 1700003600) (Int 0))
      as (_ & _ & _ & Ht); [vm_compute; reflexivity..|].
    destruct (Ht 1700000030 1699999940)%Z as (t & Hb & He & Hn);
      [vm_compute; reflexivity..|].
    exists t. split; [exact Hb|]. split; [exact He|exact Hn].
Defined.

Lemma decode_ignores_segment_count_witness :
  length (split "." Tokens.four_segments) = 4 /\
  decode Tokens.four_segments = Ok (Tokens.decoded Tokens.root).
Proof.
  split; [vm_compute; reflexivity|].
  destruct (decode_ignores_segment_count Tokens.four_segments) as (_ & H & _).
  rewrite (H (nth 0 (split "." Tokens.four_segments) "")
             (nth 1 (split "." Tokens.four_segments) "")
             (skipn 2 (split "." Tokens.four_segments)));
    vm_compute; reflexivity.
Defined.

Lemma isExpired_boundary_witness :
  get "exp" (payload Tokens.carol) = Ok (Some (JNum 1700000030)) /\
  isExpired Tokens.carol = Ok false.
Proof.
  assert (H : get "exp" (payload Tokens.carol) = Ok (Some (JNum 1700000030)))
    by reflexivity.
  split; [exact H|].
  apply (proj2 (proj1 (proj2 (isExpired_boundary Tokens.carol _ H)))).
  vm_compute. reflexivity.
Defined.

Lemma build_window_order_witness :
  (exists t e n,
      build (Tokens.params "did:key:zBob" (Some "did:key:zAlice")
               (Some Tokens.root)) = Ok t /\
      get "exp" (payload t) = Ok (Some (JNum e)) /\
      get "nbf" (payload t) = Ok (Some (JNum n)) /\
      (n <= e)%Z) /\
  (exists t e n,
      build Tokens.early_expiration_params = Ok t /\
      get "exp" (payload t) = Ok (Some (JNum e)) /\
      get "nbf" (payload t) = Ok (Some (JNum n)) /\
      ~ (n <= e)%Z) /\
  (exists t e n,
      build Tokens.unsigned_params = Ok t /\
      get "exp" (payload t) = Ok (Some (JNum e)) /\
      get "nbf" (payload t) = Ok (Some (JNum n)) /\
      (n <= e)%Z).
Proof.
  split; [|split].
  - destruct (build_window_order
                (Tokens.params "did:key:zBob" (Some "did:key:zAlice")
                   (Some Tokens.root)))
      as (_ & H); [vm_compute; reflexivity..|].
    destruct (H Tokens.root (Tokens.decoded Tokens.root)
                1700003600 1699999940)%Z
      as (t & e & n & Hb & He & Hn & Hiff);
      [reflexivity|vm_compute; reflexivity..|].
    exists t, e, n. split; [exact Hb|]. split; [exact He|].
    split; [exact Hn|]. apply Hiff.
    repeat split; vm_compute; discriminate.
  - destruct (build_window_order Tokens.early_expiration_params)
      as (H & _); [vm_compute; reflexivity..|].
    destruct (H eq_refl) as (t & e & n & Hb & He & Hn & Hiff & _).
    exists t, e, n. split; [exact Hb|]. split; [exact He|].
    split; [exact Hn|]. intros Hle. apply Hiff in Hle.
    vm_compute in Hle. apply Hle. reflexivity.
  - destruct (build_window_order Tokens.unsigned_params)
      as (H & _); [vm_compute; reflexivity..|].
    destruct (H eq_refl) as (t & e & n & Hb & He & Hn & _ & Hdef).
    exists t, e, n. split; [exact Hb|]. split; [exact He|].
    split; [exact Hn|].
    apply Hdef; [reflexivity|vm_compute; discriminate
                |vm_compute; reflexivity..].
Defined.


Lemma did_roundtrip_padded_witness :
  magicBytes "ed25519" = Some DidRegistry.EDWARDS_DID_PREFIX /\
  toString_base64pad Tokens.key_bytes = Tokens.key_base64pad /\
  exists did,
    publicKeyToDid Tokens.key_base64pad "ed25519" = Ok did /\
    didToPublicKey did = Ok (Tokens.key_base64pad, "ed25519").
Proof.
  split; [reflexivity|]. split; [vm_compute; reflexivity|].
  exact (proj2 (did_roundtrip_padded "ed25519"
                  DidRegistry.EDWARDS_DID_PREFIX eq_refl)
               Tokens.key_bytes).
Defined.

Lemma isValid_terminates_witness :
  exists r, isValid (S (proof_length Tokens.carol)) Tokens.carol = Some r.
Proof.
  destruct (isValid_terminates (lengths := reference_length_laws)
              Tokens.carol) as ((r & Hr & _) & _).
  exists r. exact Hr.
Defined.

Lemma build_resource_witness :
  build Tokens.zero_expiration_params
    = Ok (Tokens.decoded Tokens.alice_zero) /\
  resource Tokens.zero_expiration_params = None /\
  proof Tokens.zero_expiration_params = Some Tokens.root /\
  decode Tokens.root = Ok (Tokens.decoded Tokens.root) /\
  get "rsc" (payload (Tokens.decoded Tokens.alice_zero))
    = Ok (Some (JStr "*")).
Proof.
  assert (Hb : build Tokens.zero_expiration_params
               = Ok (Tokens.decoded Tokens.alice_zero))
    by (vm_compute; reflexivity).
  assert (Hd : decode Tokens.root = Ok (Tokens.decoded Tokens.root))
    by (vm_compute; reflexivity).
  split; [exact Hb|]. split; [reflexivity|]. split; [reflexivity|].
  split; [exact Hd|].
  rewrite (proj1 (proj2 (build_resource _ _ Hb)) _ _ eq_refl eq_refl Hd).
  vm_compute. reflexivity.
Defined.

Lemma encode_null_signature_witness :
  signature Tokens.unsigned = None /\
  exists t,
    decode (encode Tokens.unsigned) = Ok t /\ signature t = Some "null".
Proof.
  split; [reflexivity|].
  destruct (encode_null_signature (codec := base64_reference_laws)
              (printer := JSON_reference_laws) Tokens.unsigned eq_refl)
    as (_ & t & Hd & Hs & _).
  exists t. split; [exact Hd|exact Hs].
Defined.

(** ** Counterexamples to the claims as they are stated *)

(** C2, as stated: an explicit expiration of zero is not the requested
    expiry; the token expires at [now + 30], not at [min(0, 1700003600)]. *)
Lemma build_zero_expiration :
  exists t d,
    expiration Tokens.zero_expiration_params = Some 0%Z /\
    proof Tokens.zero_expiration_params = Some Tokens.root /\
    decode Tokens.root = Ok d /\
    get "exp" (payload d) = Ok (Some (JNum 1700003600)) /\
    build Tokens.zero_expiration_params = Ok t /\
    get "exp" (payload t) = Ok (Some (JNum 1700000030)) /\
    get "exp" (payload t) <> Ok (Some (JNum (Z.min 0 1700003600))).
Proof.
  exists (Tokens.decoded Tokens.alice_zero), (Tokens.decoded Tokens.root).
  split; [reflexivity|]. split; [reflexivity|].
  split; [vm_compute; reflexivity|]. split; [reflexivity|].
  split; [vm_compute; reflexivity|]. split; [reflexivity|].
  vm_compute. discriminate.
Qed.

(** C3, as stated: a string of four segments and a string of two both
    decode. *)
Lemma decode_wrong_segment_count :
  length (split "." Tokens.four_segments) = 4 /\
  (exists u, decode Tokens.four_segments = Ok u) /\
  length (split "." Tokens.two_segments) = 2 /\
  (exists u, decode Tokens.two_segments = Ok u /\ signature u = None).
Proof.
  split; [vm_compute; reflexivity|].
  split; [exists (Tokens.decoded Tokens.root); vm_compute; reflexivity|].
  split; [vm_compute; reflexivity|].
  exists (Tokens.decoded Tokens.two_segments).
  split; vm_compute; reflexivity.
Qed.

(** C5, as stated: with the explicit expiration [1] the token expires
    before it starts. *)
Lemma build_early_expiration :
  exists t,
    build Tokens.early_expiration_params = Ok t /\
    get "exp" (payload t) = Ok (Some (JNum 1)) /\
    get "nbf" (payload t) = Ok (Some (JNum 1699999940)) /\
    ~ (1699999940 <= 1)%Z.
Proof.
  exists (Tokens.decoded Tokens.alice_early).
  split; [vm_compute; reflexivity|]. split; [reflexivity|].
  split; [reflexivity|]. intros H. apply H. reflexivity.
Qed.

(** C7, as stated: a key given without padding comes back padded. *)
Lemma did_roundtrip_unpadded_key :
  let key := "Hv+AVRD2WUjUFOsSNbsmrp9fokuwrUnjBcr92f0kxw4" in
  exists did publicKey,
    publicKeyToDid key "ed25519" = Ok did /\
    didToPublicKey did = Ok (publicKey, "ed25519") /\
    publicKey = "Hv+AVRD2WUjUFOsSNbsmrp9fokuwrUnjBcr92f0kxw4=" /\
    publicKey <> key.
Proof.
  exists "did:key:z6MkgYGF3thn8k1Fv4p4dWXKtsXCnLH7q9yw4QgNPULDmDKB",
         "Hv+AVRD2WUjUFOsSNbsmrp9fokuwrUnjBcr92f0kxw4=".
  split; [vm_compute; reflexivity|].
  split; [vm_compute; reflexivity|].
  split; [reflexivity|discriminate].
Qed.

(** C8, as stated: no recursion depth is enough for every token; the
    chain of [D] self-delegations exhausts the depth [D]. *)
Lemma isValid_depth_unbounded :
  ~ exists D, forall u : Ucan, isValid D u <> None.
Proof.
  intros [D H]. apply (H (Deep.chain D)).
  rewrite isValid_chain, Nat.leb_refl. reflexivity.
Qed.

(** * More properties of the code *)

(** ** The wire format *)

Lemma split_app_dot_any a b :
  no_dot a = true -> split "." (a ++ "." ++ b) = a :: split "." b.
Proof. intros H. exact (split_app_dot a b H). Qed.

Lemma no_dot_hd_split s :
  forall seg, hd_error (split "." s) = Some seg -> no_dot seg = true.
Proof.
  intros seg H. destruct (concat_split s) as [_ Hn].
  destruct (split "." s) as [|x l]; [discriminate|].
  inversion H; subst. cbn [forallb] in Hn.
  apply andb_prop in Hn. apply Hn.
Qed.

Section Wire.

Context {base64 : Base64} {JSON_ : JSON} {validation : Validation}
        {platform : Platform} {codec : Base64Laws} {printer : JSONLaws}.

Lemma split_encode u :
  split "." (encode u)
  = encodeHeader (header u) :: encodePayload (payload u)
    :: split "." (signature_text u).
Proof.
  unfold encode. fold (signature_text u).
  rewrite split_app_dot_any by (apply urlEncode_no_dot).
  rewrite split_app_dot_any by (apply urlEncode_no_dot).
  reflexivity.
Qed.

(** Decoding an encoded token: the signature comes back cut at its first
    dot. *)
Lemma decode_encode_any u :
  decode (encode u)
  = Ok {| header := header u;
          payload := spread (payload u);
          signature := or_null (hd_error (split "." (signature_text u))) |}.
Proof.
  unfold decode, urlDecode_at. rewrite split_encode. cbn [nth_error].
  unfold encodeHeader, encodePayload.
  rewrite !urlDecode_urlEncode. cbn [bind]. rewrite !parse_stringify.
  cbn [bind]. destruct (split "." (signature_text u)); reflexivity.
Qed.

Lemma urlEncode_injective a b : urlEncode a = urlEncode b -> a = b.
Proof.
  intros H. pose proof (urlDecode_urlEncode a) as Ha.
  rewrite H, urlDecode_urlEncode in Ha. congruence.
Qed.

Lemma stringify_injective a b : JSON_stringify a = JSON_stringify b -> a = b.
Proof.
  intros H. pose proof (parse_stringify a) as Ha.
  rewrite H, parse_stringify in Ha. congruence.
Qed.

End Wire.

Lemma hd_split_self s :
  hd_error (split "." s) = Some s -> no_dot s = true.
Proof. apply no_dot_hd_split. Qed.

Lemma or_null_some s : or_null (Some s) = Some s <-> s <> "".
Proof.
  unfold or_null. destruct s as [|c s]; cbn.
  - split; [discriminate | congruence].
  - split; [discriminate | reflexivity].
Qed.

Lemma or_null_sound x s : or_null x = Some s -> x = Some s /\ s <> "".
Proof.
  destruct x as [t|]; [|discriminate].
  destruct t as [|c t]; cbn; [discriminate|].
  intros H. inversion H. split; [reflexivity | discriminate].
Qed.

Section Wire_roundtrip.

Context {base64 : Base64} {JSON_ : JSON} {validation : Validation}
        {platform : Platform} {codec : Base64Laws} {printer : JSONLaws}.

(** X1: With a base64 codec and a JSON printer that invert, [decode]
    gives back the token [encode] was given exactly when the payload is
    an object (or another value the spread leaves alone) and the
    signature is a text that is not empty and has no dot; the wire
    string then has the three segments header, payload, signature. *)
Theorem decode_encode_roundtrip (u : Ucan) :
  decode (encode u) = Ok u <->
  spread (payload u) = payload u /\
  exists s, signature u = Some s /\ s <> "" /\ no_dot s = true /\
            split "." (encode u)
            = [encodeHeader (header u); encodePayload (payload u); s].
Proof.
  rewrite decode_encode_any. split.
  - intros H.
    assert (Hp : spread (payload u) = payload u)
      by (injection H as H; rewrite <- H at 2; reflexivity).
    assert (Hs : or_null (hd_error (split "." (signature_text u)))
                 = signature u)
      by (injection H as H; rewrite <- H at 2; reflexivity).
    split; [exact Hp|].
    destruct (signature u) as [s|] eqn:Hsig.
    + apply or_null_sound in Hs. destruct Hs as [Hhd Hne].
      assert (Hst : signature_text u = s)
        by (unfold signature_text; rewrite Hsig; reflexivity).
      rewrite Hst in Hhd.
      assert (Hnd : no_dot s = true) by (apply hd_split_self; exact Hhd).
      exists s. repeat split; try assumption.
      rewrite split_encode, Hst, split_no_dot by assumption. reflexivity.
    + exfalso. unfold signature_text in Hs. rewrite Hsig in Hs.
      cbn in Hs. discriminate.
  - intros [Hp [s [Hsig [Hne [Hnd _]]]]].
    unfold signature_text. rewrite Hsig, split_no_dot by assumption.
    cbn [hd_error]. rewrite Hp.
    apply or_null_some in Hne. rewrite Hne.
    destruct u as [h p sg]. cbn [header payload signature] in *.
    subst sg. reflexivity.
Qed.

(** X2: With a base64 codec and a JSON printer that invert, two tokens
    have the same wire string exactly when they have the same header,
    the same own payload fields and the same signature text, where an
    absent signature counts as the text null. *)
Theorem encode_same_wire (u v : Ucan) :
  encode u = encode v <->
  header u = header v /\
  spread (payload u) = spread (payload v) /\
  signature_text u = signature_text v.
Proof.
  split.
  - intros H. pose proof (split_encode u) as Hu.
    rewrite H, split_encode in Hu. inversion Hu as [[Hh Hp Hs]].
    repeat split.
    + apply stringify_injective, urlEncode_injective. exact (eq_sym Hh).
    + apply stringify_injective, urlEncode_injective. exact (eq_sym Hp).
    + destruct (concat_split (signature_text u)) as [<- _].
      destruct (concat_split (signature_text v)) as [<- _].
      rewrite Hs. reflexivity.
  - intros [Hh [Hp Hs]]. unfold encode, encodePayload.
    fold (signature_text u) (signature_text v).
    rewrite Hh, Hp, Hs. reflexivity.
Qed.

End Wire_roundtrip.

Lemma decode_encode_roundtrip_witness :
  decode (encode Tokens.carol) = Ok Tokens.carol.
Proof.
  apply (proj2 (decode_encode_roundtrip (codec := base64_reference_laws)
                  (printer := JSON_reference_laws) Tokens.carol)).
  split; [reflexivity|].
  exists (signature_text Tokens.carol).
  split; [reflexivity|]. split; [discriminate|].
  split; vm_compute; reflexivity.
Defined.

Lemma encode_same_wire_witness :
  encode Tokens.unsigned
  = encode {| header := header Tokens.unsigned;
              payload := payload Tokens.unsigned;
              signature := Some "null" |}.
Proof.
  apply (proj2 (encode_same_wire (codec := base64_reference_laws)
                  (printer := JSON_reference_laws) Tokens.unsigned _)).
  repeat split.
Defined.

(** ** Outcomes of [isValid] *)

Lemma or_string_empty s : or_string (Some s) "" = s.
Proof. destruct s; reflexivity. Qed.

Lemma strict_eq_string aud s :
  strict_eq aud (Some (JStr s)) = true <-> aud = Some (JStr s).
Proof.
  split.
  - destruct aud as [[| | |a| |]|]; cbn; try discriminate.
    intros H. apply String.eqb_eq in H. subst. reflexivity.
  - intros ->. cbn. apply String.eqb_refl.
Qed.

Section Validity.

Context {base64 : Base64} {JSON_ : JSON} {validation : Validation}
        {platform : Platform}.

(** What [build] puts in the token it returns. *)
Lemma build_shape params t :
  build params = Ok t ->
  get "iss" (payload t)
    = Ok (Some (JStr (or_string (issuer params) did_ucan))) /\
  get "aud" (payload t) = Ok (Some (JStr (audience params))) /\
  get "prf" (payload t)
    = Ok (Some (match or_null (proof params) with
                | Some p => JStr p
                | None => JNull
                end)) /\
  signature t
    = (if default true (addSignature params)
       then Some (sign (header t) (payload t)) else None) /\
  spread (payload t) = payload t.
Proof.
  intros H.
  destruct (build_inversion _ _ H)
    as (dp & e & n & rsc & _ & _ & _ & Hpay & Hsig).
  rewrite Hsig, Hpay.
  destruct rsc; repeat split; reflexivity.
Qed.

(** A link in order hands the verdict to the proof. *)
Lemma isValid_link n u prf :
  signature_verifies u -> proof_of u prf -> continuous u prf ->
  isValid (S n) u = isValid n prf.
Proof.
  intros (iss & Hiss & Hv) (p & Hp & Ht & Hd) (aud & iss' & Ha & Hi & He).
  rewrite Hiss in Hi. inversion Hi; subst iss'.
  rewrite isValid_step, Hiss. cbn [bindF]. cbv zeta.
  rewrite Hv. cbn [negb].
  rewrite Hp. cbn [bindF]. rewrite Ht. cbn [negb].
  rewrite Hd. cbn [bindF]. rewrite Ha. cbn [bindF].
  rewrite He. reflexivity.
Qed.

Lemma isValid_reaches u k v :
  reaches u k v -> forall n, isValid (k + n) u = isValid n v.
Proof.
  induction 1 as [u|u prf k v Hs Hp Hc _ IH]; intros n; [reflexivity|].
  cbn [Nat.add]. rewrite (isValid_link _ _ _ Hs Hp Hc). apply IH.
Qed.

(** Every answer is the answer of one level, reached through links in
    order. *)
Lemma isValid_decided n : forall u r,
  isValid n u = Some r ->
  exists k v, reaches u k v /\ isValid 1 v = Some r.
Proof.
  induction n as [|n IH]; intros u r H; [discriminate|].
  destruct (isValid 1 u) as [r1|] eqn:H1.
  - rewrite (isValid_more_fuel _ _ _ H1 (S n)) in H by lia.
    inversion H; subst r1. exists 0, u. split; [constructor|exact H1].
  - rewrite isValid_step in H, H1.
    destruct (get "iss" (payload u)) as [iss|] eqn:Hiss;
      cbn [bindF] in H, H1; [|discriminate].
    cbv zeta in H, H1.
    destruct (verifySignedData _ iss _) eqn:Hv; cbn [negb] in H, H1;
      [|discriminate].
    destruct (get "prf" (payload u)) as [prf_|] eqn:Hprf;
      cbn [bindF] in H, H1; [|discriminate].
    destruct prf_ as [p|]; [|discriminate].
    destruct (truthy (Some p)) eqn:Ht; cbn [negb] in H, H1; [|discriminate].
    destruct (decode_value p) as [prf|] eqn:Hd; cbn [bindF] in H, H1;
      [|discriminate].
    destruct (get "aud" (payload prf)) as [aud|] eqn:Ha;
      cbn [bindF] in H, H1; [|discriminate].
    destruct (strict_eq aud iss) eqn:He; cbn [negb] in H, H1;
      [|discriminate].
    destruct (IH _ _ H) as (k & v & Hr & Hk).
    exists (S k), v. split; [|exact Hk].
    eapply reaches_link; [| | |exact Hr].
    + exists iss. split; [exact Hiss|exact Hv].
    + exists p. repeat split; assumption.
    + exists aud, iss. repeat split; assumption.
Qed.

Lemma isValid_one_false v :
  isValid 1 v = Some (Ok false) <-> signature_fails v \/ link_broken v.
Proof.
  rewrite isValid_step. split.
  - intros H.
    destruct (get "iss" (payload v)) as [iss|] eqn:Hiss;
      cbn [bindF] in H; [|discriminate].
    cbv zeta in H.
    destruct (verifySignedData _ iss _) eqn:Hv; cbn [negb] in H.
    + right.
      destruct (get "prf" (payload v)) as [prf_|] eqn:Hprf;
        cbn [bindF] in H; [|discriminate].
      destruct prf_ as [p|]; [|discriminate].
      destruct (truthy (Some p)) eqn:Ht; cbn [negb] in H; [|discriminate].
      destruct (decode_value p) as [prf|] eqn:Hd; cbn [bindF] in H;
        [|discriminate].
      destruct (get "aud" (payload prf)) as [aud|] eqn:Ha;
        cbn [bindF] in H; [|discriminate].
      destruct (strict_eq aud iss) eqn:He; cbn [negb] in H;
        [discriminate|].
      split; [exists iss; split; assumption|].
      exists prf, aud, iss. repeat split; try assumption.
      exists p. repeat split; assumption.
    + left. exists iss. split; assumption.
  - intros [(iss & Hiss & Hv)
           |((iss & Hiss & Hv) & prf & aud & iss' & (p & Hp & Ht & Hd)
             & Ha & Hi & He)].
    + rewrite Hiss. cbn [bindF]. cbv zeta.
      rewrite Hv. reflexivity.
    + rewrite Hiss in Hi. inversion Hi; subst iss'.
      rewrite Hiss. cbn [bindF]. cbv zeta.
      rewrite Hv. cbn [negb].
      rewrite Hp. cbn [bindF]. rewrite Ht. cbn [negb].
      rewrite Hd. cbn [bindF]. rewrite Ha. cbn [bindF].
      rewrite He. reflexivity.
Qed.

Lemma isValid_one_throws v e :
  isValid 1 v = Some (Throw e) <-> level_throws v e.
Proof.
  rewrite isValid_step. split.
  - intros H.
    destruct (get "iss" (payload v)) as [iss|e'] eqn:Hiss;
      cbn [bindF] in H; [|left; congruence].
    cbv zeta in H.
    destruct (verifySignedData _ iss _) eqn:Hv; cbn [negb] in H;
      [|discriminate].
    right. split; [exists iss; split; assumption|].
    destruct (get "prf" (payload v)) as [prf_|e'] eqn:Hprf;
      cbn [bindF] in H.
    2:{ destruct (payload v); discriminate. }
    destruct prf_ as [p|]; [|discriminate].
    destruct (truthy (Some p)) eqn:Ht; cbn [negb] in H; [|discriminate].
    exists p. split; [reflexivity|]. split; [exact Ht|].
    destruct (decode_value p) as [prf|e'] eqn:Hd; cbn [bindF] in H;
      [|left; congruence].
    right. exists prf. split; [reflexivity|].
    destruct (get "aud" (payload prf)) as [aud|e'] eqn:Ha;
      cbn [bindF] in H; [|congruence].
    destruct (strict_eq aud iss); cbn [negb] in H; discriminate.
  - intros [Hiss|((iss & Hiss & Hv) & p & Hp & Ht & Hd)].
    + rewrite Hiss. reflexivity.
    + rewrite Hiss. cbn [bindF]. cbv zeta.
      rewrite Hv. cbn [negb].
      rewrite Hp. cbn [bindF]. rewrite Ht. cbn [negb].
      destruct Hd as [Hd|(prf & Hd & Ha)]; rewrite Hd; cbn [bindF];
        [reflexivity|].
      rewrite Ha. reflexivity.
Qed.

(** X3: [isValid] answers [false] exactly when, after some links in
    order (possibly none), it meets a token whose signature does not
    verify, or whose proof decodes to a token with another audience than
    the token's issuer; after [k] links in order the answer comes with
    fuel [k + 1], the proof of the failing token is not validated and,
    when the signature fails, not even decoded. *)
Theorem isValid_false_iff (u : Ucan) :
  ((exists fuel, isValid fuel u = Some (Ok false)) <->
   (exists k v, reaches u k v /\ (signature_fails v \/ link_broken v))) /\
  (forall k v,
     reaches u k v -> signature_fails v \/ link_broken v ->
     isValid (k + 1) u = Some (Ok false)).
Proof.
  assert (Hback : forall k v,
    reaches u k v -> signature_fails v \/ link_broken v ->
    isValid (k + 1) u = Some (Ok false)).
  { intros k v Hr Hv. rewrite (isValid_reaches _ _ _ Hr).
    apply isValid_one_false. exact Hv. }
  split; [split|exact Hback].
  - intros [fuel H].
    destruct (isValid_decided _ _ _ H) as (k & v & Hr & Hv).
    exists k, v. split; [exact Hr|apply isValid_one_false; exact Hv].
  - intros (k & v & Hr & Hv). exists (k + 1). exact (Hback _ _ Hr Hv).
Qed.

(** X4: [isValid] raises an error instead of answering exactly when,
    after some links in order, it meets a token whose payload is [null],
    or whose signature verifies and whose proof does not decode or
    decodes to a token with a [null] payload; the error is the one of
    that step, and after [k] links in order it comes with fuel
    [k + 1]. *)
Theorem isValid_throws_iff (u : Ucan) (e : error) :
  ((exists fuel, isValid fuel u = Some (Throw e)) <->
   (exists k v, reaches u k v /\ level_throws v e)) /\
  (forall k v,
     reaches u k v -> level_throws v e ->
     isValid (k + 1) u = Some (Throw e)).
Proof.
  assert (Hback : forall k v,
    reaches u k v -> level_throws v e ->
    isValid (k + 1) u = Some (Throw e)).
  { intros k v Hr Hv. rewrite (isValid_reaches _ _ _ Hr).
    apply isValid_one_throws. exact Hv. }
  split; [split|exact Hback].
  - intros [fuel H].
    destruct (isValid_decided _ _ _ H) as (k & v & Hr & Hv).
    exists k, v. split; [exact Hr|apply isValid_one_throws; exact Hv].
  - intros (k & v & Hr & Hv). exists (k + 1). exact (Hback _ _ Hr Hv).
Qed.

End Validity.

Section Build_valid.

Context {base64 : Base64} {JSON_ : JSON} {validation : Validation}
        {platform : Platform}.

Lemma built_signature_verifies params t :
  build params = Ok t ->
  addSignature params <> Some false ->
  accepts_own_signature (or_string (issuer params) did_ucan)
    (signing_input t) ->
  signature_verifies t.
Proof.
  intros Hb Hs Ha. destruct (build_shape _ _ Hb) as (Hiss & _ & _ & Hsig & _).
  exists (Some (JStr (or_string (issuer params) did_ucan))).
  split; [exact Hiss|].
  assert (Hd : default true (addSignature params) = true).
  { destruct (addSignature params) as [[|]|]; [reflexivity| |reflexivity].
    exfalso. apply Hs. reflexivity. }
  rewrite Hd in Hsig. rewrite Hsig, or_string_empty. exact Ha.
Qed.

(** X5: A token that [build] signs is verified by [isValid] over the
    same string that [sign] signed. So, when the verifier accepts the
    keystore's signature for the issuer: a token built without proof is
    valid, and a token built on a proof is valid exactly when the proof
    names the issuer as its audience and is valid itself. *)
Theorem build_then_isValid (params : BuildParams) (t : Ucan) :
  build params = Ok t ->
  addSignature params <> Some false ->
  accepts_own_signature (or_string (issuer params) did_ucan)
    (signing_input t) ->
  match or_null (proof params) with
  | None => isValid 1 t = Some (Ok true)
  | Some p =>
      exists d,
        decode p = Ok d /\
        ((exists n, isValid n t = Some (Ok true)) <->
         (get "aud" (payload d)
            = Ok (Some (JStr (or_string (issuer params) did_ucan))) /\
          exists n, isValid n d = Some (Ok true)))
  end.
Proof.
  intros Hb Hs Ha.
  pose proof (built_signature_verifies _ _ Hb Hs Ha) as (iss & Hiss & Hv).
  destruct (build_shape _ _ Hb) as (Hiss' & _ & Hprf & _ & _).
  rewrite Hiss' in Hiss. inversion Hiss; subst iss. clear Hiss.
  destruct (or_null (proof params)) as [p|] eqn:Hp.
  - assert (Hd : exists d, decode p = Ok d).
    { unfold build in Hb. rewrite Hp in Hb.
      destruct (decode p) as [d|]; [|discriminate]. exists d. reflexivity. }
    destruct Hd as [d Hd]. exists d. split; [exact Hd|].
    apply or_null_sound in Hp. destruct Hp as [_ Hne].
    assert (Ht : truthy (Some (JStr p)) = true).
    { cbn. destruct p; [congruence|reflexivity]. }
    assert (Hstep : forall n,
      isValid (S n) t =
      (let* aud := get "aud" (payload d) in
       if negb (strict_eq aud
                  (Some (JStr (or_string (issuer params) did_ucan))))
       then Some (Ok false) else isValid n d)).
    { intros n. rewrite isValid_step, Hiss'. cbn [bindF]. cbv zeta.
      rewrite Hv. cbn [negb]. rewrite Hprf. cbn [bindF].
      rewrite Ht. cbn [negb decode_value]. rewrite Hd. cbn [bindF].
      destruct (get "aud" (payload d)) as [aud|]; cbn [bindF];
        [|reflexivity].
      destruct (strict_eq aud _); reflexivity. }
    split.
    + intros [[|n] Hn]; [discriminate|]. rewrite Hstep in Hn.
      destruct (get "aud" (payload d)) as [aud|]; cbn [bindF] in Hn;
        [|discriminate].
      destruct (strict_eq aud _) eqn:He; cbn [negb] in Hn; [|discriminate].
      apply strict_eq_string in He. subst aud.
      split; [reflexivity|]. exists n. exact Hn.
    + intros [Haud [n Hn]]. exists (S n). rewrite Hstep, Haud. cbn [bindF].
      rewrite (proj2 (strict_eq_string _ _) eq_refl). exact Hn.
  - rewrite isValid_step, Hiss'. cbn [bindF]. cbv zeta.
    rewrite Hv. cbn [negb]. rewrite Hprf. reflexivity.
Qed.

End Build_valid.

Lemma build_then_isValid_witness :
  exists t,
    build (Tokens.params "did:key:zBob" (Some "did:key:zAlice")
             (Some Tokens.root)) = Ok t /\
    exists n, isValid n t = Some (Ok true).
Proof.
  exists (Tokens.decoded Tokens.alice_to_bob).
  assert (Hb : build (Tokens.params "did:key:zBob" (Some "did:key:zAlice")
                        (Some Tokens.root))
               = Ok (Tokens.decoded Tokens.alice_to_bob))
    by (vm_compute; reflexivity).
  split; [exact Hb|].
  destruct (build_then_isValid _ _ Hb) as (d & Hd & Hiff).
  - discriminate.
  - vm_compute. reflexivity.
  - apply Hiff.
    assert (d = Tokens.decoded Tokens.root)
      by (vm_compute in Hd; inversion Hd; reflexivity).
    subst d. split; [vm_compute; reflexivity|].
    exists 1. vm_compute. reflexivity.
Defined.

Lemma isValid_false_iff_witness :
  isValid 1 Tokens2.mallory = Some (Ok false).
Proof.
  apply (proj2 (isValid_false_iff Tokens2.mallory) 0 Tokens2.mallory
           (reaches_here _)).
  right. split.
  - exists (Some (JStr "did:key:zMallory")).
    split; vm_compute; reflexivity.
  - exists (Tokens.decoded Tokens.root), (Some (JStr "did:key:zAlice")),
      (Some (JStr "did:key:zMallory")).
    split; [|repeat split; vm_compute; reflexivity].
    exists (JStr Tokens.root).
    split; [vm_compute; reflexivity|].
    split; [reflexivity|vm_compute; reflexivity].
Defined.

Lemma isValid_throws_iff_witness :
  isValid 2 Tokens2.cites_bogus = Some (Throw SyntaxError).
Proof.
  apply (proj2 (isValid_throws_iff Tokens2.cites_bogus SyntaxError)
           1 Tokens2.bogus_proof).
  - apply reaches_link with (prf := Tokens2.bogus_proof).
    + exists (Some (JStr "did:key:zBob")). split; vm_compute; reflexivity.
    + exists (JStr (encode Tokens2.bogus_proof)).
      split; [vm_compute; reflexivity|].
      split; [reflexivity|vm_compute; reflexivity].
    + exists (Some (JStr "did:key:zBob")), (Some (JStr "did:key:zBob")).
      repeat split; vm_compute; reflexivity.
    + apply reaches_here.
  - right. split.
    + exists (Some (JStr "did:key:zAlice")). split; vm_compute; reflexivity.
    + exists (JStr "bogus"). split; [vm_compute; reflexivity|].
      split; [reflexivity|]. left. vm_compute. reflexivity.
Defined.

Section Validity_scope.

Context {base64 : Base64} {JSON_ : JSON} {validation : Validation}
        {platform : Platform}.

(** X16: Beyond the check of the signature, [isValid] reads the issuer
    and the proof of a token and nothing else: two tokens whose
    signatures verify and that have the same [iss] and the same [prf]
    get the same answer, whatever their expiry, their not-before time,
    their potency, their resource, their facts and their headers are.
    In particular neither the time window nor the rights of a token are
    compared with those of its proof. *)
Theorem isValid_reads_issuer_and_proof (u u' : Ucan) (n : nat) :
  signature_verifies u -> signature_verifies u' ->
  get "iss" (payload u) = get "iss" (payload u') ->
  get "prf" (payload u) = get "prf" (payload u') ->
  isValid n u = isValid n u'.
Proof.
  intros (iss & Hiss & Hv) (iss' & Hiss' & Hv') Hi Hp.
  destruct n as [|n]; [reflexivity|].
  rewrite !isValid_step. rewrite <- Hp, Hiss, Hiss'.
  rewrite Hiss, Hiss' in Hi. inversion Hi; subst iss'.
  cbn [bindF]. cbv zeta. rewrite Hv, Hv'. reflexivity.
Qed.

End Validity_scope.

Lemma isValid_reads_issuer_and_proof_witness :
  isExpired (Tokens.decoded Tokens.root) = Ok false /\
  isExpired (Tokens.decoded Tokens.alice_early) = Ok true /\
  isValid 1 (Tokens.decoded Tokens.alice_early)
  = isValid 1 (Tokens.decoded Tokens.root).
Proof.
  split; [vm_compute; reflexivity|]. split; [vm_compute; reflexivity|].
  apply isValid_reads_issuer_and_proof.
  - exists (Some (JStr Example.did_ucan)). split; vm_compute; reflexivity.
  - exists (Some (JStr Example.did_ucan)). split; vm_compute; reflexivity.
  - vm_compute. reflexivity.
  - vm_compute. reflexivity.
Defined.

(** ** The root issuer *)

Section Root.

Context {base64 : Base64} {JSON_ : JSON} {validation : Validation}
        {platform : Platform}.

(** [decode] and [extractPayload] read the payload the same way. *)
Lemma extractPayload_of_decode s u level :
  decode s = Ok u -> extractPayload (JStr s) level = Ok (payload u).
Proof.
  unfold decode, extractPayload. intros H.
  destruct (text <- urlDecode_at (split "." s) 0 ;; JSON_parse text)
    as [h|]; [|discriminate].
  cbn [bind] in H.
  destruct (text <- urlDecode_at (split "." s) 1 ;; JSON_parse text)
    as [p|]; [|discriminate].
  cbn [bind] in H. inversion H. reflexivity.
Qed.

Lemma extractPayload_second_segment s s' level p :
  nth_error (split "." s') 1 = nth_error (split "." s) 1 ->
  extractPayload (JStr s) 0 = Ok p ->
  extractPayload (JStr s') level = Ok p.
Proof.
  unfold extractPayload, urlDecode_at. intros ->.
  destruct (text <- _ ;; JSON_parse text); cbn; congruence.
Qed.

(** An answer does not depend on the level the walk is started with. *)
Lemma rootIssuer_level_ok n : forall ucan level iss,
  rootIssuer n ucan level = Some (Ok iss) ->
  forall level', rootIssuer n ucan level' = Some (Ok iss).
Proof.
  induction n as [|n IH]; intros ucan level iss H level'; [discriminate|].
  rewrite rootIssuer_step in H |- *.
  destruct (extractPayload ucan level) as [p|] eqn:Hp; [|discriminate].
  assert (Hp0 : extractPayload ucan 0 = Ok p).
  { unfold extractPayload in Hp |- *.
    destruct (match ucan with JStr s => _ | _ => _ end); cbn in *;
      congruence. }
  rewrite (extractPayload_level _ level' _ Hp0).
  cbn [bindF] in H |- *.
  destruct (get "prf" p) as [prf|]; [|discriminate].
  cbn [bindF] in H |- *.
  destruct prf as [next|]; [|exact H].
  destruct (truthy (Some next)); [|exact H].
  exact (IH _ _ _ H _).
Qed.

Lemma chain_descends u chain :
  proof_chain u chain ->
  forall s, decode s = Ok u ->
  exists x,
    descends (JStr s) (length chain - 1) x /\
    deepest_payload x (payload (last chain u)).
Proof.
  induction 1 as [u Hn|u prf chain Hp Hc IH]; intros s Hs.
  - exists (JStr s). split; [constructor|].
    split; [exact (extractPayload_of_decode _ _ 0 Hs)|exact Hn].
  - destruct Hp as (p & Hp & Ht & Hd).
    destruct p as [| | |ps| |]; try discriminate. cbn [decode_value] in Hd.
    destruct (IH _ Hd) as (x & Hx & Hdeep).
    assert (Hlen : length chain <> 0) by (destruct Hc; discriminate).
    exists x. split.
    + replace (length (u :: chain) - 1) with (S (length chain - 1))
        by (cbn [length]; lia).
      eapply descends_link;
        [exact (extractPayload_of_decode _ _ 0 Hs)|exact Hp|exact Ht
        |exact Hx].
    + replace (last (u :: chain) u) with (last chain prf); [exact Hdeep|].
      destruct chain as [|c chain]; [exfalso; apply Hlen; reflexivity|].
      cbn [last]. clear. revert c. induction chain as [|c' chain IH];
        intros c; [reflexivity|]. cbn [last] in *. apply IH.
Qed.

(** X6: For a token that decodes, [rootIssuer] follows the same proofs
    as [isValid]: on the encoded token it returns the [iss] field of the
    last token of the proof chain, with one call for each token of the
    chain, whatever the signatures and audiences are. *)
Theorem rootIssuer_of_chain (s : string) (u : Ucan) (chain : list Ucan) :
  decode s = Ok u ->
  proof_chain u chain ->
  exists iss,
    get "iss" (payload (last chain u)) = Ok iss /\
    rootIssuer (length chain) (JStr s) 0 = Some (Ok iss).
Proof.
  intros Hs Hc. destruct (chain_descends _ _ Hc _ Hs) as (x & Hx & Hdeep).
  destruct (rootIssuer_deepest _ _ _ _ Hx Hdeep 0) as (iss & Hiss & Hr).
  assert (Hlen : length chain <> 0) by (destruct Hc; discriminate).
  replace (S (length chain - 1)) with (length chain) in Hr by lia.
  exists iss. split; [exact Hiss|exact Hr].
Qed.

End Root.

Lemma rootIssuer_of_chain_witness :
  decode Tokens.bob_to_carol = Ok Tokens.carol /\
  rootIssuer 3 (JStr Tokens.bob_to_carol) 0
  = Some (Ok (Some (JStr Example.did_ucan))).
Proof.
  assert (Hd : decode Tokens.bob_to_carol = Ok Tokens.carol)
    by (vm_compute; reflexivity).
  split; [exact Hd|].
  assert (Hc : proof_chain Tokens.carol
                 [Tokens.carol; Tokens.decoded Tokens.alice_to_bob;
                  Tokens.decoded Tokens.root]).
  { apply chain_link with (prf := Tokens.decoded Tokens.alice_to_bob).
    { exists (JStr Tokens.alice_to_bob).
      split; [vm_compute; reflexivity|].
      split; [reflexivity|vm_compute; reflexivity]. }
    apply chain_link with (prf := Tokens.decoded Tokens.root).
    { exists (JStr Tokens.root).
      split; [vm_compute; reflexivity|].
      split; [reflexivity|vm_compute; reflexivity]. }
    apply chain_end. exists (Some JNull). split; reflexivity. }
  destruct (rootIssuer_of_chain _ _ _ Hd Hc) as (iss & Hiss & Hr).
  cbn [length] in Hr. rewrite Hr.
  vm_compute in Hiss. inversion Hiss. reflexivity.
Defined.

Section Root_segments.

Context {base64 : Base64} {JSON_ : JSON} {validation : Validation}
        {platform : Platform}.

(** X7: [rootIssuer] reads nothing but the second segment of a token:
    when the payload of a token parses, any string with the same second
    segment gets the same result, whatever its header, its signature
    and the number of its segments. *)
Theorem rootIssuer_reads_second_segment (s s' : string) (p : json) :
  extractPayload (JStr s) 0 = Ok p ->
  nth_error (split "." s') 1 = nth_error (split "." s) 1 ->
  forall fuel level,
    rootIssuer fuel (JStr s') level = rootIssuer fuel (JStr s) level.
Proof.
  intros Hp Hseg [|fuel] level; [reflexivity|].
  rewrite !rootIssuer_step.
  rewrite (extractPayload_second_segment _ _ level _ Hseg Hp).
  rewrite (extractPayload_level _ level _ Hp). reflexivity.
Qed.

(** X8: A payload that parses to a JSON value other than an object is
    not reported as an invalid token: for [null], at whatever depth,
    [rootIssuer] raises a [TypeError] without the depth message, and for
    a number, a string, a boolean or an array it returns [undefined]. *)
Theorem rootIssuer_payload_not_object (ucan x p : json) (d level : nat) :
  descends ucan d x ->
  extractPayload x 0 = Ok p ->
  (forall fields, p <> JObj fields) ->
  rootIssuer (S d) ucan level
  = Some (match p with JNull => Throw TypeError | _ => Ok None end).
Proof.
  intros Hd Hp Hno. revert level.
  induction Hd as [ucan|ucan q next d x Hq Hprf Ht _ IH]; intros level.
  - rewrite rootIssuer_step, (extractPayload_level _ level _ Hp).
    cbn [bindF].
    destruct p as [| | | | |fields]; try reflexivity.
    exfalso. exact (Hno fields eq_refl).
  - rewrite rootIssuer_step, (extractPayload_level _ level _ Hq).
    cbn [bindF]. rewrite Hprf. cbn [bindF]. rewrite Ht. apply IH; assumption.
Qed.

End Root_segments.

Lemma rootIssuer_reads_second_segment_witness :
  (exists e, decode ("x." ++ nth 1 (split "." Tokens.root) "" ++ "..") = Throw e) /\
  rootIssuer 1
    (JStr ("x." ++ nth 1 (split "." Tokens.root) "" ++ "..")) 0
  = Some (Ok (Some (JStr Example.did_ucan))).
Proof.
  split; [eexists; vm_compute; reflexivity|].
  rewrite (rootIssuer_reads_second_segment Tokens.root
             ("x." ++ nth 1 (split "." Tokens.root) "" ++ "..")
             (payload (Tokens.decoded Tokens.root))).
  - vm_compute. reflexivity.
  - vm_compute. reflexivity.
  - vm_compute. reflexivity.
Defined.

Lemma rootIssuer_payload_not_object_witness :
  rootIssuer 1 (JStr "e30.bnVsbA.c2ln") 0 = Some (Throw TypeError) /\
  rootIssuer 1 (JStr "e30.NQ.c2ln") 0 = Some (Ok None).
Proof.
  split.
  - apply (rootIssuer_payload_not_object _ _ JNull 0 0
             (descends_here _)); [vm_compute; reflexivity|discriminate].
  - apply (rootIssuer_payload_not_object _ _ (JNum 5) 0 0
             (descends_here _)); [vm_compute; reflexivity|discriminate].
Defined.

Section Root_delegation.

Context {base64 : Base64} {JSON_ : JSON} {validation : Validation}
        {platform : Platform} {codec : Base64Laws} {printer : JSONLaws}.

Lemma extractPayload_encode u level :
  extractPayload (JStr (encode u)) level = Ok (spread (payload u)).
Proof.
  unfold extractPayload, urlDecode_at. rewrite split_encode.
  cbn [nth_error]. unfold encodePayload.
  rewrite urlDecode_urlEncode. cbn [bind]. rewrite parse_stringify.
  reflexivity.
Qed.

(** X9: With a base64 codec and a JSON printer that invert, delegation
    keeps the root issuer: the root issuer of an encoded token that
    [build] made without proof is its own issuer, and the root issuer of
    one built on a proof is the root issuer of the proof, found with one
    more call. *)
Theorem build_keeps_rootIssuer (params : BuildParams) (t : Ucan) :
  build params = Ok t ->
  match or_null (proof params) with
  | None =>
      rootIssuer 1 (JStr (encode t)) 0
      = Some (Ok (Some (JStr (or_string (issuer params) did_ucan))))
  | Some p =>
      forall n iss,
        rootIssuer n (JStr p) 0 = Some (Ok iss) ->
        rootIssuer (S n) (JStr (encode t)) 0 = Some (Ok iss)
  end.
Proof.
  intros Hb. destruct (build_shape _ _ Hb) as (Hiss & _ & Hprf & _ & Hsp).
  destruct (or_null (proof params)) as [p|] eqn:Hp.
  - intros n iss Hn.
    rewrite rootIssuer_step, extractPayload_encode, Hsp. cbn [bindF].
    rewrite Hprf. cbn [bindF].
    apply or_null_sound in Hp. destruct Hp as [_ Hne].
    assert (Ht : truthy (Some (JStr p)) = true).
    { cbn. destruct p; [congruence|reflexivity]. }
    rewrite Ht. exact (rootIssuer_level_ok _ _ _ _ Hn _).
  - rewrite rootIssuer_step, extractPayload_encode, Hsp. cbn [bindF].
    rewrite Hprf. cbn [bindF truthy]. rewrite Hiss. reflexivity.
Qed.

End Root_delegation.

Lemma build_keeps_rootIssuer_witness :
  exists t,
    build (Tokens.params "did:key:zCarol" (Some "did:key:zBob")
             (Some Tokens.alice_to_bob)) = Ok t /\
    rootIssuer 2 (JStr Tokens.alice_to_bob) 0
    = Some (Ok (Some (JStr Example.did_ucan))) /\
    rootIssuer 3 (JStr (encode t)) 0
    = Some (Ok (Some (JStr Example.did_ucan))).
Proof.
  exists Tokens.carol.
  assert (Hb : build (Tokens.params "did:key:zCarol" (Some "did:key:zBob")
                        (Some Tokens.alice_to_bob)) = Ok Tokens.carol)
    by (vm_compute; reflexivity).
  assert (Hr : rootIssuer 2 (JStr Tokens.alice_to_bob) 0
               = Some (Ok (Some (JStr Example.did_ucan))))
    by (vm_compute; reflexivity).
  split; [exact Hb|]. split; [exact Hr|].
  exact (build_keeps_rootIssuer (codec := base64_reference_laws)
           (printer := JSON_reference_laws) _ _ Hb 2 _ Hr).
Defined.

Section Root_termination.

Context {base64 : Base64} {JSON_ : JSON} {validation : Validation}
        {platform : Platform} {lengths : LengthLaws}.

Lemma extractPayload_field_shorter x level fields k p :
  extractPayload x level = Ok (JObj fields) ->
  lookup k fields = Some (JStr p) ->
  String.length p < text_length x.
Proof.
  unfold extractPayload, urlDecode_at.
  destruct x as [| | |s| |]; try discriminate. cbn [text_length].
  destruct (nth_error (split "." s) 1) as [seg|] eqn:E1; [|discriminate].
  destruct (urlDecode seg) as [t|] eqn:Eu; [|discriminate]. cbn [bind].
  destruct (JSON_parse t) as [pl|] eqn:Ep; [|discriminate].
  cbn [try_catch_throw]. intros H Hk. inversion H; subst pl.
  pose proof (parse_field_length _ _ _ _ Ep Hk).
  pose proof (urlDecode_length _ _ Eu).
  pose proof (split_nth_length _ _ _ _ E1). lia.
Qed.

Lemma extractPayload_not_empty x level p :
  extractPayload x level = Ok p -> 0 < text_length x.
Proof.
  unfold extractPayload, urlDecode_at.
  destruct x as [| | |s| |]; try discriminate.
  destruct s; [discriminate|]. cbn [text_length String.length]. lia.
Qed.

Lemma rootIssuer_within n : forall x level,
  text_length x <= n -> exists r, rootIssuer (S n) x level = Some r.
Proof.
  induction n as [|n IH]; intros x level Hn; rewrite rootIssuer_step;
    (destruct (extractPayload x level) as [p|e] eqn:Hp; cbn [bindF];
     [|eexists; reflexivity]).
  - pose proof (extractPayload_not_empty _ _ _ Hp). lia.
  - destruct (get "prf" p) as [[next|]|e] eqn:Hprf; cbn [bindF].
    + destruct (truthy (Some next)) eqn:Ht.
      * apply IH. destruct next; cbn [text_length]; try lia.
        destruct p; try discriminate. cbn [get] in Hprf.
        inversion Hprf as [Hl].
        pose proof (extractPayload_field_shorter _ _ _ _ _ Hp Hl). lia.
      * destruct (get "iss" p); eexists; reflexivity.
    + destruct (get "iss" p); eexists; reflexivity.
    + eexists; reflexivity.
Qed.

(** X15: With a decoder that does not lengthen and a parser whose
    strings are shorter than the text they come from, [rootIssuer]
    ends on every string, with an issuer or an error: a proof is
    shorter than the token that carries it, so that no more calls are
    made than the string has characters, plus one. *)
Theorem rootIssuer_terminates (ucan : string) (level : nat) :
  exists r,
    rootIssuer (S (String.length ucan)) (JStr ucan) level = Some r /\
    forall fuel,
      S (String.length ucan) <= fuel ->
      rootIssuer fuel (JStr ucan) level = Some r.
Proof.
  destruct (rootIssuer_within (String.length ucan) (JStr ucan) level
              (le_n _)) as [r Hr].
  exists r. split; [exact Hr|].
  intros fuel Hf. exact (rootIssuer_more_fuel _ _ _ _ Hr fuel Hf).
Qed.

End Root_termination.

Lemma rootIssuer_terminates_witness :
  exists r,
    rootIssuer (S (String.length Tokens.bob_to_carol))
      (JStr Tokens.bob_to_carol) 0 = Some r.
Proof.
  destruct (rootIssuer_terminates (lengths := reference_length_laws)
              Tokens.bob_to_carol 0) as (r & Hr & _).
  exists r. exact Hr.
Defined.

(** ** Expiry of built tokens *)

Section Expiry.

Context {base64 : Base64} {JSON_ : JSON} {validation : Validation}
        {platform : Platform}.

Lemma isExpired_of_exp u e :
  get "exp" (payload u) = Ok (Some (JNum e)) ->
  isExpired u = Ok (e <=? currentTimeInSeconds)%Z.
Proof. intros H. unfold isExpired. rewrite H. reflexivity. Qed.

(** X10: For a token that [build] makes without proof, or on a proof
    whose [exp] and [nbf] are integers, [isExpired] does not fail and,
    asked at the time of the build, says [true] exactly when the
    requested expiry (the expiration when it is given and not zero, else
    now plus the lifetime, as a double) is not in the future, or the
    proof is itself expired.  With no proof, no expiration, a positive
    lifetime and a sum that is a safe integer, the new token is not
    expired.  The sums are supposed finite.  A token whose payload has
    no [exp] is never expired. *)
Theorem build_then_isExpired (params : BuildParams) :
  finite_double (requested_exp params) -> finite_double requested_nbf ->
  (or_null (proof params) = None ->
   exists t,
     build params = Ok t /\
     isExpired t = Ok (requested_exp params <=? currentTimeInSeconds)%Z /\
     (expiration params = None ->
      (0 < default 30 (lifetimeInSeconds params))%Z ->
      safe_integer (currentTimeInSeconds
                    + default 30 (lifetimeInSeconds params))%Z ->
      isExpired t = Ok false)) /\
  (forall p d pe pn,
      proof params = Some p -> decode p = Ok d ->
      get "exp" (payload d) = Ok (Some (JNum pe)) ->
      get "nbf" (payload d) = Ok (Some (JNum pn)) ->
      exists t b,
        build params = Ok t /\ isExpired t = Ok b /\
        (b = true <->
         (requested_exp params <= currentTimeInSeconds)%Z \/
         isExpired d = Ok true)) /\
  (forall u, get "exp" (payload u) = Ok None -> isExpired u = Ok false).
Proof.
  intros Hfe Hfn. split; [|split].
  3:{ intros u Hu. unfold isExpired. rewrite Hu. reflexivity. }
  - intros Hp.
    destruct (build_without_proof params Hfe Hfn Hp)
      as (t & rsc & Hb & Hexp & _).
    exists t. split; [exact Hb|].
    rewrite (isExpired_of_exp _ _ Hexp). split; [reflexivity|].
    intros Hnone Hl Hs. f_equal. apply Z.leb_gt.
    unfold requested_exp. rewrite Hnone. cbv zeta.
    rewrite (round53_safe _ Hs). lia.
  - intros p d pe pn Hp Hd He Hn.
    assert (Hp' : or_null (proof params) = Some p).
    { rewrite Hp. destruct p; [|reflexivity].
      exfalso. unfold decode, urlDecode_at in Hd.
      cbn [split nth_error] in Hd.
      destruct (urlDecode ""); cbn [bind] in Hd; [|discriminate].
      destruct (JSON_parse a); cbn [bind] in Hd; discriminate. }
    destruct (build_with_proof params p d pe pn Hfe Hfn Hp' Hd He Hn)
      as (t & Hb & Hexp & _).
    exists t, (Z.min pe (requested_exp params) <=? currentTimeInSeconds)%Z.
    split; [exact Hb|]. split; [exact (isExpired_of_exp _ _ Hexp)|].
    rewrite (isExpired_of_exp _ _ He), Z.leb_le. split.
    + intros H.
      destruct (Z.le_gt_cases (requested_exp params) currentTimeInSeconds)
        as [Hr|Hr]; [left; exact Hr|right].
      f_equal. apply Z.leb_le. lia.
    + intros [Hr|Hx]; [lia|].
      inversion Hx as [Hle]. apply Z.leb_le in Hle. lia.
Qed.

End Expiry.

Lemma build_then_isExpired_witness :
  (exists t,
      build Tokens.early_expiration_params = Ok t /\
      isExpired t = Ok true) /\
  (exists t,
      build Tokens.root_params = Ok t /\ isExpired t = Ok false) /\
  (exists t,
      build (Tokens.params "did:key:zBob" (Some "did:key:zAlice")
               (Some Tokens.root)) = Ok t /\
      isExpired t = Ok false).
Proof.
  split; [|split].
  - destruct (build_then_isExpired Tokens.early_expiration_params)
      as (H & _); [vm_compute; reflexivity..|].
    destruct (H eq_refl) as (t & Hb & He & _).
    exists t. split; [exact Hb|]. rewrite He. vm_compute. reflexivity.
  - destruct (build_then_isExpired Tokens.root_params)
      as (H & _); [vm_compute; reflexivity..|].
    destruct (H eq_refl) as (t & Hb & _ & Hf).
    exists t. split; [exact Hb|].
    apply Hf; vm_compute; reflexivity.
  - destruct (build_then_isExpired
                (Tokens.params "did:key:zBob" (Some "did:key:zAlice")
                   (Some Tokens.root)))
      as (_ & H & _); [vm_compute; reflexivity..|].
    destruct (H Tokens.root (Tokens.decoded Tokens.root)
                1700003600 1699999940)%Z
      as (t & b & Hb & He & Hiff);
      [reflexivity|vm_compute; reflexivity..|].
    exists t. split; [exact Hb|]. rewrite He. f_equal.
    destruct b; [|reflexivity]. exfalso.
    destruct (proj1 Hiff eq_refl) as [Hr|Hx].
    + vm_compute in Hr. apply Hr. reflexivity.
    + vm_compute in Hx. discriminate.
Defined.

(** ** DIDs and keys *)

Lemma index_of_get c s : forall i,
  RFC4648.index_of c s = Some i -> String.get i s = Some c.
Proof.
  induction s as [|c' s IH]; intros i H; [discriminate|].
  cbn [RFC4648.index_of] in H.
  destruct (Ascii.eqb c c') eqn:E.
  - apply Ascii.eqb_eq in E. inversion H. subst. reflexivity.
  - destruct (RFC4648.index_of c s) as [j|]; [|discriminate].
    inversion H. cbn. apply IH. reflexivity.
Qed.

Lemma index_of_bound c s : forall i,
  RFC4648.index_of c s = Some i -> i < String.length s.
Proof.
  induction s as [|c' s IH]; intros i H; [discriminate|].
  cbn [RFC4648.index_of] in H.
  destruct (Ascii.eqb c c').
  - inversion H. cbn. lia.
  - destruct (RFC4648.index_of c s) as [j|]; [|discriminate].
    inversion H. cbn. specialize (IH j eq_refl). lia.
Qed.

Lemma char_of_digit_of_char c d :
  Base58.digit_of_char c = Some d ->
  (d < 58)%N /\ Base58.char_of_digit d = c.
Proof.
  unfold Base58.digit_of_char, Base58.char_of_digit.
  destruct (RFC4648.index_of c Base58.alphabet) as [i|] eqn:E;
    [|discriminate].
  intros H. inversion H. subst d.
  pose proof (index_of_bound _ _ _ E) as Hb.
  change (String.length Base58.alphabet) with 58 in Hb.
  split; [lia|].
  rewrite Nat2N.id, (index_of_get _ _ _ E). reflexivity.
Qed.

Lemma chars_of_digits_of_string s : forall ds,
  Base58.digits_of_string s = Some ds ->
  Forall (fun d => (d < 58)%N) ds /\
  string_of_list_ascii (map Base58.char_of_digit ds) = s.
Proof.
  induction s as [|c s IH]; intros ds H.
  - inversion H. split; [constructor|reflexivity].
  - cbn [Base58.digits_of_string] in H.
    destruct (Base58.digit_of_char c) as [d|] eqn:Hd; [|discriminate].
    destruct (Base58.digits_of_string s) as [ds'|]; [|discriminate].
    inversion H. subst ds.
    destruct (char_of_digit_of_char _ _ Hd) as [Hlt Hc].
    destruct (IH _ eq_refl) as [Hall Hs].
    split; [constructor; assumption|].
    cbn. rewrite Hc, Hs. reflexivity.
Qed.

Lemma N_of_ascii_of_N ds :
  Forall (fun d => (d < 256)%N) ds ->
  map N_of_ascii (map ascii_of_N ds) = ds.
Proof.
  induction 1 as [|d ds Hd _ IH]; [reflexivity|].
  cbn [map]. rewrite IH. f_equal. apply N_ascii_embedding. exact Hd.
Qed.

Lemma Forall_skipn {A} (P : A -> Prop) n : forall l,
  Forall P l -> Forall P (skipn n l).
Proof.
  induction n as [|n IH]; intros l H; [exact H|].
  destruct H; [constructor|]. cbn. apply IH. assumption.
Qed.

Lemma base58_encode_decode s data :
  Base58.decode s = Ok data -> Base58.encode data = s.
Proof.
  unfold Base58.decode, Base58.encode.
  destruct (Base58.digits_of_string s) as [ds|] eqn:Hds;
    [|destruct (existsb _ _); discriminate].
  intros H. inversion H. clear H.
  destruct (chars_of_digits_of_string _ _ Hds) as [Hall Hs].
  set (z := Base58.leading_zeros ds).
  set (n := of_digits 58 ds).
  assert (H256 : Forall (fun d => (d < 256)%N)
                   (repeat 0%N z ++ to_digits 256 n)).
  { apply Forall_app. split.
    - clear. induction z; constructor; [lia|assumption].
    - apply to_digits_bounded. lia. }
  rewrite (N_of_ascii_of_N _ H256).
  rewrite leading_zeros_app
    by (intros d rest Hd; exact (to_digits_head 256 ltac:(lia) _ _ _ Hd)).
  rewrite of_digits_zeros, of_to_digits by lia.
  assert (Hn : to_digits 58 n = skipn z ds).
  { unfold n. rewrite (leading_zeros_split ds) at 1. fold z.
    rewrite of_digits_zeros. apply to_of_digits; [lia| |].
    - apply Forall_skipn. exact Hall.
    - intros d rest Hd. exact (leading_zeros_head _ _ _ Hd). }
  rewrite Hn. unfold z. rewrite <- leading_zeros_split. exact Hs.
Qed.

#[export] Instance uint8arrays_reference_canonical :
  Base58Canonical (uint8arrays := uint8arrays_reference).
Proof. constructor. intros s b _. exact (base58_encode_decode s b). Qed.

Lemma hasPrefix_app prefix : forall key,
  DidRegistry.hasPrefix key prefix = true ->
  key = (prefix ++ skipn (length prefix) key)%list.
Proof.
  induction prefix as [|p ps IH]; intros key H; [reflexivity|].
  destruct key as [|k ks]; [discriminate|].
  cbn [DidRegistry.hasPrefix] in H. apply andb_prop in H.
  destruct H as [Hp Hk]. apply Ascii.eqb_eq in Hp. subst k.
  cbn [app length skipn]. f_equal. apply IH. exact Hk.
Qed.

#[export] Instance util_reference_sound :
  DidUtilSound (util := util_reference).
Proof.
  constructor. intros buf key type. cbn. unfold DidRegistry.parseMagicBytes.
  destruct (DidRegistry.hasPrefix buf DidRegistry.RSA_DID_PREFIX) eqn:H1.
  { intros H. inversion H. exists DidRegistry.RSA_DID_PREFIX.
    split; [reflexivity|]. apply hasPrefix_app. exact H1. }
  destruct (DidRegistry.hasPrefix buf DidRegistry.EDWARDS_DID_PREFIX) eqn:H2.
  { intros H. inversion H. exists DidRegistry.EDWARDS_DID_PREFIX.
    split; [reflexivity|]. apply hasPrefix_app. exact H2. }
  destruct (DidRegistry.hasPrefix buf DidRegistry.BLS_DID_PREFIX) eqn:H3.
  { intros H. inversion H. exists DidRegistry.BLS_DID_PREFIX.
    split; [reflexivity|]. apply hasPrefix_app. exact H3. }
  discriminate.
Qed.

Lemma prefix_substr p : forall s,
  String.prefix p s = true -> s = p ++ substr (String.length p) s.
Proof.
  induction p as [|c p IH]; intros s H; [reflexivity|].
  destruct s as [|c' s]; [discriminate|].
  cbn [String.prefix] in H.
  destruct (ascii_dec c c') as [->|]; [|discriminate].
  cbn. f_equal. apply IH. exact H.
Qed.

Section DID_inverse.

Context {uint8arrays : Uint8arrays} {util : DidUtil}
        {codecs : Uint8arraysLaws} {registry : DidUtilLaws}
        {canonical : Base58Canonical} {sound : DidUtilSound}.

(** X11: With codecs that read what they write, a base58btc writer that
    gives back the texts in its alphabet that its reader reads, and a
    registry whose parser recognises registered prefixes only,
    [publicKeyToDid] undoes [didToPublicKey] on the DIDs that are
    written in the alphabet after their prefix: when such a DID is
    converted to a key and a type, that key and type convert back to the
    same DID.  A string that [didToPublicKey] accepts starts with the
    DID prefix. *)
Theorem did_to_key_to_did (did key : string) (type : KeyType) :
  didToPublicKey did = Ok (key, type) ->
  base58_text (substr (String.length BASE58_DID_PREFIX) did) = true ->
  publicKeyToDid key type = Ok did /\
  startsWith did BASE58_DID_PREFIX = true.
Proof.
  unfold didToPublicKey, publicKeyToDid. intros H Htext.
  destruct (startsWith did BASE58_DID_PREFIX) eqn:Hp; [|discriminate].
  split; [|reflexivity]. cbn [negb] in H.
  destruct (fromString_base58btc _) as [buf|] eqn:Hb; [|discriminate].
  cbn [bind] in H.
  destruct (parseMagicBytes buf) as [[keyBuffer type']|] eqn:Hm;
    [|discriminate].
  cbn [bind] in H. inversion H. subst key type'.
  rewrite base64_fromString_toString. cbn [bind].
  destruct (magicBytes_parseMagicBytes _ _ _ Hm) as (prefix & Hpre & Hbuf).
  rewrite Hpre, <- Hbuf.
  rewrite (base58btc_toString_fromString _ _ Htext Hb).
  f_equal. symmetry. apply prefix_substr. exact Hp.
Qed.

(** X12: With codecs that read what they write and a registry that
    recognises its prefixes, two keys that get the same DID hold the
    same bytes and have the same type, also when their base64 texts
    differ, as a padded and an unpadded one do. *)
Theorem publicKeyToDid_injective (k1 k2 : string) (t1 t2 : KeyType)
  (did : string) :
  publicKeyToDid k1 t1 = Ok did ->
  publicKeyToDid k2 t2 = Ok did ->
  t1 = t2 /\ fromString_base64 k1 = fromString_base64 k2.
Proof.
  assert (Hinv : forall k t,
    publicKeyToDid k t = Ok did ->
    exists b, fromString_base64 k = Ok b /\
              didToPublicKey did = Ok (toString_base64pad b, t)).
  { intros k t H. pose proof H as H'. unfold publicKeyToDid in H'.
    destruct (fromString_base64 k) as [b|] eqn:Hb; [|discriminate].
    cbn [bind] in H'.
    destruct (magicBytes t) as [prefix|] eqn:Hm; [|discriminate].
    destruct (didToPublicKey_publicKeyToDid _ _ _ _ Hm Hb)
      as (did' & Hdid & Hback).
    rewrite H in Hdid. inversion Hdid. subst did'.
    exists b. split; [reflexivity|exact Hback]. }
  intros H1 H2.
  destruct (Hinv _ _ H1) as (b1 & Hb1 & Hd1).
  destruct (Hinv _ _ H2) as (b2 & Hb2 & Hd2).
  rewrite Hd1 in Hd2. inversion Hd2 as [[Hpad Ht]].
  split; [reflexivity|].
  rewrite Hb1, Hb2.
  pose proof (base64_fromString_toString b1) as E1.
  rewrite Hpad, base64_fromString_toString in E1. congruence.
Qed.

End DID_inverse.

Lemma did_to_key_to_did_witness :
  didToPublicKey Example.did_ucan
  = Ok ("Hv+AVRD2WUjUFOsSNbsmrp9fokuwrUnjBcr92f0kxw4=", "ed25519") /\
  publicKeyToDid "Hv+AVRD2WUjUFOsSNbsmrp9fokuwrUnjBcr92f0kxw4=" "ed25519"
  = Ok Example.did_ucan.
Proof.
  assert (H : didToPublicKey Example.did_ucan
              = Ok ("Hv+AVRD2WUjUFOsSNbsmrp9fokuwrUnjBcr92f0kxw4=",
                    "ed25519"))
    by (vm_compute; reflexivity).
  split; [exact H|].
  refine (proj1 (did_to_key_to_did
                   (codecs := uint8arrays_reference_laws)
                   (canonical := uint8arrays_reference_canonical)
                   (sound := util_reference_sound) _ _ _ H _)).
  vm_compute. reflexivity.
Defined.

Lemma publicKeyToDid_injective_witness :
  publicKeyToDid "Hv+AVRD2WUjUFOsSNbsmrp9fokuwrUnjBcr92f0kxw4=" "ed25519"
  = publicKeyToDid "Hv+AVRD2WUjUFOsSNbsmrp9fokuwrUnjBcr92f0kxw4" "ed25519"
  /\
  fromString_base64 "Hv+AVRD2WUjUFOsSNbsmrp9fokuwrUnjBcr92f0kxw4="
  = fromString_base64 "Hv+AVRD2WUjUFOsSNbsmrp9fokuwrUnjBcr92f0kxw4".
Proof.
  assert (H1 : publicKeyToDid "Hv+AVRD2WUjUFOsSNbsmrp9fokuwrUnjBcr92f0kxw4="
                 "ed25519" = Ok Example.did_ucan)
    by (vm_compute; reflexivity).
  assert (H2 : publicKeyToDid "Hv+AVRD2WUjUFOsSNbsmrp9fokuwrUnjBcr92f0kxw4"
                 "ed25519" = Ok Example.did_ucan)
    by (vm_compute; reflexivity).
  split; [rewrite H1, H2; reflexivity|].
  exact (proj2 (publicKeyToDid_injective
                  (codecs := uint8arrays_reference_laws)
                  (registry := util_reference_laws) _ _ _ _ _ H1 H2)).
Defined.

(** ** Sessions *)

#[export] Instance storage_memory_laws :
  StorageLaws (storage_ := storage_memory).
Proof.
  constructor.
  - intros s k v k'. reflexivity.
  - intros s k k'. cbn. induction s as [|[k0 v0] s IH]; cbn.
    + destruct (String.eqb k k'); reflexivity.
    + destruct (String.eqb k0 k) eqn:E0.
      * rewrite IH. apply String.eqb_eq in E0. subst k0.
        destruct (String.eqb k k'); reflexivity.
      * cbn. rewrite IH.
        destruct (String.eqb k0 k') eqn:E1; [|reflexivity].
        apply String.eqb_eq in E1. subst k0.
        rewrite String.eqb_sym, E0. reflexivity.
Qed.

#[export] Instance checks_memory_laws :
  TypeChecksLaws (checks := checks_memory).
Proof.
  constructor; [reflexivity|reflexivity|].
  intros fields k v H. cbn. rewrite H. reflexivity.
Qed.

#[export] Instance JSON_reference_text : JSONText (JSON_ := JSON_reference).
Proof. constructor. eexists. vm_compute. reflexivity. Qed.

Section Session_properties.

Context {JSON_ : JSON} {storage_ : Storage} {checks : TypeChecks}
        {keystore : Keystore} {fs_ : FileSystem}
        {printer : JSONLaws} {text : JSONText}
        {store : StorageLaws} {types : TypeChecksLaws}.

Lemma stringify_not_empty v : JSON_stringify v <> "".
Proof.
  intros H. destruct parse_empty as [e He].
  pose proof (parse_stringify v) as Hv. rewrite H, He in Hv. discriminate.
Qed.

Lemma restore_of_null s :
  getItem s KEYS_SESSION = JNull -> restore s = Ok JNull.
Proof.
  intros H. unfold restore. rewrite H. cbn [truthy bind].
  unfold isSessionInfo. rewrite isObject_null. reflexivity.
Qed.

(** X13: With a store that reads what was written, a JSON printer that
    the parser inverts and the usual object checks, [restore] after
    [provide] gives the record of the session back: an object with the
    type and the user name that were provided, whatever the store held
    before. *)
Theorem restore_provide (storage : contents) (info : SessionInfo) :
  restore (fst (provide storage info))
  = Ok (JObj [("type", JStr (info_type info));
              ("username", JStr (info_username info))]).
Proof.
  unfold restore, provide. rewrite getItem_setItem, String.eqb_refl.
  set (record := JObj _).
  assert (Ht : truthy (Some (JStr (JSON_stringify record))) = true).
  { cbn. destruct (JSON_stringify record) eqn:E; [|reflexivity].
    exfalso. exact (stringify_not_empty _ E). }
  rewrite Ht, Ht. cbn [toString]. rewrite parse_stringify. cbn [bind].
  unfold isSessionInfo, record.
  rewrite isObject_object.
  set (fields := [("type", JStr (info_type info));
                  ("username", JStr (info_username info))]).
  rewrite (hasProp_object fields "username" (JStr (info_username info))
             eq_refl).
  rewrite (hasProp_object fields "type" (JStr (info_type info)) eq_refl).
  reflexivity.
Qed.

(** X14: With a store that forgets what is removed, [destroy] leaves no
    session behind: afterwards [restore] answers [null], the four keys
    of the account (its UCAN, the CID log, the session, the UCANs) read
    [null], every other key reads as before, and the type and the user
    name of the session object are unchanged. *)
Theorem restore_destroy (this : Session) :
  let after := destroy this in
  restore (session_storage after) = Ok JNull /\
  (forall k,
     In k [KEYS_ACCOUNT_UCAN; KEYS_CID_LOG; KEYS_SESSION; KEYS_UCANS] ->
     getItem (session_storage after) k = JNull) /\
  (forall k,
     ~ In k [KEYS_ACCOUNT_UCAN; KEYS_CID_LOG; KEYS_SESSION; KEYS_UCANS] ->
     getItem (session_storage after) k
     = getItem (session_storage this) k) /\
  session_type after = session_type this /\
  session_username after = session_username this.
Proof.
  intros after.
  assert (Hread : forall k,
    getItem (session_storage after) k
    = if String.eqb KEYS_UCANS k then JNull
      else if String.eqb KEYS_SESSION k then JNull
      else if String.eqb KEYS_CID_LOG k then JNull
      else if String.eqb KEYS_ACCOUNT_UCAN k then JNull
      else getItem (session_storage this) k).
  { intros k. unfold after, destroy. cbn [session_storage].
    rewrite !getItem_removeItem. reflexivity. }
  assert (Hin : forall k,
    In k [KEYS_ACCOUNT_UCAN; KEYS_CID_LOG; KEYS_SESSION; KEYS_UCANS] ->
    getItem (session_storage after) k = JNull).
  { intros k Hk. rewrite Hread.
    destruct Hk as [<-|[<-|[<-|[<-|[]]]]];
      rewrite ?String.eqb_refl;
      repeat match goal with
             | |- context [String.eqb ?a ?b] => destruct (String.eqb a b)
             end; reflexivity. }
  split; [|split; [exact Hin|split; [|split; reflexivity]]].
  - apply restore_of_null. apply Hin. cbn. tauto.
  - intros k Hk. rewrite Hread.
    assert (Hne : forall k', In k' [KEYS_ACCOUNT_UCAN; KEYS_CID_LOG;
                                    KEYS_SESSION; KEYS_UCANS] ->
                             String.eqb k' k = false).
    { intros k' Hk'. apply String.eqb_neq. intros ->. exact (Hk Hk'). }
    rewrite !Hne by (cbn; tauto). reflexivity.
Qed.

End Session_properties.

Lemma restore_provide_witness :
  restore (fst (provide [("session", JStr "stale")]
                  {| info_type := "webCrypto"; info_username := "alice" |}))
  = Ok (JObj [("type", JStr "webCrypto"); ("username", JStr "alice")]).
Proof.
  exact (restore_provide (printer := JSON_reference_laws)
           (text := JSON_reference_text) (store := storage_memory_laws)
           (types := checks_memory_laws) _ _).
Defined.

Lemma restore_destroy_witness :
  let this :=
    {| session_crypto := ["write-key"; "exchange-key"];
       session_storage :=
         fst (provide [("theme", JStr "dark")]
                {| info_type := "webCrypto"; info_username := "alice" |});
       session_fs := Some true;
       session_type := "webCrypto";
       session_username := "alice" |} in
  restore (session_storage this)
  = Ok (JObj [("type", JStr "webCrypto"); ("username", JStr "alice")]) /\
  restore (session_storage (destroy this)) = Ok JNull /\
  getItem (session_storage (destroy this)) "theme" = JStr "dark".
Proof.
  intros this. split; [vm_compute; reflexivity|].
  destruct (restore_destroy (store := storage_memory_laws)
              (types := checks_memory_laws) this)
    as (Hr & _ & Hout & _).
  split; [exact Hr|].
  rewrite Hout; [reflexivity|].
  cbn. intros [H|[H|[H|[H|[]]]]]; discriminate.
Defined.
